(** * Access control and delegation engine of the course marketplace

    A shallow embedding of [server/storage.ts] (class [MemStorage]), of the
    access, ownership and access-request routes of [server/routes.ts], of
    the duration check of the request form and of the client's functions on
    durations, followed by the properties of the specification that concern
    them.

    Conventions of the embedding:
    - a JavaScript [number] holding an identifier, a counter or a number of
      days is an integer of [Z]; a number that the client computes from a
      text is a [JsNumber], which tells the integers that a double holds
      exactly from [NaN] and from the numbers beyond;
    - [new Date()] is the explicit argument [now] of every operation, the
      milliseconds since the epoch in [Z], and a date that is always the
      current one (a creation or update date) is that time value; a date
      that the code computes or receives (an expiry) is a [Date], which can
      be an Invalid Date;
    - the rules of the server's time zone, which [Date.prototype.setDate]
      consults, are an explicit argument [zone];
    - a [Map<number, V>] is an association list in insertion order, because
      [Array.from(map.values()).find(...)] returns the first match in that
      order;
    - an [async] method is the function it computes: a route awaits each call
      before the next one starts;
    - a route is a function from the request and the store to the HTTP answer
      (status code and JSON body) and the new store. *)

From Stdlib Require Import ZArith List String Ascii Bool Lia DecimalString.
From Stdlib Require Import Sorted Permutation DecimalPos DecimalZ.
Import ListNotations.
Local Open Scope string_scope.
Local Open Scope Z_scope.

(** ** JavaScript [Map<number, V>] in insertion order *)

Module JsMap.
Section Defs.
Context {V : Type}.

Definition t := list (Z * V).

Definition empty : t := [].

(** [map.get(k)] *)
Fixpoint get (k : Z) (m : t) : option V :=
  match m with
  | [] => None
  | (k', v) :: rest => if k =? k' then Some v else get k rest
  end.

(** [map.set(k, v)]: an existing key keeps its place, a new key goes last. *)
Fixpoint set (k : Z) (v : V) (m : t) : t :=
  match m with
  | [] => [(k, v)]
  | (k', v') :: rest =>
      if k =? k' then (k, v) :: rest else (k', v') :: set k v rest
  end.

(** [Array.from(map.values())] *)
Definition values (m : t) : list V := List.map snd m.

Definition keys (m : t) : list Z := List.map fst m.

(** A [Map] holds each key once. *)
Definition wf (m : t) : Prop := NoDup (keys m).
End Defs.
Arguments t : clear implicits.
End JsMap.

(** ** Strings *)

(** [String.prototype.toLowerCase] on the ASCII range, which holds every
    wallet address (a hexadecimal string). *)
Definition lower_ascii (c : ascii) : ascii :=
  let n := nat_of_ascii c in
  if ((65 <=? n) && (n <=? 90))%nat then ascii_of_nat (n + 32) else c.

Fixpoint toLowerCase (s : string) : string :=
  match s with
  | EmptyString => EmptyString
  | String c rest => String (lower_ascii c) (toLowerCase rest)
  end.

(** Truthiness of a string: only the empty string is falsy. *)
Definition truthy_string (s : string) : bool :=
  match s with EmptyString => false | _ => true end.

(** Template-literal rendering of an integer, as in [`user_${Date.now()}`]. *)
Definition string_of_Z (z : Z) : string := NilZero.string_of_int (Z.to_int z).

(** [a || null] on an optional string: the empty string is falsy. *)
Definition or_null (a : option string) : option string :=
  match a with
  | Some s => if truthy_string s then Some s else None
  | None => None
  end.

(** [a || null] on an optional boolean. *)
Definition or_null_bool (a : option bool) : option bool :=
  match a with
  | Some true => Some true
  | _ => None
  end.

(** ** Dates

    A [Date] object holds a time value, a whole number of milliseconds since
    the epoch, or [NaN], which makes it an Invalid Date. *)
Inductive Date :=
| TimeValue (t : Z)
| InvalidDate.

(** [TimeClip]: a time value lies at most 8.64e15 milliseconds from the
    epoch. *)
Definition TimeClip (time : Z) : Date :=
  if 8640000000000000 <? Z.abs time then InvalidDate else TimeValue time.

(** ** Rows of [shared/schema.ts]

    Columns that no access rule reads (biography, avatar, description, price,
    cover image, ...) are left out of [User] and [Course]. *)

Record User := {
  u_id : Z;
  u_username : string;
  u_password : string;
  u_walletAddress : option string;
  u_isCreator : option bool;
  u_createdAt : Z
}.

Record InsertUser := {
  iu_username : string;
  iu_password : string;
  iu_walletAddress : option string;
  iu_isCreator : option bool
}.

Record Course := {
  c_id : Z;
  c_title : string;
  c_creatorId : Z;
  c_isPublished : option bool;
  c_createdAt : Z
}.

Record InsertCourse := {
  ic_title : string;
  ic_creatorId : Z;
  ic_isPublished : option bool
}.

Record NftOwnership := {
  o_id : Z;
  o_courseId : Z;
  o_ownerId : Z;
  o_tokenId : string;
  o_mintedAt : Z;
  o_transactionHash : option string
}.

Record InsertNftOwnership := {
  io_courseId : Z;
  io_ownerId : Z;
  io_tokenId : string;
  io_transactionHash : option string
}.

Record TemporaryAccess := {
  ta_id : Z;
  ta_ownershipId : Z;
  ta_recipientAddress : string;
  ta_expiresAt : Date;
  ta_isActive : bool;
  ta_createdAt : Z
}.

Record InsertTemporaryAccess := {
  ita_ownershipId : Z;
  ita_recipientAddress : string;
  ita_expiresAt : Date
}.

Record AccessRequest := {
  ar_id : Z;
  ar_courseId : Z;
  ar_requesterAddress : string;
  ar_ownerAddress : string;
  ar_requestMessage : option string;
  ar_requestDuration : Z;
  ar_status : string;
  ar_createdAt : Z;
  ar_updatedAt : Z
}.

Record InsertAccessRequest := {
  iar_courseId : Z;
  iar_requesterAddress : string;
  iar_ownerAddress : string;
  iar_requestMessage : option string;
  iar_requestDuration : Z;
  iar_status : option string
}.

(** ** [class MemStorage] *)

Record MemStorage := {
  users : JsMap.t User;
  courses : JsMap.t Course;
  ownerships : JsMap.t NftOwnership;
  temporaryAccesses : JsMap.t TemporaryAccess;
  accessRequests : JsMap.t AccessRequest;
  userId : Z;
  courseId : Z;
  ownershipId : Z;
  temporaryAccessId : Z;
  accessRequestId : Z
}.

(** [new MemStorage()] *)
Definition newMemStorage : MemStorage :=
  {| users := JsMap.empty; courses := JsMap.empty; ownerships := JsMap.empty;
     temporaryAccesses := JsMap.empty; accessRequests := JsMap.empty;
     userId := 1; courseId := 1; ownershipId := 1;
     temporaryAccessId := 1; accessRequestId := 1 |}.

Definition with_users (m : JsMap.t User) (n : Z) (s : MemStorage) :=
  {| users := m; courses := courses s; ownerships := ownerships s;
     temporaryAccesses := temporaryAccesses s;
     accessRequests := accessRequests s;
     userId := n; courseId := courseId s; ownershipId := ownershipId s;
     temporaryAccessId := temporaryAccessId s;
     accessRequestId := accessRequestId s |}.

Definition with_courses (m : JsMap.t Course) (n : Z) (s : MemStorage) :=
  {| users := users s; courses := m; ownerships := ownerships s;
     temporaryAccesses := temporaryAccesses s;
     accessRequests := accessRequests s;
     userId := userId s; courseId := n; ownershipId := ownershipId s;
     temporaryAccessId := temporaryAccessId s;
     accessRequestId := accessRequestId s |}.

Definition with_ownerships (m : JsMap.t NftOwnership) (n : Z) (s : MemStorage) :=
  {| users := users s; courses := courses s; ownerships := m;
     temporaryAccesses := temporaryAccesses s;
     accessRequests := accessRequests s;
     userId := userId s; courseId := courseId s; ownershipId := n;
     temporaryAccessId := temporaryAccessId s;
     accessRequestId := accessRequestId s |}.

Definition with_temporaryAccesses (m : JsMap.t TemporaryAccess) (n : Z)
    (s : MemStorage) :=
  {| users := users s; courses := courses s; ownerships := ownerships s;
     temporaryAccesses := m;
     accessRequests := accessRequests s;
     userId := userId s; courseId := courseId s; ownershipId := ownershipId s;
     temporaryAccessId := n;
     accessRequestId := accessRequestId s |}.

Definition with_accessRequests (m : JsMap.t AccessRequest) (n : Z)
    (s : MemStorage) :=
  {| users := users s; courses := courses s; ownerships := ownerships s;
     temporaryAccesses := temporaryAccesses s;
     accessRequests := m;
     userId := userId s; courseId := courseId s; ownershipId := ownershipId s;
     temporaryAccessId := temporaryAccessId s;
     accessRequestId := n |}.

(** *** User methods *)

Definition getUser (id : Z) (s : MemStorage) : option User :=
  JsMap.get id (users s).

(** [user.walletAddress?.toLowerCase() === walletAddress?.toLowerCase()]: a
    user without wallet gives [undefined], which equals no string. *)
Definition wallet_matches (walletAddress : string) (u : User) : bool :=
  match u_walletAddress u with
  | Some w => String.eqb (toLowerCase w) (toLowerCase walletAddress)
  | None => false
  end.

Definition getUserByWalletAddress (walletAddress : string) (s : MemStorage)
    : option User :=
  find (wallet_matches walletAddress) (JsMap.values (users s)).

Definition createUser (now : Z) (insertUser : InsertUser) (s : MemStorage)
    : User * MemStorage :=
  let id := userId s in
  let user :=
    {| u_id := id;
       u_username := iu_username insertUser;
       u_password := iu_password insertUser;
       u_walletAddress := or_null (iu_walletAddress insertUser);
       u_isCreator := or_null_bool (iu_isCreator insertUser);
       u_createdAt := now |} in
  (user, with_users (JsMap.set id user (users s)) (id + 1) s).

(** [updateUser(id, { walletAddress })], the only partial update the access
    routes make. *)
Definition updateUser_walletAddress (id : Z) (walletAddress : string)
    (s : MemStorage) : option User * MemStorage :=
  match JsMap.get id (users s) with
  | None => (None, s)
  | Some existingUser =>
      let updatedUser :=
        {| u_id := u_id existingUser;
           u_username := u_username existingUser;
           u_password := u_password existingUser;
           u_walletAddress := Some walletAddress;
           u_isCreator := u_isCreator existingUser;
           u_createdAt := u_createdAt existingUser |} in
      (Some updatedUser,
       with_users (JsMap.set id updatedUser (users s)) (userId s) s)
  end.

(** *** Course methods *)

Definition getCourse (id : Z) (s : MemStorage) : option Course :=
  JsMap.get id (courses s).

Definition createCourse (now : Z) (insertCourse : InsertCourse)
    (s : MemStorage) : Course * MemStorage :=
  let id := courseId s in
  let course :=
    {| c_id := id;
       c_title := ic_title insertCourse;
       c_creatorId := ic_creatorId insertCourse;
       c_isPublished := or_null_bool (ic_isPublished insertCourse);
       c_createdAt := now |} in
  (course, with_courses (JsMap.set id course (courses s)) (id + 1) s).

(** *** NFT and access methods *)

Definition getNftOwnership (id : Z) (s : MemStorage) : option NftOwnership :=
  JsMap.get id (ownerships s).

Definition getNftOwnershipByCourseAndOwner (cid oid : Z) (s : MemStorage)
    : option NftOwnership :=
  find (fun ownership =>
          (o_courseId ownership =? cid) && (o_ownerId ownership =? oid))
       (JsMap.values (ownerships s)).

Definition createNftOwnership (now : Z) (insertOwnership : InsertNftOwnership)
    (s : MemStorage) : NftOwnership * MemStorage :=
  let id := ownershipId s in
  let ownership :=
    {| o_id := id;
       o_courseId := io_courseId insertOwnership;
       o_ownerId := io_ownerId insertOwnership;
       o_tokenId := io_tokenId insertOwnership;
       o_mintedAt := now;
       o_transactionHash := or_null (io_transactionHash insertOwnership) |} in
  (ownership,
   with_ownerships (JsMap.set id ownership (ownerships s)) (id + 1) s).

Definition createTemporaryAccess (now : Z)
    (insertAccess : InsertTemporaryAccess) (s : MemStorage)
    : TemporaryAccess * MemStorage :=
  let id := temporaryAccessId s in
  let access :=
    {| ta_id := id;
       ta_ownershipId := ita_ownershipId insertAccess;
       ta_recipientAddress := ita_recipientAddress insertAccess;
       ta_expiresAt := ita_expiresAt insertAccess;
       ta_isActive := true;
       ta_createdAt := now |} in
  (access,
   with_temporaryAccesses (JsMap.set id access (temporaryAccesses s))
     (id + 1) s).

(** [date > now] on two [Date]s compares their time values; the [NaN] of an
    Invalid Date is greater than nothing. *)
Definition date_gt (d : Date) (now : Z) : bool :=
  match d with
  | TimeValue t => now <? t
  | InvalidDate => false
  end.

Definition getActiveTemporaryAccess (now : Z) (oid : Z)
    (recipientAddress : string) (s : MemStorage) : option TemporaryAccess :=
  let normalizedRecipientAddress := toLowerCase recipientAddress in
  find (fun access =>
          (ta_ownershipId access =? oid)
          && String.eqb (toLowerCase (ta_recipientAddress access))
                        normalizedRecipientAddress
          && ta_isActive access
          && date_gt (ta_expiresAt access) now)
       (JsMap.values (temporaryAccesses s)).

Definition getTemporaryAccessByOwnership (oid : Z) (s : MemStorage)
    : list TemporaryAccess :=
  filter (fun access => ta_ownershipId access =? oid)
         (JsMap.values (temporaryAccesses s)).

(** [access.isActive = false] on the stored object, then
    [this.temporaryAccesses.set(id, access)]. *)
Definition deactivateTemporaryAccess (id : Z) (s : MemStorage)
    : bool * MemStorage :=
  match JsMap.get id (temporaryAccesses s) with
  | None => (false, s)
  | Some access =>
      let access' :=
        {| ta_id := ta_id access;
           ta_ownershipId := ta_ownershipId access;
           ta_recipientAddress := ta_recipientAddress access;
           ta_expiresAt := ta_expiresAt access;
           ta_isActive := false;
           ta_createdAt := ta_createdAt access |} in
      (true,
       with_temporaryAccesses (JsMap.set id access' (temporaryAccesses s))
         (temporaryAccessId s) s)
  end.

(** The loop over [courseOwnerships] returns [true] at the first ownership
    for which [some] succeeds. *)
Definition checkTemporaryAccess (now : Z) (cid : Z) (walletAddress : string)
    (s : MemStorage) : bool :=
  let normalizedWalletAddress := toLowerCase walletAddress in
  let courseOwnerships :=
    filter (fun ownership => o_courseId ownership =? cid)
           (JsMap.values (ownerships s)) in
  existsb
    (fun ownership =>
       existsb
         (fun access =>
            let isOwnershipMatch := ta_ownershipId access =? o_id ownership in
            let isAddressMatch :=
              String.eqb (toLowerCase (ta_recipientAddress access))
                         normalizedWalletAddress in
            let isActive := ta_isActive access in
            let isValid := date_gt (ta_expiresAt access) now in
            isOwnershipMatch && isAddressMatch && isActive && isValid)
         (JsMap.values (temporaryAccesses s)))
    courseOwnerships.

(** A JavaScript call that either throws [new Error(message)] or returns. *)
Definition Throws (A : Type) : Type := (string + A)%type.

(** A course with the expiry and the identifier of the share that opens it. *)
Record SharedCourse := {
  sc_course : Course;
  sc_expiresAt : Date;
  sc_shareId : Z
}.

(** Body of the loop over [activeAccesses]: the course is pushed unless the
    ownership or the course is missing ([continue]). *)
Definition shared_course_of (s : MemStorage) (access : TemporaryAccess)
    : list SharedCourse :=
  match JsMap.get (ta_ownershipId access) (ownerships s) with
  | None => []
  | Some ownership =>
      match JsMap.get (o_courseId ownership) (courses s) with
      | None => []
      | Some course =>
          [ {| sc_course := course;
               sc_expiresAt := ta_expiresAt access;
               sc_shareId := ta_id access |} ]
      end
  end.

Definition getSharedCoursesForWallet (now : Z) (walletAddress : string)
    (s : MemStorage) : list SharedCourse :=
  let normalizedWalletAddress := toLowerCase walletAddress in
  let activeAccesses :=
    filter (fun access =>
              let normalized := toLowerCase (ta_recipientAddress access) in
              let isMatch := String.eqb normalized normalizedWalletAddress in
              let isActive := ta_isActive access in
              let isValid := date_gt (ta_expiresAt access) now in
              isMatch && isActive && isValid)
           (JsMap.values (temporaryAccesses s)) in
  flat_map (shared_course_of s) activeAccesses.

(** *** Access request methods *)

Definition createAccessRequest (now : Z) (insertRequest : InsertAccessRequest)
    (s : MemStorage) : AccessRequest * MemStorage :=
  let id := accessRequestId s in
  let request :=
    {| ar_id := id;
       ar_courseId := iar_courseId insertRequest;
       ar_requesterAddress := iar_requesterAddress insertRequest;
       ar_ownerAddress := iar_ownerAddress insertRequest;
       ar_requestMessage := or_null (iar_requestMessage insertRequest);
       ar_requestDuration := iar_requestDuration insertRequest;
       ar_status :=
         match or_null (iar_status insertRequest) with
         | Some status => status
         | None => "pending"
         end;
       ar_createdAt := now;
       ar_updatedAt := now |} in
  (request,
   with_accessRequests (JsMap.set id request (accessRequests s)) (id + 1) s).

Definition getAccessRequestById (id : Z) (s : MemStorage)
    : option AccessRequest :=
  JsMap.get id (accessRequests s).

(** [.sort((a, b) => dateB - dateA)]: the sort of an array is stable, so the
    requests come newest first and equal dates keep their order. *)
Fixpoint insert_newest_first (x : AccessRequest) (l : list AccessRequest)
    : list AccessRequest :=
  match l with
  | [] => [x]
  | y :: rest =>
      if ar_createdAt x <? ar_createdAt y
      then y :: insert_newest_first x rest
      else x :: l
  end.

Definition sort_newest_first (l : list AccessRequest) : list AccessRequest :=
  fold_right insert_newest_first [] l.

Definition getAccessRequestsByCourse (cid : Z) (s : MemStorage)
    : list AccessRequest :=
  sort_newest_first
    (filter (fun request => ar_courseId request =? cid)
            (JsMap.values (accessRequests s))).

(** [requests.map(request => ...)] with a callback that throws at the first
    request whose course is missing. *)
Fixpoint join_course (s : MemStorage) (requests : list AccessRequest)
    : Throws (list (AccessRequest * Course)) :=
  match requests with
  | [] => inr []
  | request :: rest =>
      match JsMap.get (ar_courseId request) (courses s) with
      | None =>
          inl ("Course not found for request " ++ string_of_Z (ar_id request))
      | Some course =>
          match join_course s rest with
          | inl e => inl e
          | inr joined => inr ((request, course) :: joined)
          end
      end
  end.

Definition getAccessRequestsByRequester (requesterAddress : string)
    (s : MemStorage) : Throws (list (AccessRequest * Course)) :=
  let normalizedRequesterAddress := toLowerCase requesterAddress in
  let requests :=
    sort_newest_first
      (filter (fun request =>
                 String.eqb (toLowerCase (ar_requesterAddress request))
                            normalizedRequesterAddress)
              (JsMap.values (accessRequests s))) in
  join_course s requests.

Definition getAccessRequestsByOwner (ownerAddress : string)
    (s : MemStorage) : Throws (list (AccessRequest * Course)) :=
  let normalizedOwnerAddress := toLowerCase ownerAddress in
  let requests :=
    sort_newest_first
      (filter (fun request =>
                 String.eqb (toLowerCase (ar_ownerAddress request))
                            normalizedOwnerAddress)
              (JsMap.values (accessRequests s))) in
  join_course s requests.

(** [{ ...request, status, updatedAt: now }] *)
Definition with_status (status : string) (now : Z) (request : AccessRequest)
    : AccessRequest :=
  {| ar_id := ar_id request;
     ar_courseId := ar_courseId request;
     ar_requesterAddress := ar_requesterAddress request;
     ar_ownerAddress := ar_ownerAddress request;
     ar_requestMessage := ar_requestMessage request;
     ar_requestDuration := ar_requestDuration request;
     ar_status := status;
     ar_createdAt := ar_createdAt request;
     ar_updatedAt := now |}.

Definition updateAccessRequestStatus (now : Z) (id : Z) (status : string)
    (s : MemStorage) : option AccessRequest * MemStorage :=
  match JsMap.get id (accessRequests s) with
  | None => (None, s)
  | Some request =>
      let updatedRequest := with_status status now request in
      (Some updatedRequest,
       with_accessRequests (JsMap.set id updatedRequest (accessRequests s))
         (accessRequestId s) s)
  end.

(** The request with another current status, and the store with a request
    written under an identifier. *)
Definition with_current_status (current : string) (request : AccessRequest)
    : AccessRequest :=
  {| ar_id := ar_id request;
     ar_courseId := ar_courseId request;
     ar_requesterAddress := ar_requesterAddress request;
     ar_ownerAddress := ar_ownerAddress request;
     ar_requestMessage := ar_requestMessage request;
     ar_requestDuration := ar_requestDuration request;
     ar_status := current;
     ar_createdAt := ar_createdAt request;
     ar_updatedAt := ar_updatedAt request |}.

Definition store_with_request (id : Z) (request : AccessRequest)
    (s : MemStorage) : MemStorage :=
  with_accessRequests (JsMap.set id request (accessRequests s))
    (accessRequestId s) s.

(** ** Routes of [server/routes.ts] *)

Inductive AccessType := owner | temporary.

(** JSON bodies of the answers. [RequestJson None] is [res.json(undefined)].
    [ApprovalJson r granted expiresAt error] is
    [{ ...r, accessGranted, expiresAt }] or [{ ...r, accessGranted, error }];
    an Invalid Date is sent as [null]. *)
Inductive Body :=
| Message (message : string)
| UserJson (user : option User)
| CourseJson (course : Course)
| OwnershipJson (ownership : NftOwnership)
| AccessJson (access : TemporaryAccess)
| CheckJson (hasAccess : bool) (accessType : option AccessType)
| SharedCoursesJson (sharedCourses : list SharedCourse)
| RequestJson (request : option AccessRequest)
| RequestsJson (requests : list AccessRequest)
| JoinedRequestsJson (requests : list (AccessRequest * Course))
| ApprovalJson (request : option AccessRequest) (accessGranted : bool)
    (expiresAt : option Date) (error : option string).

(** [res.status(code).json(body)] *)
Definition Response : Type := (Z * Body)%type.

(** [createInsertSchema] of drizzle-zod checks an [integer] column as an
    integer within the 32-bit range of the column. Text columns accept every
    string and a timestamp column every valid date, which the types of the
    arguments already say. *)
Definition integer_column (z : Z) : bool :=
  (-2147483648 <=? z) && (z <=? 2147483647).

(** Message of the error that [validateRequest] throws; the detail that
    zod-validation-error appends to it is not modelled. *)
Definition validation_message : string := "Validation error".

(** [POST /api/users/connect-wallet] *)
Definition connect_wallet (now : Z) (walletAddress : string) (s : MemStorage)
    : Response * MemStorage :=
  if negb (truthy_string walletAddress)
  then ((400, Message "Wallet address is required"), s)
  else
    let normalizedWalletAddress := toLowerCase walletAddress in
    match getUserByWalletAddress normalizedWalletAddress s with
    | None =>
        let username := "user_" ++ string_of_Z now in
        let '(user, s') :=
          createUser now
            {| iu_username := username;
               iu_password := "pw_" ++ string_of_Z now;
               iu_walletAddress := Some normalizedWalletAddress;
               iu_isCreator := Some false |} s in
        ((200, UserJson (Some user)), s')
    | Some user =>
        let same :=
          match u_walletAddress user with
          | Some w => String.eqb w normalizedWalletAddress
          | None => false
          end in
        if negb same
        then
          let '(user', s') :=
            updateUser_walletAddress (u_id user) normalizedWalletAddress s in
          ((200, UserJson user'), s')
        else ((200, UserJson (Some user)), s)
    end.

(** [POST /api/courses], from the parsed [courseData] on. *)
Definition post_courses (now : Z) (courseData : InsertCourse) (s : MemStorage)
    : Response * MemStorage :=
  if negb (integer_column (ic_creatorId courseData))
  then ((400, Message validation_message), s)
  else
    let '(course, s') := createCourse now courseData s in
    ((201, CourseJson course), s').

(** [POST /api/nft/mint] *)
Definition nft_mint (now : Z) (body : InsertNftOwnership) (s : MemStorage)
    : Response * MemStorage :=
  if negb (integer_column (io_courseId body) && integer_column (io_ownerId body))
  then ((400, Message validation_message), s)
  else
    match getCourse (io_courseId body) s with
    | None => ((404, Message "Course not found"), s)
    | Some _ =>
        match getNftOwnershipByCourseAndOwner
                (io_courseId body) (io_ownerId body) s with
        | Some _ => ((400, Message "User already owns this course NFT"), s)
        | None =>
            let '(ownership, s') := createNftOwnership now body s in
            ((201, OwnershipJson ownership), s')
        end
    end.

(** [POST /api/access/share]; [expiresAt] is the time value of
    [new Date(expiresAt)], a valid date: the schema refuses an invalid one. *)
Definition access_share (now : Z) (oid : Z) (recipientAddress : string)
    (expiresAt : Z) (s : MemStorage) : Response * MemStorage :=
  if negb (truthy_string recipientAddress)
  then ((400, Message "Recipient wallet address is required"), s)
  else
    let normalizedRecipientAddress := toLowerCase recipientAddress in
    if negb (integer_column oid)
    then ((400, Message validation_message), s)
    else
      let validatedData :=
        {| ita_ownershipId := oid;
           ita_recipientAddress := normalizedRecipientAddress;
           ita_expiresAt := TimeValue expiresAt |} in
      match getNftOwnership (ita_ownershipId validatedData) s with
      | None => ((404, Message "NFT ownership not found"), s)
      | Some _ =>
          match getActiveTemporaryAccess now (ita_ownershipId validatedData)
                  normalizedRecipientAddress s with
          | Some _ =>
              ((400,
                Message
                  "Active temporary access already exists for this recipient"),
               s)
          | None =>
              let '(access, s') := createTemporaryAccess now validatedData s in
              ((201, AccessJson access), s')
          end
      end.

(** [POST /api/access/check]; the store is only read. [!courseId] holds of
    the number 0. *)
Definition access_check (now : Z) (cid : Z) (walletAddress : string)
    (s : MemStorage) : Response :=
  if (cid =? 0) || negb (truthy_string walletAddress)
  then (400, Message "Course ID and wallet address are required")
  else
    let normalizedWalletAddress := toLowerCase walletAddress in
    let directOwnership :=
      match getUserByWalletAddress normalizedWalletAddress s with
      | Some user => getNftOwnershipByCourseAndOwner cid (u_id user) s
      | None => None
      end in
    match directOwnership with
    | Some _ => (200, CheckJson true (Some owner))
    | None =>
        if checkTemporaryAccess now cid normalizedWalletAddress s
        then (200, CheckJson true (Some temporary))
        else (200, CheckJson false None)
    end.

(** [GET /api/access/shared/:walletAddress] *)
Definition access_shared (now : Z) (walletAddress : string) (s : MemStorage)
    : Response :=
  if negb (truthy_string walletAddress)
  then (400, Message "Wallet address is required")
  else
    let normalizedWalletAddress := toLowerCase walletAddress in
    (200, SharedCoursesJson
            (getSharedCoursesForWallet now normalizedWalletAddress s)).

(** [POST /api/access/revoke/:accessId]; [accessId] is the result of
    [parseInt], [None] standing for [NaN]. *)
Definition access_revoke (accessId : option Z) (s : MemStorage)
    : Response * MemStorage :=
  match accessId with
  | None => ((400, Message "Invalid access ID"), s)
  | Some id =>
      let '(deactivated, s') := deactivateTemporaryAccess id s in
      if negb deactivated
      then ((404, Message "Temporary access not found"), s')
      else ((200, Message "Temporary access revoked successfully"), s')
  end.

(** [POST /api/access-requests] *)
Definition access_requests_create (now : Z) (body : InsertAccessRequest)
    (s : MemStorage) : Response * MemStorage :=
  if negb (integer_column (iar_courseId body)
           && integer_column (iar_requestDuration body))
  then ((400, Message validation_message), s)
  else
    let requestData := body in
    let normalizedRequesterAddress :=
      toLowerCase (iar_requesterAddress requestData) in
    let normalizedOwnerAddress := toLowerCase (iar_ownerAddress requestData) in
    let '(accessRequest, s') :=
      createAccessRequest now
        {| iar_courseId := iar_courseId requestData;
           iar_requesterAddress := normalizedRequesterAddress;
           iar_ownerAddress := normalizedOwnerAddress;
           iar_requestMessage := iar_requestMessage requestData;
           iar_requestDuration := iar_requestDuration requestData;
           iar_status := Some "pending" |} s in
    ((201, RequestJson (Some accessRequest)), s').

(** [GET /api/access-requests/course/:courseId] *)
Definition access_requests_by_course (cid : option Z) (s : MemStorage)
    : Response :=
  match cid with
  | None => (400, Message "Invalid course ID")
  | Some cid => (200, RequestsJson (getAccessRequestsByCourse cid s))
  end.

(** [GET /api/access-requests/requester/:walletAddress] *)
Definition access_requests_by_requester (walletAddress : string)
    (s : MemStorage) : Response :=
  if negb (truthy_string walletAddress)
  then (400, Message "Wallet address is required")
  else
    let normalizedWalletAddress := toLowerCase walletAddress in
    match getAccessRequestsByRequester normalizedWalletAddress s with
    | inr requests => (200, JoinedRequestsJson requests)
    | inl message => (400, Message message)
    end.

(** [GET /api/access-requests/owner/:walletAddress] *)
Definition access_requests_by_owner (walletAddress : string)
    (s : MemStorage) : Response :=
  if negb (truthy_string walletAddress)
  then (400, Message "Wallet address is required")
  else
    let normalizedWalletAddress := toLowerCase walletAddress in
    match getAccessRequestsByOwner normalizedWalletAddress s with
    | inr requests => (200, JoinedRequestsJson requests)
    | inl message => (400, Message message)
    end.

(** [['pending', 'approved', 'rejected'].includes(status)] *)
Definition status_value (status : string) : bool :=
  existsb (String.eqb status) ["pending"; "approved"; "rejected"].

(** ** Local time

    The rules of a time zone: [LocalTZA zone t isUTC] is the offset of local
    time from UTC in milliseconds, in force at the UTC time [t] when [isUTC]
    holds and at the local time [t] otherwise. Offsets are below a day in
    magnitude. *)
Record TimeZone := { LocalTZA : Z -> bool -> Z }.

(** A zone without offset. *)
Definition utc : TimeZone := {| LocalTZA := fun _ _ => 0 |}.

(** A zone three hours ahead of UTC until the UTC time [change] and two hours
    ahead from then on: its clocks go back by one hour. *)
Definition clocks_go_back (change : Z) : TimeZone :=
  {| LocalTZA := fun t isUTC =>
       if isUTC
       then if t <? change then 10800000 else 7200000
       else if t <? change + 10800000 then 10800000 else 7200000 |}.

Definition msPerDay : Z := 86400000.

Definition LocalTime (zone : TimeZone) (t : Z) : Z := t + LocalTZA zone t true.

Definition UTC (zone : TimeZone) (t : Z) : Z := t - LocalTZA zone t false.

(** [expiresAt = new Date(); expiresAt.setDate(expiresAt.getDate() + days)].
    [setDate] works on the local time [t] of the date: [MakeDay] of the year
    and month of [t] and of the day of the month plus [days] is the day
    number of [t] plus [days], and [MakeDate] puts the time within the day
    back, which makes [t + days * msPerDay]; the date then holds
    [TimeClip(UTC(...))] of it. The sums are exact wherever [TimeClip]
    accepts the result. *)
Definition add_days (zone : TimeZone) (now days : Z) : Date :=
  let t := LocalTime zone now in
  let newDate := t + days * msPerDay in
  TimeClip (UTC zone newDate).

Section Approval.
Variable zone : TimeZone.

(** The route reaches the store through the interface [IStorage]; its call
    of [createTemporaryAccess] sits in a [try] block, so the method is taken
    here as any implementation that returns, or throws and leaves the store
    as it found it. *)
Variable createTemporaryAccess_impl :
  Z -> InsertTemporaryAccess -> MemStorage ->
  Throws (TemporaryAccess * MemStorage).

(** [PATCH /api/access-requests/:id/status]; [requestId] is the result of
    [parseInt], [None] standing for [NaN]. *)
Definition access_request_status_with (now : Z) (requestId : option Z)
    (status : string) (s : MemStorage) : Response * MemStorage :=
  match requestId with
  | None => ((400, Message "Invalid request ID"), s)
  | Some id =>
      if negb (truthy_string status) || negb (status_value status)
      then ((400, Message "Invalid status value"), s)
      else
        match getAccessRequestById id s with
        | None => ((404, Message "Access request not found"), s)
        | Some request =>
            let '(updatedRequest, s1) :=
              updateAccessRequestStatus now id status s in
            if String.eqb status "approved"
            then
              match getUserByWalletAddress (ar_ownerAddress request) s1 with
              | None => ((404, Message "Owner user not found"), s1)
              | Some user =>
                  match getNftOwnershipByCourseAndOwner
                          (ar_courseId request) (u_id user) s1 with
                  | None =>
                      ((404, Message "Owner does not own this course"), s1)
                  | Some ownership =>
                      let expiresAt :=
                        add_days zone now (ar_requestDuration request) in
                      match createTemporaryAccess_impl now
                              {| ita_ownershipId := o_id ownership;
                                 ita_recipientAddress :=
                                   ar_requesterAddress request;
                                 ita_expiresAt := expiresAt |} s1 with
                      | inr (_, s2) =>
                          ((200,
                            ApprovalJson updatedRequest true
                              (Some expiresAt) None), s2)
                      | inl message =>
                          ((200,
                            ApprovalJson updatedRequest false None
                              (Some message)), s1)
                      end
                  end
              end
            else ((200, RequestJson updatedRequest), s1)
        end
  end.
End Approval.

(** The route on the module's [storage = new MemStorage()], whose
    [createTemporaryAccess] always returns. *)
Definition access_request_status (zone : TimeZone) : Z -> option Z ->
    string -> MemStorage -> Response * MemStorage :=
  access_request_status_with zone
    (fun now insertAccess s => inr (createTemporaryAccess now insertAccess s)).

(** ** The request form, [RequestAccessModal.handleSubmit]

    [duration] is [parseInt(requestDuration)], [None] standing for [NaN]. The
    form answers with the title of the error toast or with the body that it
    posts to [/api/access-requests]. *)
Definition RequestAccessModal_handleSubmit (account : option string)
    (cid : Z) (ownerAddress : string) (requestMessage : string)
    (duration : option Z) : string + InsertAccessRequest :=
  match or_null account with
  | None => inl "Wallet not connected"
  | Some account =>
      match duration with
      | None => inl "Invalid duration"
      | Some duration =>
          if (duration <? 1) || (90 <? duration)
          then inl "Invalid duration"
          else
            inr {| iar_courseId := cid;
                   iar_requesterAddress := account;
                   iar_ownerAddress := ownerAddress;
                   iar_requestMessage := Some requestMessage;
                   iar_requestDuration := duration;
                   iar_status := None |}
      end
  end.

(** ** Histories of the store

    The requests that write to the store, each handled at the time the clock
    shows when it arrives, on a server in the time zone [zone]. *)

Inductive Request :=
| ConnectWallet (walletAddress : string)
| PostCourses (courseData : InsertCourse)
| NftMint (body : InsertNftOwnership)
| AccessShare (oid : Z) (recipientAddress : string) (expiresAt : Z)
| AccessRevoke (accessId : option Z)
| AccessRequestsCreate (body : InsertAccessRequest)
| AccessRequestStatus (requestId : option Z) (status : string).

Definition handle (zone : TimeZone) (now : Z) (r : Request) (s : MemStorage)
    : Response * MemStorage :=
  match r with
  | ConnectWallet walletAddress => connect_wallet now walletAddress s
  | PostCourses courseData => post_courses now courseData s
  | NftMint body => nft_mint now body s
  | AccessShare oid recipientAddress expiresAt =>
      access_share now oid recipientAddress expiresAt s
  | AccessRevoke accessId => access_revoke accessId s
  | AccessRequestsCreate body => access_requests_create now body s
  | AccessRequestStatus requestId status =>
      access_request_status zone now requestId status s
  end.

Fixpoint run (zone : TimeZone) (history : list (Z * Request))
    (s : MemStorage) : MemStorage :=
  match history with
  | [] => s
  | (now, r) :: rest => run zone rest (snd (handle zone now r s))
  end.

(** The clock never goes back along a history. *)
Fixpoint clock_ordered (start : Z) (history : list (Z * Request)) : bool :=
  match history with
  | [] => true
  | (now, _) :: rest => (start <=? now) && clock_ordered now rest
  end.

Definition reachable (s : MemStorage) : Prop :=
  exists zone start history,
    clock_ordered start history = true /\ run zone history newMemStorage = s.

(** ** Liveness of a grant *)

(** Effective liveness in the words of the specification:
    [isActive && expiresAt > now]. *)
Definition isEffectivelyActive (grant : TemporaryAccess) (now : Z) : bool :=
  ta_isActive grant && date_gt (ta_expiresAt grant) now.

(** A grant of ownership [oid] to the normalized address, live at [now]. *)
Definition live_for (now : Z) (oid : Z) (normalizedAddress : string)
    (grant : TemporaryAccess) : bool :=
  (ta_ownershipId grant =? oid)
  && String.eqb (toLowerCase (ta_recipientAddress grant)) normalizedAddress
  && isEffectivelyActive grant now.

(** The live grants of an ownership to a recipient, the rows that the
    invariant of [DelegatedAccess] counts. *)
Definition live_grants (now : Z) (oid : Z) (recipientAddress : string)
    (s : MemStorage) : list TemporaryAccess :=
  filter (live_for now oid (toLowerCase recipientAddress))
         (JsMap.values (temporaryAccesses s)).

Definition at_most_one_live (now : Z) (s : MemStorage) : Prop :=
  forall oid recipientAddress,
    (List.length (live_grants now oid recipientAddress s) <= 1)%nat.

(** ** Example stores and histories, and notions used by the properties *)

(** A store with two grants, the first one already inactive. *)
Definition two_grants : MemStorage :=
  with_temporaryAccesses
    [ (1, {| ta_id := 1; ta_ownershipId := 1; ta_recipientAddress := "0xb";
             ta_expiresAt := TimeValue 500; ta_isActive := false;
             ta_createdAt := 10 |});
      (2, {| ta_id := 2; ta_ownershipId := 1; ta_recipientAddress := "0xc";
             ta_expiresAt := TimeValue 900; ta_isActive := true;
             ta_createdAt := 20 |}) ]
    3 newMemStorage.

(** A store with a registered owner, a course, an ownership and a live grant
    to the address [0xabcdef]. *)
Definition shared_store : MemStorage :=
  run utc [ (10, ConnectWallet "0xA11CE");
            (20, PostCourses {| ic_title := "Rocq"; ic_creatorId := 1;
                                ic_isPublished := Some true |});
            (30, NftMint {| io_courseId := 1; io_ownerId := 1;
                            io_tokenId := "token-1";
                            io_transactionHash := None |});
            (40, AccessShare 1 "0xABCdef" 1000) ]
          newMemStorage.

(** The grant that [access_share] stores. *)
Definition shared_grant (now oid : Z) (recipientAddress : string)
    (expiresAt : Z) (s : MemStorage) : TemporaryAccess :=
  {| ta_id := temporaryAccessId s;
     ta_ownershipId := oid;
     ta_recipientAddress := toLowerCase recipientAddress;
     ta_expiresAt := TimeValue expiresAt;
     ta_isActive := true;
     ta_createdAt := now |}.

(** The body of a request of [0xB0B] to the owner [0xA11CE] for course 1. *)
Definition request_for_days (days : Z) : InsertAccessRequest :=
  {| iar_courseId := 1; iar_requesterAddress := "0xB0B";
     iar_ownerAddress := "0xA11CE"; iar_requestMessage := None;
     iar_requestDuration := days; iar_status := None |}.

(** A store whose request 1 has been approved at time 60. *)
Definition approved_store : MemStorage :=
  run utc [ (10, ConnectWallet "0xA11CE");
            (20, PostCourses {| ic_title := "Rocq"; ic_creatorId := 1;
                                ic_isPublished := Some true |});
            (30, NftMint {| io_courseId := 1; io_ownerId := 1;
                            io_tokenId := "token-1";
                            io_transactionHash := None |});
            (50, AccessRequestsCreate (request_for_days 7));
            (60, AccessRequestStatus (Some 1) "approved") ]
          newMemStorage.

(** The store before that approval, with a request for any number of days,
    and the request as it is stored. *)
Definition requested_store (days : Z) : MemStorage :=
  run utc [ (10, ConnectWallet "0xA11CE");
            (20, PostCourses {| ic_title := "Rocq"; ic_creatorId := 1;
                                ic_isPublished := Some true |});
            (30, NftMint {| io_courseId := 1; io_ownerId := 1;
                            io_tokenId := "token-1";
                            io_transactionHash := None |});
            (50, AccessRequestsCreate (request_for_days days)) ]
          newMemStorage.

Definition stored_request (days : Z) : AccessRequest :=
  {| ar_id := 1; ar_courseId := 1; ar_requesterAddress := "0xb0b";
     ar_ownerAddress := "0xa11ce"; ar_requestMessage := None;
     ar_requestDuration := days; ar_status := "pending";
     ar_createdAt := 50; ar_updatedAt := 50 |}.

(** The answers of the status route that report a total failure: nothing was
    decided. *)
Inductive TotalFailure : Response -> Prop :=
| invalid_request_id : TotalFailure (400, Message "Invalid request ID")
| invalid_status_value : TotalFailure (400, Message "Invalid status value")
| request_not_found : TotalFailure (404, Message "Access request not found").

(** A course owned by user 1, and a pending request that names as owner the
    registered user 2, who owns nothing. *)
Definition misdirected_request_store : MemStorage :=
  run utc [ (10, ConnectWallet "0xA11CE");
            (15, ConnectWallet "0xC0FFEE");
            (20, PostCourses {| ic_title := "Rocq"; ic_creatorId := 1;
                                ic_isPublished := Some true |});
            (30, NftMint {| io_courseId := 1; io_ownerId := 1;
                            io_tokenId := "token-1";
                            io_transactionHash := None |});
            (50, AccessRequestsCreate
                   {| iar_courseId := 1; iar_requesterAddress := "0xB0B";
                      iar_ownerAddress := "0xC0FFEE"; iar_requestMessage := None;
                      iar_requestDuration := 7; iar_status := None |}) ]
          newMemStorage.

(** A history in which the owner first shares ownership 1 with [0xB0B] for
    thirty days and then approves a request of [0xB0B] for seven days. *)
Definition double_grant_history : list (Z * Request) :=
  [ (10, ConnectWallet "0xA11CE");
    (20, PostCourses {| ic_title := "Rocq"; ic_creatorId := 1;
                        ic_isPublished := Some true |});
    (30, NftMint {| io_courseId := 1; io_ownerId := 1;
                    io_tokenId := "token-1"; io_transactionHash := None |});
    (40, AccessShare 1 "0xB0B" (40 + 30 * msPerDay));
    (50, AccessRequestsCreate (request_for_days 7));
    (60, AccessRequestStatus (Some 1) "approved") ].

(** ** Well-formed stores

    What the constructor and the [create...] methods keep of every map: each
    key once, every row under its own [id], every key below the counter that
    gives the next [id]. *)

Section MapOk.
Context {V : Type}.
Variable id_of : V -> Z.

Definition keys_are_ids (m : JsMap.t V) : Prop :=
  forall k v, In (k, v) m -> id_of v = k.

Definition keys_below (next : Z) (m : JsMap.t V) : Prop :=
  forall k v, In (k, v) m -> k < next.

Definition map_ok (next : Z) (m : JsMap.t V) : Prop :=
  JsMap.wf m /\ keys_are_ids m /\ keys_below next m.
End MapOk.

Definition store_ok (s : MemStorage) : Prop :=
  map_ok u_id (userId s) (users s)
  /\ map_ok c_id (courseId s) (courses s)
  /\ map_ok o_id (ownershipId s) (ownerships s)
  /\ map_ok ta_id (temporaryAccessId s) (temporaryAccesses s)
  /\ map_ok ar_id (accessRequestId s) (accessRequests s).

(** The ownerships of a course by an owner, the rows that the invariant of
    [Ownership] counts. *)
Definition ownerships_of (cid oid : Z) (s : MemStorage) : list NftOwnership :=
  filter (fun ownership =>
            (o_courseId ownership =? cid) && (o_ownerId ownership =? oid))
         (JsMap.values (ownerships s)).

Definition one_ownership_per_owner (s : MemStorage) : Prop :=
  forall cid oid, (List.length (ownerships_of cid oid s) <= 1)%nat.

(** Every recipient of a grant and both addresses of every request are
    stored in lower case. *)
Definition lower_case (w : string) : Prop := toLowerCase w = w.

Definition addresses_normalized (s : MemStorage) : Prop :=
  (forall grant, In grant (JsMap.values (temporaryAccesses s)) ->
     lower_case (ta_recipientAddress grant))
  /\ (forall request, In request (JsMap.values (accessRequests s)) ->
        lower_case (ar_requesterAddress request)
        /\ lower_case (ar_ownerAddress request)).

(** Newest first: each request is at least as recent as the next one. *)
Definition newest_first (l : list AccessRequest) : Prop :=
  Sorted (fun a b => ar_createdAt b <= ar_createdAt a) l.

(** The requests of a list that were created at a given date, in the order
    of the list. *)
Definition created_at (date : Z) (l : list AccessRequest)
    : list AccessRequest :=
  filter (fun request => ar_createdAt request =? date) l.

(** ** More of [MemStorage] and of the routes

    An answer of a route whose JSON body is either [{ message }] or a value
    of type [A]. *)
Definition Answer (A : Type) : Type := (Z * (string + A))%type.

(** [ownerships.map(ownership => ...)] with a callback that throws at the
    first ownership whose course is missing. *)
Fixpoint join_ownership_course (s : MemStorage)
    (owned : list NftOwnership) : Throws (list (NftOwnership * Course)) :=
  match owned with
  | [] => inr []
  | ownership :: rest =>
      match JsMap.get (o_courseId ownership) (courses s) with
      | None =>
          inl ("Course not found for ownership "
               ++ string_of_Z (o_id ownership))
      | Some course =>
          match join_ownership_course s rest with
          | inl e => inl e
          | inr joined => inr ((ownership, course) :: joined)
          end
      end
  end.

Definition getOwnershipsByOwner (oid : Z) (s : MemStorage)
    : Throws (list (NftOwnership * Course)) :=
  let owned :=
    filter (fun ownership => o_ownerId ownership =? oid)
           (JsMap.values (ownerships s)) in
  join_ownership_course s owned.

(** [GET /api/nft/owned/:userId]; [uid] is the result of [parseInt], [None]
    standing for [NaN]. *)
Definition nft_owned (uid : option Z) (s : MemStorage)
    : Answer (list (NftOwnership * Course)) :=
  match uid with
  | None => (400, inl "Invalid user ID")
  | Some uid =>
      match getOwnershipsByOwner uid s with
      | inr owned => (200, inr owned)
      | inl message => (400, inl message)
      end
  end.

(** Every ownership names a course of the store. *)
Definition ownerships_have_courses (s : MemStorage) : Prop :=
  forall ownership,
    In ownership (JsMap.values (ownerships s)) ->
    getCourse (o_courseId ownership) s <> None.

Definition getUserByUsername (username : string) (s : MemStorage)
    : option User :=
  find (fun user => String.eqb (u_username user) username)
       (JsMap.values (users s)).

(** [POST /api/users]; the schema asks for strings and a boolean, which the
    type of [userData] already says. *)
Definition post_users (now : Z) (userData : InsertUser) (s : MemStorage)
    : Response * MemStorage :=
  match getUserByUsername (iu_username userData) s with
  | Some _ => ((400, Message "Username already exists"), s)
  | None =>
      let '(user, s') := createUser now userData s in
      ((201, UserJson (Some user)), s')
  end.

(** The users that carry a username. *)
Definition users_named (username : string) (s : MemStorage) : list User :=
  filter (fun user => String.eqb (u_username user) username)
         (JsMap.values (users s)).

(** Two registrations with one wallet address, a course, and the ownership
    of the course minted for the second user. *)
Definition alice : InsertUser :=
  {| iu_username := "alice"; iu_password := "pw-a";
     iu_walletAddress := Some "0xa11ce"; iu_isCreator := Some true |}.

Definition bob : InsertUser :=
  {| iu_username := "bob"; iu_password := "pw-b";
     iu_walletAddress := Some "0xa11ce"; iu_isCreator := Some false |}.

Definition alice_registered : MemStorage :=
  snd (post_users 10 alice newMemStorage).

Definition both_registered : MemStorage :=
  snd (post_users 20 bob alice_registered).

Definition course_posted : MemStorage :=
  snd (post_courses 30 {| ic_title := "Rocq"; ic_creatorId := 1;
                          ic_isPublished := Some true |} both_registered).

Definition shared_wallet_store : MemStorage :=
  snd (nft_mint 40 {| io_courseId := 1; io_ownerId := 2;
                      io_tokenId := "token-1";
                      io_transactionHash := None |} course_posted).

(** *** Publishing a course *)

(** [.sort((a, b) => a.id - b.id)]: a stable sort by ascending [id]. *)
Fixpoint insert_by_id (x : Course) (l : list Course) : list Course :=
  match l with
  | [] => [x]
  | y :: rest =>
      if c_id y <? c_id x then y :: insert_by_id x rest else x :: l
  end.

Definition sort_by_id (l : list Course) : list Course :=
  fold_right insert_by_id [] l.

(** Truthiness of [course.isPublished], a [boolean | null]. *)
Definition is_published (course : Course) : bool :=
  match c_isPublished course with
  | Some true => true
  | _ => false
  end.

Definition getCoursesByCreator (creatorId : Z) (s : MemStorage)
    : list Course :=
  filter (fun course => c_creatorId course =? creatorId)
         (JsMap.values (courses s)).

Definition getPublishedCourses (s : MemStorage) : list Course :=
  sort_by_id (filter is_published (JsMap.values (courses s))).

(** [updateCourse(id, { isPublished })], the partial update of the publish
    route. *)
Definition updateCourse_isPublished (id : Z) (isPublished : bool)
    (s : MemStorage) : option Course * MemStorage :=
  match JsMap.get id (courses s) with
  | None => (None, s)
  | Some existingCourse =>
      let updatedCourse :=
        {| c_id := c_id existingCourse;
           c_title := c_title existingCourse;
           c_creatorId := c_creatorId existingCourse;
           c_isPublished := Some isPublished;
           c_createdAt := c_createdAt existingCourse |} in
      (Some updatedCourse,
       with_courses (JsMap.set id updatedCourse (courses s)) (courseId s) s)
  end.

(** A JSON value as the publish route tells them apart. *)
Inductive JsValue :=
| JsBoolean (b : bool)
| JsString (text : string)
| JsOther.

(** [isPublished === true || isPublished === 'true'] *)
Definition wants_published (isPublished : JsValue) : bool :=
  match isPublished with
  | JsBoolean b => b
  | JsString text => String.eqb text "true"
  | JsOther => false
  end.

(** [POST /api/courses/:id/publish]; [cid] is the result of [parseInt],
    [None] standing for [NaN]. *)
Definition courses_publish (cid : option Z) (isPublished : JsValue)
    (s : MemStorage) : Answer (option Course) * MemStorage :=
  match cid with
  | None => ((400, inl "Invalid course ID"), s)
  | Some id =>
      match getCourse id s with
      | None => ((404, inl "Course not found"), s)
      | Some _ =>
          let '(updatedCourse, s') :=
            updateCourse_isPublished id (wants_published isPublished) s in
          ((200, inr updatedCourse), s')
      end
  end.

(** Courses by ascending identifier, each identifier once. *)
Definition by_ascending_id (l : list Course) : Prop :=
  Sorted (fun a b => c_id a < c_id b) l.

(** ** [client/src/lib/videoUtils.ts]

    A [number] that these functions compute is a [JsNumber]: a safe integer,
    that is a whole number of at most [2^53 - 1] in magnitude, which a double
    holds exactly and on which sums and products are exact as long as they
    stay safe; or [NaN]; or a number outside the safe integers (rounded, or
    infinite), of which the embedding keeps no value: what is computed from
    it can be any number, [NaN] included, except that a [NaN] operand always
    gives [NaN]. The two zeros are one integer. *)
Inductive JsNumber :=
| Integer (z : Z)
| NaN
| Unsafe.

Definition MAX_SAFE_INTEGER : Z := 9007199254740991.

(** The number that holds a whole number. *)
Definition number_of_Z (z : Z) : JsNumber :=
  if Z.abs z <=? MAX_SAFE_INTEGER then Integer z else Unsafe.

(** [a + b] *)
Definition number_add (a b : JsNumber) : JsNumber :=
  match a, b with
  | NaN, _ | _, NaN => NaN
  | Integer x, Integer y => number_of_Z (x + y)
  | _, _ => Unsafe
  end.

(** [a * k] for a whole number [k]. *)
Definition number_times (a : JsNumber) (k : Z) : JsNumber :=
  match a with
  | NaN => NaN
  | Integer x => number_of_Z (x * k)
  | Unsafe => Unsafe
  end.

(** [text.padStart(2, '0')] *)
Definition padStart2 (text : string) : string :=
  match String.length text with
  | O => "00"
  | S O => "0" ++ text
  | _ => text
  end.

(** [formatDuration] on a safe integer of seconds, whose quotients by 3600
    and 60 a double gives exactly and whose rendering in a template literal
    is the decimal numeral of the integer. [Math.floor(x / y)] is [/] of [Z];
    [%] keeps the sign of the dividend, which is [Z.rem]. *)
Definition formatDuration (seconds : Z) : string :=
  let hours := seconds / 3600 in
  let minutes := Z.rem seconds 3600 / 60 in
  let secs := Z.rem seconds 60 in
  if 0 <? hours
  then string_of_Z hours ++ ":" ++ padStart2 (string_of_Z minutes)
       ++ ":" ++ padStart2 (string_of_Z secs)
  else string_of_Z minutes ++ ":" ++ padStart2 (string_of_Z secs).

(** [text.split(':')] *)
Fixpoint split_colon (text : string) : list string :=
  match text with
  | EmptyString => [EmptyString]
  | String c rest =>
      if Ascii.eqb c ":"
      then EmptyString :: split_colon rest
      else
        match split_colon rest with
        | part :: parts => String c part :: parts
        | [] => [String c EmptyString]
        end
  end.

(** White space that [parseInt] skips, on the ASCII range: tab, line feed,
    vertical tab, form feed, carriage return and space. *)
Definition is_white_space (c : ascii) : bool :=
  let n := nat_of_ascii c in
  ((9 <=? n) && (n <=? 13) || (n =? 32))%nat.

Fixpoint skip_white_space (text : string) : string :=
  match text with
  | EmptyString => EmptyString
  | String c rest =>
      if is_white_space c then skip_white_space rest else text
  end.

(** The longest prefix of decimal digits, as a numeral. *)
Fixpoint decimal_digits (text : string) : Decimal.uint :=
  match text with
  | EmptyString => Decimal.Nil
  | String c rest =>
      match c with
      | "0" => Decimal.D0 (decimal_digits rest)
      | "1" => Decimal.D1 (decimal_digits rest)
      | "2" => Decimal.D2 (decimal_digits rest)
      | "3" => Decimal.D3 (decimal_digits rest)
      | "4" => Decimal.D4 (decimal_digits rest)
      | "5" => Decimal.D5 (decimal_digits rest)
      | "6" => Decimal.D6 (decimal_digits rest)
      | "7" => Decimal.D7 (decimal_digits rest)
      | "8" => Decimal.D8 (decimal_digits rest)
      | "9" => Decimal.D9 (decimal_digits rest)
      | _ => Decimal.Nil
      end%char
  end.

(** The longest prefix of hexadecimal digits, as a numeral. *)
Fixpoint hexadecimal_digits (text : string) : Hexadecimal.uint :=
  match text with
  | EmptyString => Hexadecimal.Nil
  | String c rest =>
      match c with
      | "0" => Hexadecimal.D0 (hexadecimal_digits rest)
      | "1" => Hexadecimal.D1 (hexadecimal_digits rest)
      | "2" => Hexadecimal.D2 (hexadecimal_digits rest)
      | "3" => Hexadecimal.D3 (hexadecimal_digits rest)
      | "4" => Hexadecimal.D4 (hexadecimal_digits rest)
      | "5" => Hexadecimal.D5 (hexadecimal_digits rest)
      | "6" => Hexadecimal.D6 (hexadecimal_digits rest)
      | "7" => Hexadecimal.D7 (hexadecimal_digits rest)
      | "8" => Hexadecimal.D8 (hexadecimal_digits rest)
      | "9" => Hexadecimal.D9 (hexadecimal_digits rest)
      | "a" | "A" => Hexadecimal.Da (hexadecimal_digits rest)
      | "b" | "B" => Hexadecimal.Db (hexadecimal_digits rest)
      | "c" | "C" => Hexadecimal.Dc (hexadecimal_digits rest)
      | "d" | "D" => Hexadecimal.Dd (hexadecimal_digits rest)
      | "e" | "E" => Hexadecimal.De (hexadecimal_digits rest)
      | "f" | "F" => Hexadecimal.Df (hexadecimal_digits rest)
      | _ => Hexadecimal.Nil
      end%char
  end.

(** [parseInt(text)] without radix: white space, a sign, the prefix [0x] or
    [0X] for base sixteen, then the longest prefix of digits; no digit gives
    [NaN], and the digits give the number nearest to what they denote. *)
Definition parseInt (text : string) : JsNumber :=
  let trimmed := skip_white_space text in
  let '(negative, unsigned) :=
    match trimmed with
    | String "-" rest => (true, rest)
    | String "+" rest => (false, rest)
    | _ => (false, trimmed)
    end%char in
  let decimal :=
    match decimal_digits unsigned with
    | Decimal.Nil => None
    | digits => Some (Z.of_uint digits)
    end in
  let magnitude :=
    match unsigned with
    | String "0" (String x rest) =>
        if (Ascii.eqb x "x" || Ascii.eqb x "X")%char
        then
          match hexadecimal_digits rest with
          | Hexadecimal.Nil => None
          | digits => Some (Z.of_hex_uint digits)
          end
        else decimal
    | _ => decimal
    end%char in
  match magnitude with
  | Some m => number_of_Z (if negative then - m else m)
  | None => NaN
  end.

Definition durationToSeconds (duration : string) : JsNumber :=
  let parts := List.map parseInt (split_colon duration) in
  match parts with
  | [h; m; sec] =>
      number_add (number_add (number_times h 3600) (number_times m 60)) sec
  | [m; sec] => number_add (number_times m 60) sec
  | _ => Integer 0
  end.

(** [text.lastIndexOf('.')], [-1] when there is no dot. *)
Fixpoint lastIndexOf_dot (text : string) : Z :=
  match text with
  | EmptyString => -1
  | String c rest =>
      let i := lastIndexOf_dot rest in
      if 0 <=? i then i + 1
      else if Ascii.eqb c "." then 0 else -1
  end.

(** [text.substring(start)]: a negative start counts as 0. *)
Fixpoint drop (n : nat) (text : string) : string :=
  match n, text with
  | O, _ => text
  | S n', EmptyString => EmptyString
  | S n', String _ rest => drop n' rest
  end.

Definition substring_from (start : Z) (text : string) : string :=
  drop (Z.to_nat (Z.max 0 start)) text.

Definition supportedFormats : list string := [".mp4"; ".webm"; ".ogg"; ".mov"].

Definition isSupportedVideoFormat (filename : string) : bool :=
  let extension :=
    toLowerCase (substring_from (lastIndexOf_dot filename) filename) in
  existsb (String.eqb extension) supportedFormats.

(** The number of colons of a text. *)
Fixpoint colons (text : string) : nat :=
  match text with
  | EmptyString => O
  | String c rest => if Ascii.eqb c ":" then S (colons rest) else colons rest
  end.

(** A text without dot. *)
Fixpoint no_dot (text : string) : bool :=
  match text with
  | EmptyString => true
  | String c rest => negb (Ascii.eqb c ".") && no_dot rest
  end.

(** A text of decimal digits. *)
Fixpoint digit_string (text : string) : bool :=
  match text with
  | EmptyString => true
  | String c rest =>
      let n := nat_of_ascii c in
      ((48 <=? n) && (n <=? 57))%nat && digit_string rest
  end.

(** ** Sections and lectures of [MemStorage]

    The maps [sections] and [lectures] with their counters, the part of the
    store that the content methods read and write. The [resources] column of
    a lecture, which no method reads, is left out. *)

(** [map.delete(k)]: the map without the key, and whether it held the key. *)
Fixpoint map_delete {V} (k : Z) (m : JsMap.t V) : JsMap.t V :=
  match m with
  | [] => []
  | (k', v) :: rest => if k =? k' then rest else (k', v) :: map_delete k rest
  end.

Definition map_has {V} (k : Z) (m : JsMap.t V) : bool :=
  match JsMap.get k m with
  | Some _ => true
  | None => false
  end.

Record CourseSection := {
  cs_id : Z;
  cs_courseId : Z;
  cs_title : string;
  cs_order : Z
}.

Record InsertSection := {
  ins_courseId : Z;
  ins_title : string;
  ins_order : Z
}.

(** [Partial<InsertSection>]: the keys that the body carries. *)
Record PartialSection := {
  ps_courseId : option Z;
  ps_title : option string;
  ps_order : option Z
}.

Record CourseLecture := {
  cl_id : Z;
  cl_sectionId : Z;
  cl_title : string;
  cl_videoUrl : option string;
  cl_duration : string;
  cl_order : Z
}.

Record InsertLecture := {
  il_sectionId : Z;
  il_title : string;
  il_videoUrl : option string;
  il_duration : string;
  il_order : Z
}.

Record ContentStorage := {
  sections : JsMap.t CourseSection;
  lectures : JsMap.t CourseLecture;
  sectionId : Z;
  lectureId : Z
}.

Definition createSection (insertSection : InsertSection)
    (st : ContentStorage) : CourseSection * ContentStorage :=
  let id := sectionId st in
  let section :=
    {| cs_id := id;
       cs_courseId := ins_courseId insertSection;
       cs_title := ins_title insertSection;
       cs_order := ins_order insertSection |} in
  (section,
   {| sections := JsMap.set id section (sections st);
      lectures := lectures st;
      sectionId := id + 1;
      lectureId := lectureId st |}).

(** [.sort((a, b) => a.order - b.order)]: a stable sort by ascending
    [order]. *)
Fixpoint insert_section (x : CourseSection) (l : list CourseSection)
    : list CourseSection :=
  match l with
  | [] => [x]
  | y :: rest =>
      if cs_order y <? cs_order x then y :: insert_section x rest else x :: l
  end.

Definition getSectionsByCourse (cid : Z) (st : ContentStorage)
    : list CourseSection :=
  fold_right insert_section []
    (filter (fun section => cs_courseId section =? cid)
            (JsMap.values (sections st))).

Definition createLecture (insertLecture : InsertLecture)
    (st : ContentStorage) : CourseLecture * ContentStorage :=
  let id := lectureId st in
  let lecture :=
    {| cl_id := id;
       cl_sectionId := il_sectionId insertLecture;
       cl_title := il_title insertLecture;
       cl_videoUrl := or_null (il_videoUrl insertLecture);
       cl_duration := il_duration insertLecture;
       cl_order := il_order insertLecture |} in
  (lecture,
   {| sections := sections st;
      lectures := JsMap.set id lecture (lectures st);
      sectionId := sectionId st;
      lectureId := id + 1 |}).

Fixpoint insert_lecture (x : CourseLecture) (l : list CourseLecture)
    : list CourseLecture :=
  match l with
  | [] => [x]
  | y :: rest =>
      if cl_order y <? cl_order x then y :: insert_lecture x rest else x :: l
  end.

Definition getLecturesBySection (sid : Z) (st : ContentStorage)
    : list CourseLecture :=
  fold_right insert_lecture []
    (filter (fun lecture => cl_sectionId lecture =? sid)
            (JsMap.values (lectures st))).

(** [{ ...existingSection, ...section }] *)
Definition updateSection (id : Z) (section : PartialSection)
    (st : ContentStorage) : option CourseSection * ContentStorage :=
  match JsMap.get id (sections st) with
  | None => (None, st)
  | Some existingSection =>
      let updatedSection :=
        {| cs_id := cs_id existingSection;
           cs_courseId :=
             match ps_courseId section with
             | Some c => c
             | None => cs_courseId existingSection
             end;
           cs_title :=
             match ps_title section with
             | Some t => t
             | None => cs_title existingSection
             end;
           cs_order :=
             match ps_order section with
             | Some o => o
             | None => cs_order existingSection
             end |} in
      (Some updatedSection,
       {| sections := JsMap.set id updatedSection (sections st);
          lectures := lectures st;
          sectionId := sectionId st;
          lectureId := lectureId st |})
  end.

(** The lectures of the section are deleted one by one, each under its own
    [id], and then the section. *)
Definition deleteSection (id : Z) (st : ContentStorage)
    : bool * ContentStorage :=
  if negb (map_has id (sections st)) then (false, st)
  else
    let doomed :=
      filter (fun lecture => cl_sectionId lecture =? id)
             (JsMap.values (lectures st)) in
    let lectures' :=
      fold_left (fun m lecture => map_delete (cl_id lecture) m)
                doomed (lectures st) in
    (map_has id (sections st),
     {| sections := map_delete id (sections st);
        lectures := lectures';
        sectionId := sectionId st;
        lectureId := lectureId st |}).

Definition deleteLecture (id : Z) (st : ContentStorage)
    : bool * ContentStorage :=
  (map_has id (lectures st),
   {| sections := sections st;
      lectures := map_delete id (lectures st);
      sectionId := sectionId st;
      lectureId := lectureId st |}).

(** A key of the body that is absent passes the schema; a present integer
    is checked. *)
Definition optional_integer_column (z : option Z) : bool :=
  match z with
  | Some z => integer_column z
  | None => true
  end.

(** [PATCH /api/sections/:id]; [sid] is the result of [parseInt], [None]
    standing for [NaN]. [getSectionsByCourse(undefined)] finds no section. *)
Definition sections_patch (sid : option Z) (body : PartialSection)
    (st : ContentStorage) : Answer (option CourseSection) * ContentStorage :=
  match sid with
  | None => ((400, inl "Invalid section ID"), st)
  | Some id =>
      if negb (optional_integer_column (ps_courseId body)
               && optional_integer_column (ps_order body))
      then ((400, inl validation_message), st)
      else
        let sections :=
          match ps_courseId body with
          | Some cid => getSectionsByCourse cid st
          | None => []
          end in
        match find (fun s => cs_id s =? id) sections with
        | None => ((404, inl "Section not found"), st)
        | Some _ =>
            let '(updatedSection, st') := updateSection id body st in
            ((200, inr updatedSection), st')
        end
  end.

(** [DELETE /api/sections/:id] *)
Definition sections_delete (sid : option Z) (st : ContentStorage)
    : Answer unit * ContentStorage :=
  match sid with
  | None => ((400, inl "Invalid section ID"), st)
  | Some id =>
      let '(result, st') := deleteSection id st in
      if negb result
      then ((404, inl "Section not found"), st')
      else ((200, inl "Section deleted successfully"), st')
  end.

(** A content store with two sections of course 1, the first with two
    lectures and the second with one. *)
Definition example_content : ContentStorage :=
  let st0 :=
    {| sections := JsMap.empty; lectures := JsMap.empty;
       sectionId := 1; lectureId := 1 |} in
  let st1 :=
    snd (createSection {| ins_courseId := 1; ins_title := "Basics";
                          ins_order := 1 |} st0) in
  let st2 :=
    snd (createSection {| ins_courseId := 1; ins_title := "Proofs";
                          ins_order := 2 |} st1) in
  let st3 :=
    snd (createLecture {| il_sectionId := 1; il_title := "Terms";
                          il_videoUrl := None; il_duration := "10:30";
                          il_order := 1 |} st2) in
  let st4 :=
    snd (createLecture {| il_sectionId := 2; il_title := "Tactics";
                          il_videoUrl := None; il_duration := "20:00";
                          il_order := 1 |} st3) in
  snd (createLecture {| il_sectionId := 1; il_title := "Types";
                        il_videoUrl := None; il_duration := "12:00";
                        il_order := 2 |} st4).

(** ** Ratings of [MemStorage]

    The map [ratings] with its counter. The rating routes read the users and
    the courses of the store and write the ratings only. *)

Record CourseRating := {
  cr_id : Z;
  cr_courseId : Z;
  cr_userId : Z;
  cr_rating : Z;
  cr_review : option string;
  cr_createdAt : Z;
  cr_updatedAt : Z
}.

Record InsertCourseRating := {
  icr_courseId : Z;
  icr_userId : Z;
  icr_rating : Z;
  icr_review : option string
}.

Record RatingStorage := {
  ratings : JsMap.t CourseRating;
  ratingId : Z
}.

Definition createCourseRating (now : Z) (insertRating : InsertCourseRating)
    (rs : RatingStorage) : CourseRating * RatingStorage :=
  let id := ratingId rs in
  let rating :=
    {| cr_id := id;
       cr_courseId := icr_courseId insertRating;
       cr_userId := icr_userId insertRating;
       cr_rating := icr_rating insertRating;
       cr_review := or_null (icr_review insertRating);
       cr_createdAt := now;
       cr_updatedAt := now |} in
  (rating,
   {| ratings := JsMap.set id rating (ratings rs); ratingId := id + 1 |}).

Definition getCourseRatingByUserAndCourse (uid cid : Z) (rs : RatingStorage)
    : option CourseRating :=
  find (fun rating => (cr_userId rating =? uid) && (cr_courseId rating =? cid))
       (JsMap.values (ratings rs)).

(** [updateCourseRating(id, { rating, review })]: the spread copies both
    keys, so a body without review erases the stored one. *)
Definition updateCourseRating (now : Z) (id : Z) (rating : Z)
    (review : option string) (rs : RatingStorage)
    : option CourseRating * RatingStorage :=
  match JsMap.get id (ratings rs) with
  | None => (None, rs)
  | Some existingRating =>
      let updatedRating :=
        {| cr_id := cr_id existingRating;
           cr_courseId := cr_courseId existingRating;
           cr_userId := cr_userId existingRating;
           cr_rating := rating;
           cr_review := review;
           cr_createdAt := cr_createdAt existingRating;
           cr_updatedAt := now |} in
      (Some updatedRating,
       {| ratings := JsMap.set id updatedRating (ratings rs);
          ratingId := ratingId rs |})
  end.

Definition deleteCourseRating (id : Z) (rs : RatingStorage)
    : bool * RatingStorage :=
  (map_has id (ratings rs),
   {| ratings := map_delete id (ratings rs); ratingId := ratingId rs |}).

(** [POST /api/courses/:id/ratings]; [cid] is the result of [parseInt],
    [None] standing for [NaN]; [userId] and [rating] are numbers of the
    body, of which 0 is falsy. *)
Definition courses_ratings_post (now : Z) (cid : option Z) (uid rating : Z)
    (review : option string) (s : MemStorage) (rs : RatingStorage)
    : Answer (option CourseRating) * RatingStorage :=
  match cid with
  | None => ((400, inl "Invalid course ID"), rs)
  | Some cid =>
      match getCourse cid s with
      | None => ((404, inl "Course not found"), rs)
      | Some _ =>
          if (uid =? 0) || (rating =? 0)
          then ((400, inl "User ID and rating are required"), rs)
          else
            match getUser uid s with
            | None => ((404, inl "User not found"), rs)
            | Some _ =>
                match getCourseRatingByUserAndCourse uid cid rs with
                | Some existingRating =>
                    let '(updatedRating, rs') :=
                      updateCourseRating now (cr_id existingRating) rating
                        review rs in
                    ((200, inr updatedRating), rs')
                | None =>
                    if negb (integer_column cid && integer_column uid
                             && integer_column rating)
                    then ((400, inl validation_message), rs)
                    else
                      let '(newRating, rs') :=
                        createCourseRating now
                          {| icr_courseId := cid; icr_userId := uid;
                             icr_rating := rating; icr_review := review |}
                          rs in
                      ((201, inr (Some newRating)), rs')
                end
            end
      end
  end.

(** [DELETE /api/ratings/:id] *)
Definition ratings_delete (rid : option Z) (rs : RatingStorage)
    : Answer unit * RatingStorage :=
  match rid with
  | None => ((400, inl "Invalid rating ID"), rs)
  | Some id =>
      let '(result, rs') := deleteCourseRating id rs in
      if negb result
      then ((404, inl "Rating not found"), rs')
      else ((200, inl "Rating deleted successfully"), rs')
  end.

(** The ratings of a course by a user. *)
Definition ratings_of (uid cid : Z) (rs : RatingStorage)
    : list CourseRating :=
  filter (fun rating => (cr_userId rating =? uid) && (cr_courseId rating =? cid))
         (JsMap.values (ratings rs)).

Definition one_rating_per_user (rs : RatingStorage) : Prop :=
  forall uid cid, (List.length (ratings_of uid cid rs) <= 1)%nat.

(** A rating store in which user 1 has rated course 1 with four stars. *)
Definition example_ratings : RatingStorage :=
  snd (createCourseRating 70
         {| icr_courseId := 1; icr_userId := 1; icr_rating := 4;
            icr_review := Some "clear" |}
         {| ratings := JsMap.empty; ratingId := 1 |}).

(** ** [CourseContentAccordion.getTotalSectionDuration]

    [lectures.reduce((total, lecture) => ..., 0)]: the parts of each duration
    are read as in [durationToSeconds]; a duration with neither two nor three
    parts leaves the total as it is. *)
Definition getTotalSectionDuration (lectures : list CourseLecture)
    : JsNumber :=
  fold_left
    (fun total lecture =>
       let parts := List.map parseInt (split_colon (cl_duration lecture)) in
       match parts with
       | [h; m; sec] =>
           number_add total
             (number_add
                (number_add (number_times h 3600) (number_times m 60)) sec)
       | [m; sec] => number_add total (number_add (number_times m 60) sec)
       | _ => total
       end)
    lectures (Integer 0).

(** * Properties *)

(** ** Maps *)

Module JsMapFacts.
Section Facts.
Context {V : Type}.
Implicit Types (m : JsMap.t V) (k : Z) (v : V).

Lemma get_set_same k v m : JsMap.get k (JsMap.set k v m) = Some v.
Proof.
  induction m as [|[k' v'] rest IH]; simpl.
  - now rewrite Z.eqb_refl.
  - destruct (k =? k') eqn:E; simpl.
    + now rewrite Z.eqb_refl.
    + now rewrite E.
Qed.

Lemma get_set_other k k' v m :
  k' <> k -> JsMap.get k' (JsMap.set k v m) = JsMap.get k' m.
Proof.
  intros Hne. induction m as [|[k0 v0] rest IH]; simpl.
  - destruct (k' =? k) eqn:E; [apply Z.eqb_eq in E; contradiction | easy].
  - destruct (k =? k0) eqn:E; simpl.
    + apply Z.eqb_eq in E; subst k0.
      destruct (k' =? k) eqn:E'; [apply Z.eqb_eq in E'; contradiction | easy].
    + now rewrite IH.
Qed.

Lemma set_set k v v' m :
  JsMap.set k v' (JsMap.set k v m) = JsMap.set k v' m.
Proof.
  induction m as [|[k0 v0] rest IH]; simpl.
  - now rewrite Z.eqb_refl.
  - destruct (k =? k0) eqn:E; simpl.
    + now rewrite Z.eqb_refl.
    + now rewrite E, IH.
Qed.

Lemma keys_set_present k v v0 m :
  JsMap.get k m = Some v0 -> JsMap.keys (JsMap.set k v m) = JsMap.keys m.
Proof.
  unfold JsMap.keys.
  induction m as [|[k1 v1] rest IH]; simpl; [discriminate|].
  destruct (k =? k1) eqn:E; simpl.
  - apply Z.eqb_eq in E. now subst.
  - intros H. now rewrite IH.
Qed.

Lemma In_values_set x k v m :
  In x (JsMap.values (JsMap.set k v m)) ->
  x = v \/ In x (JsMap.values m).
Proof.
  induction m as [|[k1 v1] rest IH]; simpl.
  - intros [H|[]]. now left.
  - destruct (k =? k1); simpl.
    + intros [H|H]; [now left | now right; right].
    + intros [H|H]; [now right; left |].
      destruct (IH H); [now left | now right; right].
Qed.

Lemma In_set_other k k' v x m :
  k' <> k -> (In (k', x) (JsMap.set k v m) <-> In (k', x) m).
Proof.
  intros Hne. induction m as [|[k1 v1] rest IH]; simpl.
  - split; [intros [H|[]]; congruence | tauto].
  - destruct (k =? k1) eqn:E; simpl.
    + apply Z.eqb_eq in E; subst k1.
      split; (intros [H|H]; [congruence | now right]).
    + rewrite IH. tauto.
Qed.

Lemma In_get k v m : JsMap.wf m -> In (k, v) m -> JsMap.get k m = Some v.
Proof.
  unfold JsMap.wf, JsMap.keys.
  induction m as [|[k1 v1] rest IH]; simpl; [tauto|].
  intros Hnd [H|H].
  - inversion H; subst. now rewrite Z.eqb_refl.
  - inversion Hnd as [|? ? Hnotin Hrest]; subst.
    destruct (k =? k1) eqn:E.
    + apply Z.eqb_eq in E; subst k1. exfalso. apply Hnotin.
      change k with (fst (k, v)). now apply in_map.
    + now apply IH.
Qed.

Lemma get_In k v m : JsMap.get k m = Some v -> In (k, v) m.
Proof.
  induction m as [|[k1 v1] rest IH]; simpl; [discriminate|].
  destruct (k =? k1) eqn:E.
  - apply Z.eqb_eq in E. intros H. inversion H; subst. now left.
  - intros H. right. now apply IH.
Qed.

Lemma In_values x m : In x (JsMap.values m) <-> exists k, In (k, x) m.
Proof.
  unfold JsMap.values. rewrite in_map_iff. split.
  - intros [[k v] [Heq Hin]]. simpl in Heq. subst. now exists k.
  - intros [k Hin]. now exists (k, x).
Qed.

(** After [set], a search that fails on every old value and succeeds on the
    new one finds the new one. *)
Lemma find_set_new (p : V -> bool) k v m :
  (forall x, In x (JsMap.values m) -> p x = false) ->
  p v = true ->
  find p (JsMap.values (JsMap.set k v m)) = Some v.
Proof.
  induction m as [|[k1 v1] rest IH]; simpl; intros Hall Hv.
  - now rewrite Hv.
  - destruct (k =? k1); simpl.
    + now rewrite Hv.
    + rewrite (Hall v1) by now left.
      apply IH; [|assumption]. intros x Hx. apply Hall. now right.
Qed.

Lemma find_none_values (p : V -> bool) (l : list V) :
  find p l = None <-> (forall x, In x l -> p x = false).
Proof.
  split; [apply find_none|].
  induction l as [|a l IH]; simpl; [easy|].
  intros H. rewrite (H a) by now left. apply IH. intros x Hx. apply H.
  now right.
Qed.
End Facts.
End JsMapFacts.

(** ** Strings *)

Lemma lower_ascii_idempotent c : lower_ascii (lower_ascii c) = lower_ascii c.
Proof.
  destruct c as [[] [] [] [] [] [] [] []]; reflexivity.
Qed.

Lemma toLowerCase_idempotent w : toLowerCase (toLowerCase w) = toLowerCase w.
Proof.
  induction w as [|c rest IH]; simpl; [reflexivity|].
  now rewrite lower_ascii_idempotent, IH.
Qed.

(** Two spellings of one address are both empty or both not. *)
Lemma toLowerCase_truthy a b :
  toLowerCase a = toLowerCase b -> truthy_string a = truthy_string b.
Proof.
  destruct a, b; simpl; congruence.
Qed.

Lemma truthy_string_true w : w <> "" -> truthy_string w = true.
Proof.
  destruct w; [congruence | reflexivity].
Qed.

(** ** Liveness *)

Lemma date_gt_true d now :
  date_gt d now = true <-> exists t, d = TimeValue t /\ now < t.
Proof.
  destruct d as [t|]; simpl.
  - rewrite Z.ltb_lt. split.
    + intros H. now exists t.
    + intros (t' & E & H). now inversion E.
  - split; [discriminate | intros (t & E & _); discriminate].
Qed.

(** A date that lies after a clock value lies after every earlier one. *)
Lemma date_gt_earlier d now now' :
  now <= now' -> date_gt d now' = true -> date_gt d now = true.
Proof.
  destruct d as [t|]; simpl; [|easy].
  rewrite !Z.ltb_lt. lia.
Qed.

(** The test that [getActiveTemporaryAccess] and [checkTemporaryAccess] spell
    out is [live_for]. *)
Lemma inline_test_live_for now oid normalized a :
  (ta_ownershipId a =? oid)
  && String.eqb (toLowerCase (ta_recipientAddress a)) normalized
  && ta_isActive a && date_gt (ta_expiresAt a) now
  = live_for now oid normalized a.
Proof.
  unfold live_for, isEffectivelyActive.
  now rewrite <- !andb_assoc.
Qed.

Lemma find_pointwise {A} (f g : A -> bool) l :
  (forall x, f x = g x) -> find f l = find g l.
Proof.
  intros E. induction l as [|a l IH]; simpl; [reflexivity|].
  now rewrite E, IH.
Qed.

Lemma existsb_pointwise {A} (f g : A -> bool) l :
  (forall x, f x = g x) -> existsb f l = existsb g l.
Proof.
  intros E. induction l as [|a l IH]; simpl; [reflexivity|].
  now rewrite E, IH.
Qed.

Lemma getActiveTemporaryAccess_live_for now oid r s :
  getActiveTemporaryAccess now oid r s
  = find (live_for now oid (toLowerCase r))
         (JsMap.values (temporaryAccesses s)).
Proof.
  unfold getActiveTemporaryAccess. apply find_pointwise.
  intros a. apply inline_test_live_for.
Qed.

Lemma checkTemporaryAccess_live_for now cid w s :
  checkTemporaryAccess now cid w s
  = existsb
      (fun ownership =>
         existsb (live_for now (o_id ownership) (toLowerCase w))
                 (JsMap.values (temporaryAccesses s)))
      (filter (fun ownership => o_courseId ownership =? cid)
              (JsMap.values (ownerships s))).
Proof.
  unfold checkTemporaryAccess. apply existsb_pointwise.
  intros o. apply existsb_pointwise.
  intros a. apply inline_test_live_for.
Qed.

(** C7. Effective liveness of a grant at a clock value is exactly
    [isActive && expiresAt > now]: a grant is live iff it is active and
    expires strictly after [now], so at [expiresAt == now] it is expired (and
    a grant whose expiry is an Invalid Date is never live); and
    the active-grant lookup ([getActiveTemporaryAccess]), the access check
    ([checkTemporaryAccess]) and the listing of shared courses
    ([getSharedCoursesForWallet]) all test exactly this on each grant. *)
Theorem effective_liveness_is_active_and_unexpired :
  (forall grant now,
     isEffectivelyActive grant now = true
     <-> ta_isActive grant = true
         /\ exists expiresAt,
              ta_expiresAt grant = TimeValue expiresAt /\ now < expiresAt)
  /\ (forall grant expiresAt,
        ta_expiresAt grant = TimeValue expiresAt ->
        isEffectivelyActive grant expiresAt = false)
  /\ (forall grant now,
        ta_expiresAt grant = InvalidDate ->
        isEffectivelyActive grant now = false)
  /\ (forall now oid r s,
        getActiveTemporaryAccess now oid r s
        = find (fun grant =>
                  (ta_ownershipId grant =? oid)
                  && String.eqb (toLowerCase (ta_recipientAddress grant))
                                (toLowerCase r)
                  && isEffectivelyActive grant now)
               (JsMap.values (temporaryAccesses s)))
  /\ (forall now cid w s,
        checkTemporaryAccess now cid w s
        = existsb
            (fun ownership =>
               existsb
                 (fun grant =>
                    (ta_ownershipId grant =? o_id ownership)
                    && String.eqb (toLowerCase (ta_recipientAddress grant))
                                  (toLowerCase w)
                    && isEffectivelyActive grant now)
                 (JsMap.values (temporaryAccesses s)))
            (filter (fun ownership => o_courseId ownership =? cid)
                    (JsMap.values (ownerships s))))
  /\ (forall now w s,
        getSharedCoursesForWallet now w s
        = flat_map (shared_course_of s)
            (filter
               (fun grant =>
                  String.eqb (toLowerCase (ta_recipientAddress grant))
                             (toLowerCase w)
                  && isEffectivelyActive grant now)
               (JsMap.values (temporaryAccesses s)))).
Proof.
  split; [|split; [|split; [|split; [|split]]]].
  - intros grant now. unfold isEffectivelyActive.
    now rewrite andb_true_iff, date_gt_true.
  - intros grant expiresAt E. unfold isEffectivelyActive. rewrite E. simpl.
    rewrite Z.ltb_irrefl. apply andb_false_r.
  - intros grant now E. unfold isEffectivelyActive. rewrite E.
    apply andb_false_r.
  - intros. apply getActiveTemporaryAccess_live_for.
  - intros. apply checkTemporaryAccess_live_for.
  - intros now w s. unfold getSharedCoursesForWallet. f_equal.
    apply filter_ext. intros a. unfold isEffectivelyActive.
    now rewrite <- andb_assoc.
Qed.

(** ** Revocation *)

(** C10. Revoking an existing grant answers success ([true], HTTP 200), also
    when the grant is already inactive, and changes nothing but its
    [isActive] field, which becomes [false]: its identifier, ownership,
    recipient, expiry and creation date, every other grant, the order of the
    grants and every other part of the store are as before. Revoking an
    identifier that holds no grant answers not found ([false], HTTP 404) and
    leaves the store as it is. *)
Theorem revoke_touches_only_isActive :
  forall id s,
    match JsMap.get id (temporaryAccesses s) with
    | Some grant =>
        exists grant' s',
          deactivateTemporaryAccess id s = (true, s')
          /\ access_revoke (Some id) s
             = ((200, Message "Temporary access revoked successfully"), s')
          /\ JsMap.get id (temporaryAccesses s') = Some grant'
          /\ ta_isActive grant' = false
          /\ ta_id grant' = ta_id grant
          /\ ta_ownershipId grant' = ta_ownershipId grant
          /\ ta_recipientAddress grant' = ta_recipientAddress grant
          /\ ta_expiresAt grant' = ta_expiresAt grant
          /\ ta_createdAt grant' = ta_createdAt grant
          /\ (forall id', id' <> id ->
                JsMap.get id' (temporaryAccesses s')
                = JsMap.get id' (temporaryAccesses s))
          /\ JsMap.keys (temporaryAccesses s') = JsMap.keys (temporaryAccesses s)
          /\ users s' = users s /\ courses s' = courses s
          /\ ownerships s' = ownerships s
          /\ accessRequests s' = accessRequests s
          /\ userId s' = userId s /\ courseId s' = courseId s
          /\ ownershipId s' = ownershipId s
          /\ temporaryAccessId s' = temporaryAccessId s
          /\ accessRequestId s' = accessRequestId s
    | None =>
        deactivateTemporaryAccess id s = (false, s)
        /\ access_revoke (Some id) s
           = ((404, Message "Temporary access not found"), s)
    end.
Proof.
  intros id s. unfold access_revoke, deactivateTemporaryAccess.
  destruct (JsMap.get id (temporaryAccesses s)) as [grant|] eqn:Hget.
  - eexists. eexists. split; [reflexivity|]. split; [reflexivity|]. simpl.
    split; [apply JsMapFacts.get_set_same|].
    repeat (split; [reflexivity|]).
    split; [intros id' Hne; now apply JsMapFacts.get_set_other|].
    split; [now apply JsMapFacts.keys_set_present with (v0 := grant)|].
    repeat split.
  - split; reflexivity.
Qed.

(** Revoking the inactive grant 1 of [two_grants], and the unknown grant 7. *)
Lemma revoke_touches_only_isActive_witness :
  fst (deactivateTemporaryAccess 1 two_grants) = true
  /\ JsMap.get 2 (temporaryAccesses (snd (deactivateTemporaryAccess 1 two_grants)))
     = JsMap.get 2 (temporaryAccesses two_grants)
  /\ deactivateTemporaryAccess 7 two_grants = (false, two_grants).
Proof.
  pose proof (revoke_touches_only_isActive 1 two_grants) as H1.
  pose proof (revoke_touches_only_isActive 7 two_grants) as H7.
  simpl in H1, H7.
  destruct H1 as (g & s' & Hd & _ & _ & _ & _ & _ & _ & _ & _ & Hother & _).
  destruct H7 as [Hnone _].
  rewrite Hd. simpl.
  split; [reflexivity|]. split; [|exact Hnone].
  apply Hother. discriminate.
Defined.

(** ** Spellings of a wallet address *)

Lemma wallet_matches_case a b u :
  toLowerCase a = toLowerCase b -> wallet_matches a u = wallet_matches b u.
Proof.
  intros E. unfold wallet_matches. now rewrite E.
Qed.

(** C9. Two wallet-address strings that differ only in the case of their
    letters (their lower-case forms are equal) are one address for the core:
    the user lookup, wallet connection, the access check, grant creation with
    its duplicate-active-grant check, the active-grant lookup, the listing of
    shared courses, the request listings by requester and by owner, and the
    submission of a request (as requester or as owner address) give the same
    answer and the same store for both strings. *)
Theorem case_variants_are_one_address :
  forall a b,
    toLowerCase a = toLowerCase b ->
    (forall s, getUserByWalletAddress a s = getUserByWalletAddress b s)
    /\ (forall now s, connect_wallet now a s = connect_wallet now b s)
    /\ (forall now cid s, access_check now cid a s = access_check now cid b s)
    /\ (forall now oid expiresAt s,
          access_share now oid a expiresAt s
          = access_share now oid b expiresAt s)
    /\ (forall now oid s,
          getActiveTemporaryAccess now oid a s
          = getActiveTemporaryAccess now oid b s)
    /\ (forall now cid s,
          checkTemporaryAccess now cid a s = checkTemporaryAccess now cid b s)
    /\ (forall now s, access_shared now a s = access_shared now b s)
    /\ (forall s,
          access_requests_by_requester a s = access_requests_by_requester b s)
    /\ (forall s, access_requests_by_owner a s = access_requests_by_owner b s)
    /\ (forall now cid other message days status s,
          access_requests_create now
            {| iar_courseId := cid; iar_requesterAddress := a;
               iar_ownerAddress := other; iar_requestMessage := message;
               iar_requestDuration := days; iar_status := status |} s
          = access_requests_create now
              {| iar_courseId := cid; iar_requesterAddress := b;
                 iar_ownerAddress := other; iar_requestMessage := message;
                 iar_requestDuration := days; iar_status := status |} s)
    /\ (forall now cid other message days status s,
          access_requests_create now
            {| iar_courseId := cid; iar_requesterAddress := other;
               iar_ownerAddress := a; iar_requestMessage := message;
               iar_requestDuration := days; iar_status := status |} s
          = access_requests_create now
              {| iar_courseId := cid; iar_requesterAddress := other;
                 iar_ownerAddress := b; iar_requestMessage := message;
                 iar_requestDuration := days; iar_status := status |} s).
Proof.
  intros a b E. pose proof (toLowerCase_truthy a b E) as T.
  repeat split; intros.
  - unfold getUserByWalletAddress. apply find_pointwise.
    intros u. now apply wallet_matches_case.
  - unfold connect_wallet. now rewrite T, E.
  - unfold access_check. now rewrite T, E.
  - unfold access_share. now rewrite T, E.
  - unfold getActiveTemporaryAccess. now rewrite E.
  - unfold checkTemporaryAccess. now rewrite E.
  - unfold access_shared. now rewrite T, E.
  - unfold access_requests_by_requester. now rewrite T, E.
  - unfold access_requests_by_owner. now rewrite T, E.
  - unfold access_requests_create. simpl. now rewrite E.
  - unfold access_requests_create. simpl. now rewrite E.
Qed.

(** Two spellings of the recipient of [shared_store] get the same check. *)
Lemma case_variants_are_one_address_witness :
  toLowerCase "0xABCDEF" = toLowerCase "0xabcdef"
  /\ access_check 50 1 "0xABCDEF" shared_store
     = access_check 50 1 "0xabcdef" shared_store
  /\ access_check 50 1 "0xabcdef" shared_store
     = (200, CheckJson true (Some temporary)).
Proof.
  split; [reflexivity|]. split; [|reflexivity].
  apply (case_variants_are_one_address "0xABCDEF" "0xabcdef"). reflexivity.
Defined.

(** ** The access check *)

Lemma find_finds {A} (p : A -> bool) l x :
  In x l -> p x = true -> exists y, find p l = Some y.
Proof.
  induction l as [|a l IH]; simpl; [tauto|].
  intros [H|H] Hp.
  - subst. rewrite Hp. now exists x.
  - destruct (p a); [now exists a | now apply IH].
Qed.

Lemma wallet_matches_normalized w u :
  wallet_matches (toLowerCase w) u = true
  <-> option_map toLowerCase (u_walletAddress u) = Some (toLowerCase w).
Proof.
  unfold wallet_matches. rewrite toLowerCase_idempotent.
  destruct (u_walletAddress u) as [x|]; simpl.
  - rewrite String.eqb_eq. split; congruence.
  - split; discriminate.
Qed.

Lemma owns_test o cid uid :
  (o_courseId o =? cid) && (o_ownerId o =? uid) = true
  <-> o_courseId o = cid /\ o_ownerId o = uid.
Proof.
  now rewrite andb_true_iff, !Z.eqb_eq.
Qed.

(** The check answers [owner] as soon as the user that the wallet resolves to
    holds an ownership of the course; the grants are not read. *)
Lemma access_check_owner now cid w s u o :
  cid <> 0 -> w <> "" ->
  getUserByWalletAddress (toLowerCase w) s = Some u ->
  getNftOwnershipByCourseAndOwner cid (u_id u) s = Some o ->
  access_check now cid w s = (200, CheckJson true (Some owner)).
Proof.
  intros Hc Hw Hu Ho. unfold access_check.
  apply Z.eqb_neq in Hc. rewrite Hc, (truthy_string_true w Hw). simpl.
  now rewrite Hu, Ho.
Qed.

(** Where the wallet resolves to the user who holds the course, and so where
    wallet addresses are unique among users up to case, the check answers
    [owner] whatever grants the store holds: the answer is the same with any
    map of delegated accesses in place of the store's. *)
Lemma owner_access_with_unique_wallets :
  forall now cid w s grants nextGrantId,
    cid <> 0 -> w <> "" ->
    (forall u o,
       getUserByWalletAddress (toLowerCase w) s = Some u ->
       In o (JsMap.values (ownerships s)) ->
       o_courseId o = cid -> o_ownerId o = u_id u ->
       access_check now cid w (with_temporaryAccesses grants nextGrantId s)
       = (200, CheckJson true (Some owner)))
    /\ (forall u o,
          In u (JsMap.values (users s)) ->
          option_map toLowerCase (u_walletAddress u) = Some (toLowerCase w) ->
          (forall u', In u' (JsMap.values (users s)) ->
             option_map toLowerCase (u_walletAddress u')
             = Some (toLowerCase w) ->
             u_id u' = u_id u) ->
          In o (JsMap.values (ownerships s)) ->
          o_courseId o = cid -> o_ownerId o = u_id u ->
          access_check now cid w (with_temporaryAccesses grants nextGrantId s)
          = (200, CheckJson true (Some owner))).
Proof.
  intros now cid w s grants nextGrantId Hc Hw.
  assert (Hresolved : forall u o,
            getUserByWalletAddress (toLowerCase w) s = Some u ->
            In o (JsMap.values (ownerships s)) ->
            o_courseId o = cid -> o_ownerId o = u_id u ->
            access_check now cid w
              (with_temporaryAccesses grants nextGrantId s)
            = (200, CheckJson true (Some owner))).
  { intros u o Hfind Ho Hoc Hoo.
    destruct (find_finds
                (fun ownership =>
                   (o_courseId ownership =? cid)
                   && (o_ownerId ownership =? u_id u))
                _ o Ho) as [o' Hfo].
    { apply owns_test. now split. }
    now apply access_check_owner with (u := u) (o := o'). }
  split; [exact Hresolved|].
  intros u o Hu Hwal Huniq Ho Hoc Hoo.
  destruct (find_finds (wallet_matches (toLowerCase w)) _ u Hu) as [u' Hfind].
  { now apply wallet_matches_normalized. }
  destruct (find_some _ _ Hfind) as [Hin' Hm'].
  apply wallet_matches_normalized in Hm'.
  pose proof (Huniq u' Hin' Hm') as Hid.
  apply (Hresolved u' o); [exact Hfind | assumption | assumption | congruence].
Qed.

(** C6, where the code departs from it. The check resolves the wallet to the
    first user that carries it, and [POST /api/users] registers a second
    user with a wallet that is already registered: it looks for the username
    only, where [POST /api/users/connect-wallet] looks for the wallet and
    creates no second user. In [shared_wallet_store], reached by two
    registrations with the wallet [0xa11ce], a course and the mint of the
    course for the second user, each answered 201, the wallet is registered
    to user 2, who holds ownership 1 of course 1, and the access check of
    course 1 for that wallet answers [{hasAccess: false}] at every time. *)
Theorem owner_with_an_already_registered_wallet_is_refused :
  fst (fst (post_users 10 alice newMemStorage)) = 201
  /\ fst (fst (post_users 20 bob alice_registered)) = 201
  /\ fst (fst (post_courses 30 {| ic_title := "Rocq"; ic_creatorId := 1;
                                  ic_isPublished := Some true |}
                 both_registered)) = 201
  /\ fst (fst (nft_mint 40 {| io_courseId := 1; io_ownerId := 2;
                              io_tokenId := "token-1";
                              io_transactionHash := None |} course_posted))
     = 201
  /\ option_map u_walletAddress (getUser 2 shared_wallet_store)
     = Some (Some "0xa11ce")
  /\ option_map o_id (getNftOwnershipByCourseAndOwner 1 2 shared_wallet_store)
     = Some 1
  /\ option_map u_id (getUserByWalletAddress "0xa11ce" shared_wallet_store)
     = Some 1
  /\ (forall now,
        access_check now 1 "0xa11ce" shared_wallet_store
        = (200, CheckJson false None))
  /\ connect_wallet 20 "0xA11CE" alice_registered
     = ((200, UserJson (getUser 1 alice_registered)), alice_registered).
Proof.
  repeat split; reflexivity.
Qed.

Module JsMapWf.
Section Facts.
Context {V : Type}.
Implicit Types (m : JsMap.t V) (k : Z) (v : V).

(** The entries of a map after [set]: the new binding and the old bindings
    of the other keys. *)
Lemma In_set k k' v x m :
  JsMap.wf m ->
  In (k', x) (JsMap.set k v m) ->
  (k' = k /\ x = v) \/ (k' <> k /\ In (k', x) m).
Proof.
  unfold JsMap.wf, JsMap.keys.
  induction m as [|[k1 v1] rest IH]; simpl; intros Hnd Hin.
  - destruct Hin as [H|[]]. inversion H. now left.
  - inversion Hnd as [|? ? Hnotin Hrest]; subst.
    destruct (k =? k1) eqn:E.
    + apply Z.eqb_eq in E; subst k1.
      destruct Hin as [H|H]; [inversion H; now left|].
      right. split; [|now right].
      intros ->. apply Hnotin.
      change k with (fst (k, x)). now apply in_map.
    + apply Z.eqb_neq in E.
      destruct Hin as [H|H].
      * inversion H; subst. right. split; [congruence | now left].
      * destruct (IH Hrest H) as [?|[? ?]]; [now left|].
        right. split; [assumption | now right].
Qed.

Lemma wf_set k v m : JsMap.wf m -> JsMap.wf (JsMap.set k v m).
Proof.
  unfold JsMap.wf, JsMap.keys.
  induction m as [|[k1 v1] rest IH]; simpl; intros Hnd.
  - constructor; [tauto | constructor].
  - inversion Hnd as [|? ? Hnotin Hrest]; subst.
    destruct (k =? k1) eqn:E; simpl.
    + apply Z.eqb_eq in E; subst k1. now constructor.
    + apply Z.eqb_neq in E. constructor; [|now apply IH].
      intros Hin. apply in_map_iff in Hin.
      destruct Hin as [[k2 v2] [Hk Hin]]. simpl in Hk. subst k2.
      destruct (In_set k k1 v v2 rest Hrest Hin) as [[? ?]|[? Hold]];
        [congruence|].
      apply Hnotin. change k1 with (fst (k1, v2)). now apply in_map.
Qed.
End Facts.
End JsMapWf.

(** Every request leaves the grants a map with unique keys, so the grants of
    a reachable store are one. *)
Lemma handle_keeps_grants_wf zone now r s :
  JsMap.wf (temporaryAccesses s) ->
  JsMap.wf (temporaryAccesses (snd (handle zone now r s))).
Proof.
  intros Hwf.
  destruct r as [w|c|b|oid w e|[id|]|b|[id|] status]; simpl.
  - unfold connect_wallet. destruct (negb (truthy_string w)); [exact Hwf|].
    destruct (getUserByWalletAddress (toLowerCase w) s) as [u|];
      [|exact Hwf].
    destruct (negb _); [|exact Hwf].
    unfold updateUser_walletAddress.
    destruct (JsMap.get (u_id u) (users s)); exact Hwf.
  - unfold post_courses. destruct (negb _); exact Hwf.
  - unfold nft_mint. destruct (negb _); [exact Hwf|].
    destruct (getCourse _ s); [|exact Hwf].
    destruct (getNftOwnershipByCourseAndOwner _ _ s); exact Hwf.
  - unfold access_share. destruct (negb (truthy_string w)); [exact Hwf|].
    destruct (negb (integer_column oid)); [exact Hwf|].
    cbn [ita_ownershipId].
    destruct (getNftOwnership oid s); [|exact Hwf].
    destruct (getActiveTemporaryAccess now oid (toLowerCase w) s);
      [exact Hwf|].
    simpl. now apply JsMapWf.wf_set.
  - unfold deactivateTemporaryAccess.
    destruct (JsMap.get id (temporaryAccesses s)); [|exact Hwf].
    simpl. now apply JsMapWf.wf_set.
  - exact Hwf.
  - unfold access_requests_create. destruct (negb _); exact Hwf.
  - unfold access_request_status, access_request_status_with.
    destruct (negb (truthy_string status) || negb (status_value status));
      [exact Hwf|].
    destruct (getAccessRequestById id s) as [request|] eqn:Hget; [|exact Hwf].
    unfold updateAccessRequestStatus. unfold getAccessRequestById in Hget.
    rewrite Hget.
    destruct (String.eqb status "approved"); [|exact Hwf].
    destruct (getUserByWalletAddress _ _); [|exact Hwf].
    destruct (getNftOwnershipByCourseAndOwner _ _ _); [|exact Hwf].
    simpl. now apply JsMapWf.wf_set.
  - exact Hwf.
Qed.

Lemma reachable_grants_wf s :
  reachable s -> JsMap.wf (temporaryAccesses s).
Proof.
  intros (zone & start & history & _ & <-).
  assert (Hgen : forall h s0, JsMap.wf (temporaryAccesses s0) ->
                   JsMap.wf (temporaryAccesses (run zone h s0))).
  { induction h as [|[now r] rest IH]; simpl; intros s0 H0; [exact H0|].
    apply IH. now apply handle_keeps_grants_wf. }
  apply Hgen. constructor.
Qed.

Lemma live_for_earlier now now' oid normalized grant :
  now <= now' ->
  live_for now' oid normalized grant = true ->
  live_for now oid normalized grant = true.
Proof.
  unfold live_for, isEffectivelyActive. intros Hle.
  rewrite !andb_true_iff. intros [[Hk Ha] [Hactive Hd]].
  repeat split; try assumption. now apply (date_gt_earlier _ now now').
Qed.

Lemma live_for_inactive now oid normalized grant :
  ta_isActive grant = false -> live_for now oid normalized grant = false.
Proof.
  unfold live_for, isEffectivelyActive. intros ->.
  now rewrite andb_false_r.
Qed.

Lemma live_for_expired now oid normalized grant :
  date_gt (ta_expiresAt grant) now = false ->
  live_for now oid normalized grant = false.
Proof.
  unfold live_for, isEffectivelyActive. intros ->.
  now rewrite !andb_false_r.
Qed.

(** The check of a wallet that owns nothing of the course is the check of its
    grants. *)
Lemma access_check_not_owner now cid w s :
  cid <> 0 -> w <> "" ->
  (forall u o,
     In u (JsMap.values (users s)) ->
     option_map toLowerCase (u_walletAddress u) = Some (toLowerCase w) ->
     In o (JsMap.values (ownerships s)) ->
     o_courseId o = cid -> o_ownerId o <> u_id u) ->
  access_check now cid w s
  = if checkTemporaryAccess now cid (toLowerCase w) s
    then (200, CheckJson true (Some temporary))
    else (200, CheckJson false None).
Proof.
  intros Hc Hw Hnot. unfold access_check.
  apply Z.eqb_neq in Hc. rewrite Hc, (truthy_string_true w Hw). simpl.
  destruct (getUserByWalletAddress (toLowerCase w) s) as [u|] eqn:Hu;
    [|reflexivity].
  destruct (find_some _ _ Hu) as [Hin Hm].
  apply wallet_matches_normalized in Hm.
  destruct (getNftOwnershipByCourseAndOwner cid (u_id u) s) as [o|] eqn:Ho;
    [|reflexivity].
  destruct (find_some _ _ Ho) as [Hino Hto].
  apply owns_test in Hto. destruct Hto as [Hoc Hoo].
  exfalso. exact (Hnot u o Hin Hm Hino Hoc Hoo).
Qed.

Lemma checkTemporaryAccess_false now cid n s :
  (forall o x,
     In o (JsMap.values (ownerships s)) -> o_courseId o = cid ->
     In x (JsMap.values (temporaryAccesses s)) ->
     live_for now (o_id o) (toLowerCase n) x = false) ->
  checkTemporaryAccess now cid n s = false.
Proof.
  intros H. rewrite checkTemporaryAccess_live_for.
  apply not_true_is_false. intros Ht.
  apply existsb_exists in Ht. destruct Ht as [o [Ho Hx]].
  apply filter_In in Ho. destruct Ho as [Ho Hoc]. apply Z.eqb_eq in Hoc.
  apply existsb_exists in Hx. destruct Hx as [x [Hx Hl]].
  rewrite (H o x Ho Hoc Hx) in Hl. discriminate.
Qed.

Lemma live_for_stays_false now now' oid normalized grant :
  now <= now' ->
  live_for now oid normalized grant = false ->
  live_for now' oid normalized grant = false.
Proof.
  intros Hle Hf. apply not_true_is_false. intros Ht.
  apply (live_for_earlier now now') in Ht; [congruence | assumption].
Qed.

(** C5. Take a course (its identifier is not 0) and a wallet (a non-empty
    string) that owns nothing of the course and holds only one effectively
    active delegated grant for it, derived from an ownership of the course.
    The access check answers [{hasAccess: true, accessType: "temporary"}].
    Once that grant is revoked, or once the clock has reached its
    [expiresAt], the same check answers [{hasAccess: false}] with no access
    type. *)
Theorem delegated_access_lasts_until_revoked_or_expired :
  forall now cid w s id grant o,
    cid <> 0 -> w <> "" ->
    JsMap.wf (temporaryAccesses s) ->
    (forall u o',
       In u (JsMap.values (users s)) ->
       option_map toLowerCase (u_walletAddress u) = Some (toLowerCase w) ->
       In o' (JsMap.values (ownerships s)) ->
       o_courseId o' = cid -> o_ownerId o' <> u_id u) ->
    JsMap.get id (temporaryAccesses s) = Some grant ->
    In o (JsMap.values (ownerships s)) ->
    o_courseId o = cid ->
    ta_ownershipId grant = o_id o ->
    toLowerCase (ta_recipientAddress grant) = toLowerCase w ->
    isEffectivelyActive grant now = true ->
    (forall k x o',
       In (k, x) (temporaryAccesses s) -> k <> id ->
       In o' (JsMap.values (ownerships s)) -> o_courseId o' = cid ->
       live_for now (o_id o') (toLowerCase w) x = false) ->
    access_check now cid w s = (200, CheckJson true (Some temporary))
    /\ (forall now', now <= now' ->
          access_check now' cid w (snd (access_revoke (Some id) s))
          = (200, CheckJson false None))
    /\ (forall expiresAt now',
          ta_expiresAt grant = TimeValue expiresAt ->
          now <= now' -> expiresAt <= now' ->
          access_check now' cid w s = (200, CheckJson false None)).
Proof.
  intros now cid w s id grant o Hc Hw Hwf Hnot Hget Ho Hoc Hgo Haddr Hlive
    Honly.
  split; [|split].
  - rewrite (access_check_not_owner now cid w s Hc Hw Hnot).
    rewrite checkTemporaryAccess_live_for, toLowerCase_idempotent.
    replace (existsb _ _) with true; [reflexivity|].
    symmetry. apply existsb_exists. exists o. split.
    + apply filter_In. split; [assumption | now apply Z.eqb_eq].
    + apply existsb_exists. exists grant. split.
      * apply JsMapFacts.In_values. exists id. now apply JsMapFacts.get_In.
      * unfold live_for. rewrite Hlive, Hgo, Haddr, Z.eqb_refl.
        now rewrite String.eqb_refl.
  - intros now' Hle. unfold access_revoke, deactivateTemporaryAccess.
    rewrite Hget. simpl.
    rewrite access_check_not_owner by assumption.
    rewrite checkTemporaryAccess_false; [reflexivity|]. simpl.
    intros o' x Ho' Hoc' Hx. rewrite toLowerCase_idempotent.
    apply JsMapFacts.In_values in Hx. destruct Hx as [k Hx].
    apply JsMapWf.In_set in Hx; [|assumption].
    destruct Hx as [[_ ->]|[Hk Hx]].
    + now apply live_for_inactive.
    + apply (live_for_stays_false now); [assumption|].
      now apply (Honly k x o').
  - intros expiresAt now' Hdate Hle Hexp.
    rewrite access_check_not_owner by assumption.
    rewrite checkTemporaryAccess_false; [reflexivity|].
    intros o' x Ho' Hoc' Hx. rewrite toLowerCase_idempotent.
    apply JsMapFacts.In_values in Hx. destruct Hx as [k Hx].
    destruct (Z.eq_dec k id) as [->|Hk].
    + apply (JsMapFacts.In_get _ _ _ Hwf) in Hx.
      assert (x = grant) by congruence. subst x.
      apply live_for_expired. rewrite Hdate. simpl. now apply Z.ltb_ge.
    + apply (live_for_stays_false now); [assumption|].
      now apply (Honly k x o').
Qed.

(** In [shared_store] the wallet [0xabcdef] holds grant 1 alone, which runs
    until time 1000. *)
Lemma delegated_access_lasts_until_revoked_or_expired_witness :
  access_check 50 1 "0xABCDEF" shared_store
  = (200, CheckJson true (Some temporary))
  /\ access_check 60 1 "0xABCDEF" (snd (access_revoke (Some 1) shared_store))
     = (200, CheckJson false None)
  /\ access_check 1000 1 "0xABCDEF" shared_store
     = (200, CheckJson false None).
Proof.
  destruct (delegated_access_lasts_until_revoked_or_expired
              50 1 "0xABCDEF" shared_store 1
              {| ta_id := 1; ta_ownershipId := 1;
                 ta_recipientAddress := "0xabcdef";
                 ta_expiresAt := TimeValue 1000;
                 ta_isActive := true; ta_createdAt := 40 |}
              {| o_id := 1; o_courseId := 1; o_ownerId := 1;
                 o_tokenId := "token-1"; o_mintedAt := 30;
                 o_transactionHash := None |})
    as (Hlive & Hrevoked & Hexpired).
  - discriminate.
  - discriminate.
  - repeat constructor. simpl. tauto.
  - simpl. intros u o' [<-|[]] Hwallet. discriminate Hwallet.
  - reflexivity.
  - simpl. now left.
  - reflexivity.
  - reflexivity.
  - reflexivity.
  - reflexivity.
  - simpl. intros k x o' [H|[]] Hk. inversion H. congruence.
  - split; [exact Hlive|]. split.
    + apply Hrevoked. lia.
    + apply (Hexpired 1000); [reflexivity | lia | lia].
Defined.

(** ** Sharing access *)

Lemma getActiveTemporaryAccess_normalized now oid r s :
  getActiveTemporaryAccess now oid (toLowerCase r) s
  = getActiveTemporaryAccess now oid r s.
Proof.
  unfold getActiveTemporaryAccess. now rewrite toLowerCase_idempotent.
Qed.

Lemma access_share_created now oid r expiresAt s o :
  integer_column oid = true -> r <> "" ->
  getNftOwnership oid s = Some o ->
  getActiveTemporaryAccess now oid r s = None ->
  access_share now oid r expiresAt s
  = ((201, AccessJson (shared_grant now oid r expiresAt s)),
     with_temporaryAccesses
       (JsMap.set (temporaryAccessId s) (shared_grant now oid r expiresAt s)
          (temporaryAccesses s))
       (temporaryAccessId s + 1) s).
Proof.
  intros Hint Hr Ho Hnone. unfold access_share.
  rewrite (truthy_string_true r Hr), Hint. simpl.
  now rewrite Ho, getActiveTemporaryAccess_normalized, Hnone.
Qed.

Lemma access_share_duplicate now oid r expiresAt s o live :
  integer_column oid = true -> r <> "" ->
  getNftOwnership oid s = Some o ->
  getActiveTemporaryAccess now oid r s = Some live ->
  access_share now oid r expiresAt s
  = ((400,
      Message "Active temporary access already exists for this recipient"),
     s).
Proof.
  intros Hint Hr Ho Hsome. unfold access_share.
  rewrite (truthy_string_true r Hr), Hint. simpl.
  now rewrite Ho, getActiveTemporaryAccess_normalized, Hsome.
Qed.

Lemma no_live_after_set (p : TemporaryAccess -> bool) k v m :
  (forall x, In x (JsMap.values m) -> p x = false) ->
  p v = false ->
  find p (JsMap.values (JsMap.set k v m)) = None.
Proof.
  intros Hold Hv. apply JsMapFacts.find_none_values. intros x Hx.
  apply JsMapFacts.In_values_set in Hx. destruct Hx as [->|Hx]; auto.
Qed.

(** C8. For an ownership K of the store and a recipient R (a non-empty
    address) with no live grant for (K, R), sharing access succeeds (HTTP 201)
    and stores an active grant of K to the normalized R. Sharing again while
    that grant is effectively active is refused as a duplicate (HTTP 400,
    "Active temporary access already exists for this recipient") and leaves
    the store as it is. Sharing again succeeds once the first grant has been
    revoked, and once it has expired. *)
Theorem second_share_refused_while_first_is_live :
  forall t1 t2 K R e1 e2 s o,
    integer_column K = true -> R <> "" ->
    getNftOwnership K s = Some o ->
    getActiveTemporaryAccess t1 K R s = None ->
    t1 <= t2 ->
    exists first s1,
      access_share t1 K R e1 s = ((201, AccessJson first), s1)
      /\ JsMap.get (ta_id first) (temporaryAccesses s1) = Some first
      /\ ta_ownershipId first = K
      /\ ta_recipientAddress first = toLowerCase R
      /\ ta_expiresAt first = TimeValue e1
      /\ ta_isActive first = true
      /\ (isEffectivelyActive first t2 = true ->
            access_share t2 K R e2 s1
            = ((400,
                Message
                  "Active temporary access already exists for this recipient"),
               s1))
      /\ (exists second s2,
            access_share t2 K R e2 (snd (access_revoke (Some (ta_id first)) s1))
            = ((201, AccessJson second), s2)
            /\ ta_isActive second = true)
      /\ (isEffectivelyActive first t2 = false ->
            exists second s2,
              access_share t2 K R e2 s1 = ((201, AccessJson second), s2)
              /\ ta_isActive second = true).
Proof.
  intros t1 t2 K R e1 e2 s o Hint HR Ho Hnone Hle.
  set (first := shared_grant t1 K R e1 s).
  exists first. eexists.
  split; [now apply access_share_created with (o := o)|].
  simpl. split; [apply JsMapFacts.get_set_same|].
  do 4 (split; [reflexivity|]).
  rewrite getActiveTemporaryAccess_live_for in Hnone.
  assert (Hold : forall x, In x (JsMap.values (temporaryAccesses s)) ->
                   live_for t2 K (toLowerCase R) x = false).
  { intros x Hx. apply (live_for_stays_false t1); [assumption|].
    now apply (find_none _ _ Hnone). }
  assert (Hfirst : live_for t2 K (toLowerCase R) first
                   = isEffectivelyActive first t2).
  { unfold live_for. simpl.
    now rewrite Z.eqb_refl, toLowerCase_idempotent, String.eqb_refl. }
  split; [|split].
  - intros Hlive.
    apply access_share_duplicate with (o := o) (live := first); try assumption.
    rewrite getActiveTemporaryAccess_live_for.
    cbn [temporaryAccesses with_temporaryAccesses].
    apply JsMapFacts.find_set_new; [assumption | congruence].
  - unfold access_revoke, deactivateTemporaryAccess.
    cbn [temporaryAccesses with_temporaryAccesses ta_id first shared_grant].
    rewrite JsMapFacts.get_set_same.
    cbn [negb snd temporaryAccesses with_temporaryAccesses].
    rewrite JsMapFacts.set_set.
    eexists. eexists. split.
    + apply access_share_created with (o := o); try assumption.
      rewrite getActiveTemporaryAccess_live_for.
      cbn [temporaryAccesses with_temporaryAccesses].
      apply no_live_after_set; [assumption|].
      now apply live_for_inactive.
    + reflexivity.
  - intros Hdead. eexists. eexists. split.
    + apply access_share_created with (o := o); try assumption.
      rewrite getActiveTemporaryAccess_live_for.
      cbn [temporaryAccesses with_temporaryAccesses].
      apply no_live_after_set; [assumption|].
      fold first. congruence.
    + reflexivity.
Qed.

(** Ownership 1 of [shared_store] is shared with [0xBEEF] at time 100 until
    time 1000; a second share at time 200 is refused. *)
Lemma second_share_refused_while_first_is_live_witness :
  fst (fst (access_share 100 1 "0xBEEF" 1000 shared_store)) = 201
  /\ fst (fst (access_share 200 1 "0xBEEF" 2000
                 (snd (access_share 100 1 "0xBEEF" 1000 shared_store))))
     = 400.
Proof.
  destruct (second_share_refused_while_first_is_live
              100 200 1 "0xBEEF" 1000 2000 shared_store
              {| o_id := 1; o_courseId := 1; o_ownerId := 1;
                 o_tokenId := "token-1"; o_mintedAt := 30;
                 o_transactionHash := None |})
    as (first & s1 & Hshare & _ & _ & _ & Hexp & Hact & Hdup & _).
  - reflexivity.
  - discriminate.
  - reflexivity.
  - reflexivity.
  - lia.
  - rewrite Hshare. simpl. split; [reflexivity|].
    rewrite Hdup; [reflexivity|].
    unfold isEffectivelyActive. now rewrite Hact, Hexp.
Defined.

(** ** Submitting a request *)

(** The route accepts a request for 0 days and a request for 91 days: each
    is answered 201 and stored as a pending request. *)
Lemma submit_accepts_0_and_91_days :
  (fst (fst (access_requests_create 100 (request_for_days 0) shared_store))
   = 201
   /\ option_map ar_requestDuration
        (getAccessRequestById 1
           (snd (access_requests_create 100 (request_for_days 0)
                   shared_store)))
      = Some 0)
  /\ (fst (fst (access_requests_create 100 (request_for_days 91) shared_store))
      = 201
      /\ option_map ar_requestDuration
           (getAccessRequestById 1
              (snd (access_requests_create 100 (request_for_days 91)
                      shared_store)))
         = Some 91).
Proof.
  repeat split; reflexivity.
Qed.

(** C3, as the code has it. The submit route checks no range of durations:
    every body whose course identifier and duration pass the schema (integers
    of 32 bits), so durations 0, 1, 90 and 91 alike, is answered 201 and
    stored under the next identifier as a pending request with normalized
    addresses and that very duration. The bound of 1 to 90 days is the
    request form's: with a connected wallet it posts a duration [d] exactly
    when [1 <= d <= 90], and shows "Invalid duration" otherwise. *)
Theorem submit_accepts_any_duration_the_form_bounds_it :
  (forall now body s,
     integer_column (iar_courseId body) = true ->
     integer_column (iar_requestDuration body) = true ->
     exists request s',
       access_requests_create now body s
       = ((201, RequestJson (Some request)), s')
       /\ getAccessRequestById (accessRequestId s) s' = Some request
       /\ ar_status request = "pending"
       /\ ar_requestDuration request = iar_requestDuration body
       /\ ar_courseId request = iar_courseId body
       /\ ar_requesterAddress request
          = toLowerCase (iar_requesterAddress body)
       /\ ar_ownerAddress request = toLowerCase (iar_ownerAddress body))
  /\ (forall account cid ownerAddress message d,
        account <> "" ->
        (1 <= d <= 90 ->
         exists posted,
           RequestAccessModal_handleSubmit (Some account) cid ownerAddress
             message (Some d) = inr posted
           /\ iar_requestDuration posted = d)
        /\ (d < 1 \/ 90 < d ->
            RequestAccessModal_handleSubmit (Some account) cid ownerAddress
              message (Some d) = inl "Invalid duration")).
Proof.
  split.
  - intros now body s Hc Hd. unfold access_requests_create.
    rewrite Hc, Hd. simpl. eexists. eexists.
    split; [reflexivity|]. simpl.
    split; [apply JsMapFacts.get_set_same|]. repeat split.
  - intros account cid ownerAddress message d Ha.
    unfold RequestAccessModal_handleSubmit. simpl.
    rewrite (truthy_string_true account Ha). split.
    + intros [Hlo Hhi].
      replace (d <? 1) with false by (symmetry; apply Z.ltb_ge; lia).
      replace (90 <? d) with false by (symmetry; apply Z.ltb_ge; lia).
      simpl. eexists. split; reflexivity.
    + intros [H|H].
      * replace (d <? 1) with true by (symmetry; apply Z.ltb_lt; lia).
        reflexivity.
      * replace (90 <? d) with true by (symmetry; apply Z.ltb_lt; lia).
        now rewrite orb_true_r.
Qed.

(** Ninety-one days: accepted by the route, refused by the form. *)
Lemma submit_accepts_any_duration_the_form_bounds_it_witness :
  fst (fst (access_requests_create 100 (request_for_days 91) shared_store))
  = 201
  /\ RequestAccessModal_handleSubmit (Some "0xB0B") 1 "0xA11CE" "" (Some 91)
     = inl "Invalid duration".
Proof.
  destruct submit_accepts_any_duration_the_form_bounds_it as [Hroute Hform].
  split.
  - destruct (Hroute 100 (request_for_days 91) shared_store)
      as (request & s' & Heq & _); [reflexivity | reflexivity |].
    now rewrite Heq.
  - apply (Hform "0xB0B" 1 "0xA11CE" "" 91); [discriminate|]. right. lia.
Defined.

(** ** Deciding on a request *)

Lemma updateAccessRequestStatus_found now id status s request :
  getAccessRequestById id s = Some request ->
  exists s1,
    updateAccessRequestStatus now id status s
    = (Some (with_status status now request), s1)
    /\ getAccessRequestById id s1 = Some (with_status status now request)
    /\ (forall id', id' <> id ->
          getAccessRequestById id' s1 = getAccessRequestById id' s)
    /\ users s1 = users s /\ courses s1 = courses s
    /\ ownerships s1 = ownerships s
    /\ temporaryAccesses s1 = temporaryAccesses s
    /\ temporaryAccessId s1 = temporaryAccessId s.
Proof.
  unfold getAccessRequestById, updateAccessRequestStatus. intros ->.
  eexists. split; [reflexivity|]. simpl.
  split; [apply JsMapFacts.get_set_same|].
  split; [intros id' Hne; now apply JsMapFacts.get_set_other|].
  repeat split.
Qed.

Lemma getUserByWalletAddress_users w s s' :
  users s' = users s ->
  getUserByWalletAddress w s' = getUserByWalletAddress w s.
Proof.
  unfold getUserByWalletAddress. now intros ->.
Qed.

Lemma getNftOwnershipByCourseAndOwner_ownerships cid uid s s' :
  ownerships s' = ownerships s ->
  getNftOwnershipByCourseAndOwner cid uid s'
  = getNftOwnershipByCourseAndOwner cid uid s.
Proof.
  unfold getNftOwnershipByCourseAndOwner. now intros ->.
Qed.

(** A request in the terminal state [approved] is moved to [rejected], and
    back to [pending], by the status route: both calls are answered 200 and
    the stored request changes. *)
Lemma approved_request_can_be_rejected_or_reopened :
  option_map ar_status (getAccessRequestById 1 approved_store)
  = Some "approved"
  /\ fst (fst (access_request_status utc 70 (Some 1) "rejected"
                 approved_store))
     = 200
  /\ option_map ar_status
       (getAccessRequestById 1
          (snd (access_request_status utc 70 (Some 1) "rejected"
                  approved_store)))
     = Some "rejected"
  /\ fst (fst (access_request_status utc 70 (Some 1) "pending"
                 approved_store))
     = 200
  /\ option_map ar_status
       (getAccessRequestById 1
          (snd (access_request_status utc 70 (Some 1) "pending"
                  approved_store)))
     = Some "pending".
Proof.
  repeat split; reflexivity.
Qed.

Lemma status_value_cases status :
  status_value status = true
  <-> status = "pending" \/ status = "approved" \/ status = "rejected".
Proof.
  unfold status_value. simpl. rewrite !orb_true_iff, !String.eqb_eq.
  intuition discriminate.
Qed.

(** The status route reads nothing of the current status: with any other
    current status of the request, the answer and the store are the same. *)
Lemma status_route_forgets_current_status zone create now id status s request
    current :
  status_value status = true ->
  getAccessRequestById id s = Some request ->
  access_request_status_with zone create now (Some id) status
    (store_with_request id (with_current_status current request) s)
  = access_request_status_with zone create now (Some id) status s.
Proof.
  intros Hv Hget. unfold access_request_status_with. rewrite Hv.
  destruct (negb (truthy_string status) || negb true) eqn:Ht.
  { destruct status; [discriminate Hv | discriminate Ht]. }
  unfold getAccessRequestById in *. unfold updateAccessRequestStatus.
  unfold store_with_request, with_accessRequests.
  cbn [accessRequests accessRequestId].
  rewrite JsMapFacts.get_set_same, Hget, JsMapFacts.set_set.
  reflexivity.
Qed.

(** The approval on the module's store, for a stored request: the new status
    is written, and the answer follows from the owner and the ownership. *)
Lemma approval_result zone now id s request :
  getAccessRequestById id s = Some request ->
  exists s1,
    updateAccessRequestStatus now id "approved" s
    = (Some (with_status "approved" now request), s1)
    /\ access_request_status zone now (Some id) "approved" s
       = match getUserByWalletAddress (ar_ownerAddress request) s with
         | None => ((404, Message "Owner user not found"), s1)
         | Some user =>
             match getNftOwnershipByCourseAndOwner
                     (ar_courseId request) (u_id user) s with
             | None => ((404, Message "Owner does not own this course"), s1)
             | Some ownership =>
                 let expiresAt :=
                   add_days zone now (ar_requestDuration request) in
                 ((200,
                   ApprovalJson (Some (with_status "approved" now request))
                     true (Some expiresAt) None),
                  snd (createTemporaryAccess now
                         {| ita_ownershipId := o_id ownership;
                            ita_recipientAddress :=
                              ar_requesterAddress request;
                            ita_expiresAt := expiresAt |} s1))
             end
         end.
Proof.
  intros Hget.
  destruct (updateAccessRequestStatus_found now id "approved" s request Hget)
    as (s1 & Hupd & _ & _ & Hu & _ & Ho & _).
  exists s1. split; [assumption|].
  unfold access_request_status, access_request_status_with. simpl.
  rewrite Hget, Hupd. simpl.
  rewrite (getUserByWalletAddress_users _ s s1 Hu).
  destruct (getUserByWalletAddress (ar_ownerAddress request) s) as [user|];
    [|reflexivity].
  rewrite (getNftOwnershipByCourseAndOwner_ownerships _ _ s s1 Ho).
  now destruct (getNftOwnershipByCourseAndOwner _ _ s).
Qed.

(** C2, as the code has it. The status route looks at the new status only,
    never at the current one. A new status outside {pending, approved,
    rejected} is refused (HTTP 400, "Invalid status value") and an unknown
    request is not found (HTTP 404), the store staying as it is. For a stored
    request, whatever its current status, a new status among the three is
    written to the request together with [updatedAt], its other fields and
    the other requests staying as they are, and the answer and the store are
    those that the same request with any other current status gives. For
    [pending] and [rejected] the answer is 200 with the updated request, so
    every change out of [approved] or [rejected] is made like
    pending→rejected. For [approved], from any current status, the answer is
    200 with [accessGranted: true] when the owner address resolves to a user
    who holds an ownership of the course, and 404 ("Owner user not found",
    "Owner does not own this course") otherwise, the new status staying
    written. *)
Theorem status_update_ignores_current_status :
  forall zone now id status s,
    (status_value status = false ->
     access_request_status zone now (Some id) status s
     = ((400, Message "Invalid status value"), s))
    /\ (status_value status = true ->
        getAccessRequestById id s = None ->
        access_request_status zone now (Some id) status s
        = ((404, Message "Access request not found"), s))
    /\ (forall request,
          status_value status = true ->
          getAccessRequestById id s = Some request ->
          let result := access_request_status zone now (Some id) status s in
          exists updated,
            getAccessRequestById id (snd result) = Some updated
            /\ ar_status updated = status
            /\ ar_updatedAt updated = now
            /\ ar_id updated = ar_id request
            /\ ar_courseId updated = ar_courseId request
            /\ ar_requesterAddress updated = ar_requesterAddress request
            /\ ar_ownerAddress updated = ar_ownerAddress request
            /\ ar_requestMessage updated = ar_requestMessage request
            /\ ar_requestDuration updated = ar_requestDuration request
            /\ ar_createdAt updated = ar_createdAt request
            /\ (forall id', id' <> id ->
                  getAccessRequestById id' (snd result)
                  = getAccessRequestById id' s)
            /\ (status <> "approved" ->
                fst result = (200, RequestJson (Some updated)))
            /\ (status = "approved" ->
                fst result
                = match getUserByWalletAddress (ar_ownerAddress request) s with
                  | None => (404, Message "Owner user not found")
                  | Some user =>
                      match getNftOwnershipByCourseAndOwner
                              (ar_courseId request) (u_id user) s with
                      | None => (404, Message "Owner does not own this course")
                      | Some _ =>
                          (200,
                           ApprovalJson (Some updated) true
                             (Some (add_days zone now
                                      (ar_requestDuration request)))
                             None)
                      end
                  end)
            /\ (forall current,
                  access_request_status zone now (Some id) status
                    (store_with_request id
                       (with_current_status current request) s)
                  = result)).
Proof.
  intros zone now id status s. split; [|split].
  - intros Hv. unfold access_request_status, access_request_status_with.
    now rewrite Hv, orb_true_r.
  - intros Hv Hnone.
    unfold access_request_status, access_request_status_with.
    rewrite Hv, Hnone.
    destruct status; [discriminate Hv | reflexivity].
  - intros request Hv Hget result.
    exists (with_status status now request).
    destruct (updateAccessRequestStatus_found now id status s request Hget)
      as (s1 & Hupd & Hget1 & Hother1 & Hu & _ & Ho & _).
    assert (Hres :
      getAccessRequestById id (snd result)
      = Some (with_status status now request)
      /\ (forall id', id' <> id ->
            getAccessRequestById id' (snd result)
            = getAccessRequestById id' s)
      /\ (status <> "approved" ->
          fst result = (200, RequestJson (Some (with_status status now request))))).
    { subst result.
      unfold access_request_status, access_request_status_with.
      rewrite Hv, Hget, Hupd.
      replace (negb (truthy_string status)) with false
        by (destruct status; [discriminate Hv | reflexivity]).
      simpl.
      destruct (String.eqb status "approved") eqn:Happ.
      - destruct (getUserByWalletAddress (ar_ownerAddress request) s1);
          [|simpl; split; [assumption|split; [assumption|]];
            apply String.eqb_eq in Happ; congruence].
        destruct (getNftOwnershipByCourseAndOwner _ _ s1);
          simpl; (split; [assumption|split; [assumption|]]);
          apply String.eqb_eq in Happ; congruence.
      - simpl. split; [assumption|]. split; [assumption|]. reflexivity. }
    destruct Hres as (H1 & H2 & H3).
    split; [assumption|]. repeat (split; [reflexivity|]).
    split; [assumption|]. split; [assumption|]. split.
    + intros ->. subst result.
      destruct (approval_result zone now id s request Hget)
        as (s1' & _ & ->).
      destruct (getUserByWalletAddress (ar_ownerAddress request) s);
        [|reflexivity].
      now destruct (getNftOwnershipByCourseAndOwner _ _ s).
    + intros current. subst result.
      now apply status_route_forgets_current_status.
Qed.

(** Rejecting the approved request of [approved_store]. *)
Lemma status_update_ignores_current_status_witness :
  option_map ar_status
    (getAccessRequestById 1
       (snd (access_request_status utc 70 (Some 1) "rejected"
               approved_store)))
  = Some "rejected".
Proof.
  destruct (status_update_ignores_current_status utc 70 1 "rejected"
              approved_store)
    as (_ & _ & H).
  destruct (H (with_status "approved" 60
                 {| ar_id := 1; ar_courseId := 1;
                    ar_requesterAddress := "0xb0b";
                    ar_ownerAddress := "0xa11ce";
                    ar_requestMessage := None; ar_requestDuration := 7;
                    ar_status := "pending"; ar_createdAt := 50;
                    ar_updatedAt := 50 |}))
    as (updated & Hget & Hstatus & _); [reflexivity | reflexivity |].
  rewrite Hget. simpl. now rewrite Hstatus.
Defined.

(** ** Approval when the grant cannot be made *)

(** C4. Approving a stored request (a pending one in particular) records the
    approval whatever becomes of the grant. When the owner address resolves
    to no user, when the resolved owner holds no ownership of the course, or
    when the creation of the grant throws, the stored request is the old one
    with status [approved] and the new [updatedAt] (nothing is rolled back),
    and the answer names the reason: "Owner user not found", "Owner does not
    own this course", or the approved request with [accessGranted: false] and
    the error message. None of these answers is an answer of total failure,
    and an answer of total failure always leaves the store untouched. *)
Theorem approval_is_recorded_when_grant_fails :
  forall zone create now id s request,
    getAccessRequestById id s = Some request ->
    let approved := with_status "approved" now request in
    let result :=
      access_request_status_with zone create now (Some id) "approved" s in
    exists s1,
      updateAccessRequestStatus now id "approved" s = (Some approved, s1)
      /\ getAccessRequestById id s1 = Some approved
      /\ ar_status approved = "approved"
      /\ (getUserByWalletAddress (ar_ownerAddress request) s = None ->
          result = ((404, Message "Owner user not found"), s1))
      /\ (forall user,
            getUserByWalletAddress (ar_ownerAddress request) s = Some user ->
            getNftOwnershipByCourseAndOwner
              (ar_courseId request) (u_id user) s = None ->
            result = ((404, Message "Owner does not own this course"), s1))
      /\ (forall user ownership reason,
            getUserByWalletAddress (ar_ownerAddress request) s = Some user ->
            getNftOwnershipByCourseAndOwner
              (ar_courseId request) (u_id user) s = Some ownership ->
            create now
              {| ita_ownershipId := o_id ownership;
                 ita_recipientAddress := ar_requesterAddress request;
                 ita_expiresAt :=
                   add_days zone now (ar_requestDuration request) |}
              s1 = inl reason ->
            result
            = ((200, ApprovalJson (Some approved) false None (Some reason)),
               s1))
      /\ ~ TotalFailure (404, Message "Owner user not found")
      /\ ~ TotalFailure (404, Message "Owner does not own this course")
      /\ (forall reason,
            ~ TotalFailure
                (200, ApprovalJson (Some approved) false None (Some reason)))
      /\ (forall requestId status s0,
            TotalFailure
              (fst (access_request_status_with zone create now requestId
                      status s0))
            -> snd (access_request_status_with zone create now requestId
                      status s0)
               = s0).
Proof.
  intros zone create now id s request Hget approved result.
  destruct (updateAccessRequestStatus_found now id "approved" s request Hget)
    as (s1 & Hupd & Hget1 & _ & Hu & _ & Ho & _).
  exists s1. split; [assumption|]. split; [assumption|].
  split; [reflexivity|].
  assert (Hresult :
    result
    = match getUserByWalletAddress (ar_ownerAddress request) s with
      | None => ((404, Message "Owner user not found"), s1)
      | Some user =>
          match getNftOwnershipByCourseAndOwner
                  (ar_courseId request) (u_id user) s with
          | None => ((404, Message "Owner does not own this course"), s1)
          | Some ownership =>
              match create now
                      {| ita_ownershipId := o_id ownership;
                         ita_recipientAddress := ar_requesterAddress request;
                         ita_expiresAt :=
                           add_days zone now (ar_requestDuration request) |}
                      s1 with
              | inr (_, s2) =>
                  ((200,
                    ApprovalJson (Some approved) true
                      (Some (add_days zone now (ar_requestDuration request)))
                      None),
                   s2)
              | inl message =>
                  ((200, ApprovalJson (Some approved) false None (Some message)),
                   s1)
              end
          end
      end).
  { subst result. unfold access_request_status_with. simpl.
    rewrite Hget, Hupd. simpl.
    rewrite (getUserByWalletAddress_users _ s s1 Hu).
    destruct (getUserByWalletAddress (ar_ownerAddress request) s) as [user|];
      [|reflexivity].
    rewrite (getNftOwnershipByCourseAndOwner_ownerships _ _ s s1 Ho).
    destruct (getNftOwnershipByCourseAndOwner _ _ s) as [ownership|];
      [|reflexivity].
    destruct (create _ _ _) as [message|[access s2]]; reflexivity. }
  split; [|split; [|split; [|split; [|split; [|split]]]]].
  - intros Hnone. now rewrite Hresult, Hnone.
  - intros user Huser Hnone. now rewrite Hresult, Huser, Hnone.
  - intros user ownership reason Huser Hown Hthrow.
    now rewrite Hresult, Huser, Hown, Hthrow.
  - intros H. inversion H.
  - intros H. inversion H.
  - intros reason H. inversion H.
  - intros requestId status s0. unfold access_request_status_with.
    destruct requestId as [rid|]; [|reflexivity].
    destruct (negb (truthy_string status) || negb (status_value status));
      [reflexivity|].
    destruct (getAccessRequestById rid s0) as [r0|]; [|reflexivity].
    destruct (updateAccessRequestStatus now rid status s0) as [upd s1'].
    destruct (String.eqb status "approved").
    + destruct (getUserByWalletAddress _ s1'); [|intros H; inversion H].
      destruct (getNftOwnershipByCourseAndOwner _ _ s1');
        [|intros H; inversion H].
      destruct (create _ _ _) as [message|[access s2]];
        intros H; inversion H.
    + intros H. inversion H.
Qed.

(** Approving the request of [misdirected_request_store], whose named owner
    owns nothing. *)
Lemma approval_is_recorded_when_grant_fails_witness :
  fst (access_request_status utc 60 (Some 1) "approved"
         misdirected_request_store)
  = (404, Message "Owner does not own this course")
  /\ option_map ar_status
       (getAccessRequestById 1
          (snd (access_request_status utc 60 (Some 1) "approved"
                  misdirected_request_store)))
     = Some "approved".
Proof.
  destruct (approval_is_recorded_when_grant_fails utc
              (fun now insertAccess s =>
                 inr (createTemporaryAccess now insertAccess s))
              60 1 misdirected_request_store
              {| ar_id := 1; ar_courseId := 1;
                 ar_requesterAddress := "0xb0b";
                 ar_ownerAddress := "0xc0ffee";
                 ar_requestMessage := None; ar_requestDuration := 7;
                 ar_status := "pending"; ar_createdAt := 50;
                 ar_updatedAt := 50 |})
    as (s1 & _ & Hget & _ & _ & Hmissing & _); [reflexivity|].
  unfold access_request_status.
  rewrite (Hmissing
             {| u_id := 2; u_username := "user_15"; u_password := "pw_15";
                u_walletAddress := Some "0xc0ffee"; u_isCreator := None;
                u_createdAt := 15 |});
    [|reflexivity|reflexivity].
  simpl. split; [reflexivity|]. now rewrite Hget.
Defined.

(** ** At most one live grant per ownership and recipient *)

Lemma filter_values_set_length (p : TemporaryAccess -> bool) k v m :
  (List.length (filter p (JsMap.values (JsMap.set k v m)))
   <= List.length (filter p (JsMap.values m)) + (if p v then 1 else 0))%nat.
Proof.
  induction m as [|[k1 v1] rest IH]; simpl.
  - destruct (p v); simpl; lia.
  - destruct (k =? k1); simpl.
    + destruct (p v), (p v1); simpl; lia.
    + fold (JsMap.values (JsMap.set k v rest)).
      fold (JsMap.values rest).
      destruct (p v1); simpl; lia.
Qed.

Lemma find_none_filter_nil {A} (p : A -> bool) l :
  find p l = None -> filter p l = [].
Proof.
  induction l as [|a l IH]; simpl; [reflexivity|].
  destruct (p a); [discriminate | exact IH].
Qed.

(** The share route keeps the invariant: it creates a grant only when the
    lookup finds no live grant of the ownership to the recipient. *)
Lemma access_share_keeps_at_most_one_live now oid r expiresAt s :
  at_most_one_live now s ->
  at_most_one_live now (snd (access_share now oid r expiresAt s)).
Proof.
  intros Hinv. unfold access_share.
  destruct (negb (truthy_string r)); [exact Hinv|].
  destruct (negb (integer_column oid)); [exact Hinv|].
  cbn [ita_ownershipId].
  destruct (getNftOwnership oid s); [|exact Hinv].
  destruct (getActiveTemporaryAccess now oid (toLowerCase r) s) eqn:Hnone;
    [exact Hinv|].
  cbn [snd createTemporaryAccess].
  intros oid' r'. unfold live_grants.
  cbn [temporaryAccesses with_temporaryAccesses].
  match goal with
  | |- context [JsMap.set ?k ?v _] =>
      pose proof (filter_values_set_length
                    (live_for now oid' (toLowerCase r')) k v
                    (temporaryAccesses s)) as Hlen;
      destruct (live_for now oid' (toLowerCase r') v) eqn:Hnew
  end.
  - unfold live_for in Hnew. cbn in Hnew.
    apply andb_true_iff in Hnew. destruct Hnew as [Hnew _].
    apply andb_true_iff in Hnew. destruct Hnew as [Hk Ha].
    apply Z.eqb_eq in Hk. apply String.eqb_eq in Ha. subst oid'.
    rewrite getActiveTemporaryAccess_live_for in Hnone.
    rewrite Ha in Hnone. apply find_none_filter_nil in Hnone.
    rewrite Hnone in Hlen. simpl in Hlen. exact Hlen.
  - specialize (Hinv oid' r'). unfold live_grants in Hinv. lia.
Qed.

(** C1, where the code departs from it. The approval route creates its grant
    without looking for a live one: after [double_grant_history], a history
    of accepted requests with an increasing clock (on a server whose local
    time is UTC), the store holds two active, unexpired grants (1 and 2) of
    ownership 1 to the recipient [0xb0b], so the reached store breaks the
    invariant. *)
Theorem approval_creates_second_live_grant :
  clock_ordered 0 double_grant_history = true
  /\ reachable (run utc double_grant_history newMemStorage)
  /\ fst (handle utc 60 (AccessRequestStatus (Some 1) "approved")
            (run utc (firstn 5 double_grant_history) newMemStorage))
     = (200,
        ApprovalJson
          (Some {| ar_id := 1; ar_courseId := 1;
                   ar_requesterAddress := "0xb0b";
                   ar_ownerAddress := "0xa11ce";
                   ar_requestMessage := None; ar_requestDuration := 7;
                   ar_status := "approved"; ar_createdAt := 50;
                   ar_updatedAt := 60 |})
          true (Some (TimeValue (60 + 7 * msPerDay))) None)
  /\ List.map ta_id
       (live_grants 70 1 "0xB0B" (run utc double_grant_history newMemStorage))
     = [1; 2]
  /\ ~ at_most_one_live 70 (run utc double_grant_history newMemStorage).
Proof.
  split; [reflexivity|].
  split; [exists utc, 0, double_grant_history; split; reflexivity|].
  split; [reflexivity|].
  split; [reflexivity|].
  intros H. specialize (H 1 "0xB0B").
  vm_compute in H. lia.
Qed.

(** ** Well-formed stores *)

Section MapOkFacts.
Context {V : Type}.
Variable id_of : V -> Z.
Implicit Types (m : JsMap.t V) (k : Z) (v : V).

Lemma map_ok_empty next : map_ok id_of next JsMap.empty.
Proof.
  repeat split; try constructor; intros k v [].
Qed.

(** [map.set(next, v); next++] for a row of identifier [next]. *)
Lemma map_ok_set_next next v m :
  map_ok id_of next m -> id_of v = next ->
  map_ok id_of (next + 1) (JsMap.set next v m).
Proof.
  intros (Hwf & Hids & Hbelow) Hid. split; [|split].
  - now apply JsMapWf.wf_set.
  - intros k x Hin. apply JsMapWf.In_set in Hin; [|assumption].
    destruct Hin as [[-> ->]|[_ Hin]]; [assumption | now apply Hids].
  - intros k x Hin. apply JsMapWf.In_set in Hin; [|assumption].
    destruct Hin as [[-> _]|[_ Hin]]; [lia|].
    specialize (Hbelow k x Hin). lia.
Qed.

(** [map.set(k, v)] over the row of key [k], for a row of identifier [k]. *)
Lemma map_ok_set_present next k v v0 m :
  map_ok id_of next m -> JsMap.get k m = Some v0 -> id_of v = k ->
  map_ok id_of next (JsMap.set k v m).
Proof.
  intros (Hwf & Hids & Hbelow) Hget Hid. split; [|split].
  - now apply JsMapWf.wf_set.
  - intros k' x Hin. apply JsMapWf.In_set in Hin; [|assumption].
    destruct Hin as [[-> ->]|[_ Hin]]; [assumption | now apply Hids].
  - intros k' x Hin. apply JsMapWf.In_set in Hin; [|assumption].
    destruct Hin as [[-> _]|[_ Hin]]; [|now apply (Hbelow k' x)].
    apply (Hbelow k v0). now apply JsMapFacts.get_In.
Qed.

Lemma map_ok_get_id next k v m :
  map_ok id_of next m -> JsMap.get k m = Some v -> id_of v = k.
Proof.
  intros (_ & Hids & _) Hget. apply Hids. now apply JsMapFacts.get_In.
Qed.
End MapOkFacts.

Lemma newMemStorage_ok : store_ok newMemStorage.
Proof.
  repeat split; try constructor; intros k v [].
Qed.

Lemma getUserByWalletAddress_get u w s :
  map_ok u_id (userId s) (users s) ->
  getUserByWalletAddress w s = Some u ->
  JsMap.get (u_id u) (users s) = Some u.
Proof.
  unfold getUserByWalletAddress. intros (Hwf & Hids & _) Hfind.
  destruct (find_some _ _ Hfind) as [Hin _].
  apply JsMapFacts.In_values in Hin. destruct Hin as [k Hin].
  rewrite (Hids k u Hin). now apply JsMapFacts.In_get.
Qed.

(** Every request leaves the store well formed. *)
Lemma handle_keeps_store_ok zone now r s :
  store_ok s -> store_ok (snd (handle zone now r s)).
Proof.
  intros Hok. pose proof Hok as (Hu & Hc & Ho & Ht & Ha).
  destruct r as [w|c|b|oid w e|[id|]|b|[id|] status]; simpl.
  - unfold connect_wallet. destruct (negb (truthy_string w)); [exact Hok|].
    destruct (getUserByWalletAddress (toLowerCase w) s) as [u|] eqn:Hfind.
    + destruct (negb _); [|exact Hok].
      unfold updateUser_walletAddress.
      pose proof (getUserByWalletAddress_get u _ s Hu Hfind) as Hget.
      rewrite Hget. simpl.
      split; [|now repeat (split; [assumption|])].
      now apply (map_ok_set_present u_id (userId s) (u_id u) _ u (users s) Hu).
    + simpl. split; [|now repeat (split; [assumption|])].
      now apply map_ok_set_next.
  - unfold post_courses. destruct (negb _); [exact Hok|]. simpl.
    split; [exact Hu|]. split; [now apply map_ok_set_next|].
    now repeat (split; [assumption|]).
  - unfold nft_mint. destruct (negb _); [exact Hok|].
    destruct (getCourse _ s); [|exact Hok].
    destruct (getNftOwnershipByCourseAndOwner _ _ s); [exact Hok|]. simpl.
    split; [exact Hu|]. split; [exact Hc|].
    split; [now apply map_ok_set_next|].
    now split.
  - unfold access_share. destruct (negb (truthy_string w)); [exact Hok|].
    destruct (negb (integer_column oid)); [exact Hok|].
    cbn [ita_ownershipId].
    destruct (getNftOwnership oid s); [|exact Hok].
    destruct (getActiveTemporaryAccess now oid (toLowerCase w) s);
      [exact Hok|].
    simpl. split; [exact Hu|]. split; [exact Hc|]. split; [exact Ho|].
    split; [now apply map_ok_set_next | exact Ha].
  - unfold deactivateTemporaryAccess.
    destruct (JsMap.get id (temporaryAccesses s)) as [g|] eqn:Hget;
      [|exact Hok].
    simpl. split; [exact Hu|]. split; [exact Hc|]. split; [exact Ho|].
    split; [|exact Ha].
    apply (map_ok_set_present ta_id _ id _ g _ Ht Hget). simpl.
    now apply (map_ok_get_id ta_id _ id g _ Ht).
  - exact Hok.
  - unfold access_requests_create. destruct (negb _); [exact Hok|]. simpl.
    split; [exact Hu|]. split; [exact Hc|]. split; [exact Ho|].
    split; [exact Ht|]. now apply map_ok_set_next.
  - unfold access_request_status, access_request_status_with.
    destruct (negb (truthy_string status) || negb (status_value status));
      [exact Hok|].
    destruct (getAccessRequestById id s) as [request|] eqn:Hget; [|exact Hok].
    unfold updateAccessRequestStatus. unfold getAccessRequestById in Hget.
    rewrite Hget.
    assert (Ha' : map_ok ar_id (accessRequestId s)
                    (JsMap.set id (with_status status now request)
                       (accessRequests s))).
    { apply (map_ok_set_present ar_id _ id _ request _ Ha Hget). simpl.
      now apply (map_ok_get_id ar_id _ id request _ Ha). }
    destruct (String.eqb status "approved");
      [|simpl; now repeat (split; [assumption|])].
    destruct (getUserByWalletAddress _ _);
      [|simpl; now repeat (split; [assumption|])].
    destruct (getNftOwnershipByCourseAndOwner _ _ _);
      [|simpl; now repeat (split; [assumption|])].
    simpl. split; [exact Hu|]. split; [exact Hc|]. split; [exact Ho|].
    split; [now apply map_ok_set_next | exact Ha'].
  - exact Hok.
Qed.

Lemma run_keeps_store_ok zone history s :
  store_ok s -> store_ok (run zone history s).
Proof.
  revert s. induction history as [|[now r] rest IH]; simpl; intros s Hok;
    [exact Hok|].
  apply IH. now apply handle_keeps_store_ok.
Qed.

Lemma shared_store_ok : store_ok shared_store.
Proof.
  apply run_keeps_store_ok, newMemStorage_ok.
Qed.

(** X1. Every store reached by a history of requests is well formed: each of
    its five maps holds each key once, stores every row under the row's own
    [id], and has all its keys below the counter of the next [id], so that no
    identifier is ever given twice. *)
Theorem reachable_store_ok :
  forall s, reachable s -> store_ok s.
Proof.
  intros s (zone & start & history & _ & <-).
  apply run_keeps_store_ok, newMemStorage_ok.
Qed.

Lemma reachable_store_ok_witness : store_ok shared_store.
Proof.
  apply reachable_store_ok.
  exists utc, 0.
  exists [ (10, ConnectWallet "0xA11CE");
           (20, PostCourses {| ic_title := "Rocq"; ic_creatorId := 1;
                               ic_isPublished := Some true |});
           (30, NftMint {| io_courseId := 1; io_ownerId := 1;
                           io_tokenId := "token-1";
                           io_transactionHash := None |});
           (40, AccessShare 1 "0xABCdef" 1000) ].
  split; reflexivity.
Defined.

(** ** What no request does to a grant or to an ownership *)

Lemma handle_keeps_grant zone now r s id grant :
  map_ok ta_id (temporaryAccessId s) (temporaryAccesses s) ->
  JsMap.get id (temporaryAccesses s) = Some grant ->
  exists grant',
    JsMap.get id (temporaryAccesses (snd (handle zone now r s))) = Some grant'
    /\ ta_id grant' = ta_id grant
    /\ ta_ownershipId grant' = ta_ownershipId grant
    /\ ta_recipientAddress grant' = ta_recipientAddress grant
    /\ ta_expiresAt grant' = ta_expiresAt grant
    /\ ta_createdAt grant' = ta_createdAt grant
    /\ (ta_isActive grant = false -> ta_isActive grant' = false).
Proof.
  intros Hok Hget.
  assert (Hsame : exists grant',
            JsMap.get id (temporaryAccesses s) = Some grant'
            /\ ta_id grant' = ta_id grant
            /\ ta_ownershipId grant' = ta_ownershipId grant
            /\ ta_recipientAddress grant' = ta_recipientAddress grant
            /\ ta_expiresAt grant' = ta_expiresAt grant
            /\ ta_createdAt grant' = ta_createdAt grant
            /\ (ta_isActive grant = false -> ta_isActive grant' = false)).
  { exists grant. now repeat split. }
  assert (Hfresh : id <> temporaryAccessId s).
  { destruct Hok as (_ & _ & Hbelow).
    specialize (Hbelow id grant (JsMapFacts.get_In _ _ _ Hget)). lia. }
  assert (Hnew : forall v,
            exists grant',
              JsMap.get id (JsMap.set (temporaryAccessId s) v
                              (temporaryAccesses s)) = Some grant'
              /\ ta_id grant' = ta_id grant
              /\ ta_ownershipId grant' = ta_ownershipId grant
              /\ ta_recipientAddress grant' = ta_recipientAddress grant
              /\ ta_expiresAt grant' = ta_expiresAt grant
              /\ ta_createdAt grant' = ta_createdAt grant
              /\ (ta_isActive grant = false -> ta_isActive grant' = false)).
  { intros v. exists grant.
    rewrite JsMapFacts.get_set_other by assumption. now repeat split. }
  destruct r as [w|c|b|oid w e|[rid|]|b|[rid|] status]; simpl.
  - unfold connect_wallet. destruct (negb (truthy_string w)); [exact Hsame|].
    destruct (getUserByWalletAddress (toLowerCase w) s) as [u|];
      [|exact Hsame].
    destruct (negb _); [|exact Hsame].
    unfold updateUser_walletAddress.
    destruct (JsMap.get (u_id u) (users s)); exact Hsame.
  - unfold post_courses. destruct (negb _); exact Hsame.
  - unfold nft_mint. destruct (negb _); [exact Hsame|].
    destruct (getCourse _ s); [|exact Hsame].
    destruct (getNftOwnershipByCourseAndOwner _ _ s); exact Hsame.
  - unfold access_share. destruct (negb (truthy_string w)); [exact Hsame|].
    destruct (negb (integer_column oid)); [exact Hsame|].
    cbn [ita_ownershipId].
    destruct (getNftOwnership oid s); [|exact Hsame].
    destruct (getActiveTemporaryAccess now oid (toLowerCase w) s);
      [exact Hsame|].
    simpl. apply Hnew.
  - unfold deactivateTemporaryAccess.
    destruct (JsMap.get rid (temporaryAccesses s)) as [g|] eqn:Hrid;
      [|exact Hsame].
    simpl. destruct (Z.eq_dec id rid) as [->|Hne].
    + rewrite JsMapFacts.get_set_same. eexists. split; [reflexivity|].
      assert (g = grant) by congruence. subst g. now repeat split.
    + rewrite JsMapFacts.get_set_other by assumption. exact Hsame.
  - exact Hsame.
  - unfold access_requests_create. destruct (negb _); exact Hsame.
  - unfold access_request_status, access_request_status_with.
    destruct (negb (truthy_string status) || negb (status_value status));
      [exact Hsame|].
    destruct (getAccessRequestById rid s) as [request|] eqn:Hreq;
      [|exact Hsame].
    unfold updateAccessRequestStatus. unfold getAccessRequestById in Hreq.
    rewrite Hreq.
    destruct (String.eqb status "approved"); [|exact Hsame].
    destruct (getUserByWalletAddress _ _); [|exact Hsame].
    destruct (getNftOwnershipByCourseAndOwner _ _ _); [|exact Hsame].
    simpl. apply Hnew.
  - exact Hsame.
Qed.

(** X2. Along every history that starts in a well-formed store, a grant is
    never removed and never altered except for revocation: it stays under its
    identifier with the same ownership, recipient, expiry and creation date,
    and once its [isActive] is [false] it is [false] for ever (no request
    re-activates a grant or extends an expiry). *)
Theorem grants_are_only_ever_revoked :
  forall zone history s id grant,
    store_ok s ->
    JsMap.get id (temporaryAccesses s) = Some grant ->
    exists grant',
      JsMap.get id (temporaryAccesses (run zone history s)) = Some grant'
      /\ ta_id grant' = ta_id grant
      /\ ta_ownershipId grant' = ta_ownershipId grant
      /\ ta_recipientAddress grant' = ta_recipientAddress grant
      /\ ta_expiresAt grant' = ta_expiresAt grant
      /\ ta_createdAt grant' = ta_createdAt grant
      /\ (ta_isActive grant = false -> ta_isActive grant' = false).
Proof.
  induction history as [|[now r] rest IH]; simpl; intros s id grant Hok Hget.
  - exists grant. now repeat split.
  - destruct (handle_keeps_grant zone now r s id grant) as
      (g1 & Hg1 & E1 & E2 & E3 & E4 & E5 & E6);
      [apply Hok | assumption |].
    destruct (IH (snd (handle zone now r s)) id g1) as
      (g2 & Hg2 & F1 & F2 & F3 & F4 & F5 & F6);
      [now apply handle_keeps_store_ok | assumption |].
    exists g2. split; [assumption|].
    repeat split; try congruence. intros H. apply F6, E6, H.
Qed.

(** Grant 1 of [shared_store], once revoked, is inactive after a new share
    to the same recipient and an attempt to approve an unknown request. *)
Lemma grants_are_only_ever_revoked_witness :
  option_map ta_isActive
    (JsMap.get 1
       (temporaryAccesses
          (run utc [ (60, AccessShare 1 "0xabcdef" 5000);
                     (70, AccessRequestStatus (Some 9) "approved") ]
               (snd (access_revoke (Some 1) shared_store)))))
  = Some false.
Proof.
  destruct (grants_are_only_ever_revoked utc
              [ (60, AccessShare 1 "0xabcdef" 5000);
                (70, AccessRequestStatus (Some 9) "approved") ]
              (snd (access_revoke (Some 1) shared_store)) 1
              {| ta_id := 1; ta_ownershipId := 1;
                 ta_recipientAddress := "0xabcdef";
                 ta_expiresAt := TimeValue 1000;
                 ta_isActive := false; ta_createdAt := 40 |})
    as (g & Hg & _ & _ & _ & _ & _ & Hinactive).
  - apply (handle_keeps_store_ok utc 50 (AccessRevoke (Some 1))).
    apply shared_store_ok.
  - reflexivity.
  - rewrite Hg. simpl. now rewrite Hinactive.
Defined.

(** ** The ownership ledger *)

Lemma filter_set_length {V} (p : V -> bool) k v (m : JsMap.t V) :
  (List.length (filter p (JsMap.values (JsMap.set k v m)))
   <= List.length (filter p (JsMap.values m)) + (if p v then 1 else 0))%nat.
Proof.
  induction m as [|[k1 v1] rest IH]; simpl.
  - destruct (p v); simpl; lia.
  - destruct (k =? k1); simpl.
    + destruct (p v), (p v1); simpl; lia.
    + fold (JsMap.values (JsMap.set k v rest)).
      fold (JsMap.values rest).
      destruct (p v1); simpl; lia.
Qed.

(** A request leaves the ownerships alone, or it is a mint that found the
    course and no ownership of it by the owner. *)
Lemma handle_ownerships zone now r s :
  ownerships (snd (handle zone now r s)) = ownerships s
  \/ exists body course,
       r = NftMint body
       /\ getCourse (io_courseId body) s = Some course
       /\ getNftOwnershipByCourseAndOwner
            (io_courseId body) (io_ownerId body) s = None
       /\ snd (handle zone now r s) = snd (createNftOwnership now body s).
Proof.
  destruct r as [w|c|b|oid w e|[rid|]|b|[rid|] status]; simpl.
  - left. unfold connect_wallet. destruct (negb (truthy_string w));
      [reflexivity|].
    destruct (getUserByWalletAddress (toLowerCase w) s) as [u|];
      [|reflexivity].
    destruct (negb _); [|reflexivity].
    unfold updateUser_walletAddress.
    destruct (JsMap.get (u_id u) (users s)); reflexivity.
  - left. unfold post_courses. destruct (negb _); reflexivity.
  - unfold nft_mint. destruct (negb _); [now left|].
    destruct (getCourse _ s) as [course|] eqn:Hc; [|now left].
    destruct (getNftOwnershipByCourseAndOwner _ _ s) eqn:Hn; [now left|].
    right. exists b, course. now repeat split.
  - left. unfold access_share. destruct (negb (truthy_string w));
      [reflexivity|].
    destruct (negb (integer_column oid)); [reflexivity|].
    cbn [ita_ownershipId].
    destruct (getNftOwnership oid s); [|reflexivity].
    destruct (getActiveTemporaryAccess now oid (toLowerCase w) s);
      reflexivity.
  - left. unfold deactivateTemporaryAccess.
    destruct (JsMap.get rid (temporaryAccesses s)); reflexivity.
  - now left.
  - left. unfold access_requests_create. destruct (negb _); reflexivity.
  - left. unfold access_request_status, access_request_status_with.
    destruct (negb (truthy_string status) || negb (status_value status));
      [reflexivity|].
    destruct (getAccessRequestById rid s) as [request|] eqn:Hreq;
      [|reflexivity].
    unfold updateAccessRequestStatus. unfold getAccessRequestById in Hreq.
    rewrite Hreq.
    destruct (String.eqb status "approved"); [|reflexivity].
    destruct (getUserByWalletAddress _ _); [|reflexivity].
    destruct (getNftOwnershipByCourseAndOwner _ _ _); reflexivity.
  - now left.
Qed.

Lemma handle_keeps_one_ownership_per_owner zone now r s :
  one_ownership_per_owner s ->
  one_ownership_per_owner (snd (handle zone now r s)).
Proof.
  intros Hinv cid oid. unfold ownerships_of.
  destruct (handle_ownerships zone now r s)
    as [->|(body & course & -> & _ & Hnone & ->)]; [apply Hinv|].
  cbn [snd createNftOwnership ownerships with_ownerships].
  match goal with
  | |- context [JsMap.set ?k ?v _] =>
      pose proof (filter_set_length
                    (fun ownership =>
                       (o_courseId ownership =? cid)
                       && (o_ownerId ownership =? oid))
                    k v (ownerships s)) as Hlen;
      cbv beta in Hlen; cbn [o_courseId o_ownerId] in Hlen
  end.
  destruct ((io_courseId body =? cid) && (io_ownerId body =? oid)) eqn:Hnew.
  - apply andb_true_iff in Hnew. destruct Hnew as [Hc Ho].
    apply Z.eqb_eq in Hc. apply Z.eqb_eq in Ho. subst cid oid.
    unfold getNftOwnershipByCourseAndOwner in Hnone.
    apply find_none_filter_nil in Hnone. rewrite Hnone in Hlen.
    exact Hlen.
  - specialize (Hinv cid oid). unfold ownerships_of in Hinv. lia.
Qed.

(** X3. At most one ownership per course and owner: every request keeps this
    invariant of the ledger, so it holds in every store reached by a history
    of requests. *)
Theorem reachable_one_ownership_per_owner :
  (forall zone now r s,
     one_ownership_per_owner s ->
     one_ownership_per_owner (snd (handle zone now r s)))
  /\ (forall s, reachable s -> one_ownership_per_owner s).
Proof.
  split; [apply handle_keeps_one_ownership_per_owner|].
  intros s (zone & start & history & _ & <-).
  assert (Hgen : forall h s0, one_ownership_per_owner s0 ->
                   one_ownership_per_owner (run zone h s0)).
  { induction h as [|[now r] rest IH]; simpl; intros s0 H0; [exact H0|].
    apply IH. now apply handle_keeps_one_ownership_per_owner. }
  apply Hgen. intros cid oid. simpl. lia.
Qed.

(** After a second mint of course 1 for owner 1 the ledger still holds at
    most one ownership of the course by that owner. *)
Lemma reachable_one_ownership_per_owner_witness :
  (List.length
     (ownerships_of 1 1
        (run utc [ (10, ConnectWallet "0xA11CE");
                   (20, PostCourses {| ic_title := "Rocq"; ic_creatorId := 1;
                                       ic_isPublished := Some true |});
                   (30, NftMint {| io_courseId := 1; io_ownerId := 1;
                                   io_tokenId := "token-1";
                                   io_transactionHash := None |});
                   (50, NftMint {| io_courseId := 1; io_ownerId := 1;
                                   io_tokenId := "token-2";
                                   io_transactionHash := None |}) ]
             newMemStorage)%Z)
   <= 1)%nat.
Proof.
  destruct reachable_one_ownership_per_owner as [_ Hreach].
  apply Hreach. exists utc, 0. eexists. split; [|reflexivity]. reflexivity.
Defined.

(** X4. Ownership is permanent: along every history that starts in a
    well-formed store, an ownership stays in the ledger under its identifier,
    unchanged (no request deletes or rewrites an ownership). *)
Theorem ownerships_are_permanent :
  forall zone history s id ownership,
    store_ok s ->
    JsMap.get id (ownerships s) = Some ownership ->
    JsMap.get id (ownerships (run zone history s)) = Some ownership.
Proof.
  induction history as [|[now r] rest IH]; simpl; intros s id o Hok Hget;
    [exact Hget|].
  apply IH; [now apply handle_keeps_store_ok|].
  destruct (handle_ownerships zone now r s)
    as [->|(body & course & _ & _ & _ & ->)]; [exact Hget|].
  cbn [snd createNftOwnership ownerships with_ownerships].
  rewrite JsMapFacts.get_set_other; [exact Hget|].
  destruct Hok as (_ & _ & (_ & _ & Hbelow) & _).
  specialize (Hbelow id o (JsMapFacts.get_In _ _ _ Hget)). lia.
Qed.

Lemma ownerships_are_permanent_witness :
  option_map o_ownerId
    (JsMap.get 1
       (ownerships
          (run utc [ (50, NftMint {| io_courseId := 1; io_ownerId := 2;
                                     io_tokenId := "token-2";
                                     io_transactionHash := None |});
                     (60, AccessRevoke (Some 1)) ]
               shared_store)))
  = Some 1.
Proof.
  rewrite (ownerships_are_permanent utc
             [ (50, NftMint {| io_courseId := 1; io_ownerId := 2;
                               io_tokenId := "token-2";
                               io_transactionHash := None |});
               (60, AccessRevoke (Some 1)) ]
             shared_store 1
             {| o_id := 1; o_courseId := 1; o_ownerId := 1;
                o_tokenId := "token-1"; o_mintedAt := 30;
                o_transactionHash := None |});
    [reflexivity | apply shared_store_ok | reflexivity].
Defined.

(** X5. Minting a course that exists for an owner who does not hold it yet
    succeeds (HTTP 201) and records the ownership under the next identifier
    with [mintedAt = now]; nothing is asked of the owner id, which need not
    be a user. A second mint of the same course for the same owner, whatever
    its token, is refused (HTTP 400, "User already owns this course NFT") and
    leaves the store as it is. A mint of a course that does not exist is
    answered 404 and changes nothing either. *)
Theorem second_mint_refused :
  forall t1 t2 body body' s course,
    integer_column (io_courseId body) = true ->
    integer_column (io_ownerId body) = true ->
    getCourse (io_courseId body) s = Some course ->
    getNftOwnershipByCourseAndOwner (io_courseId body) (io_ownerId body) s
    = None ->
    io_courseId body' = io_courseId body ->
    io_ownerId body' = io_ownerId body ->
    exists ownership s1,
      nft_mint t1 body s = ((201, OwnershipJson ownership), s1)
      /\ getNftOwnership (ownershipId s) s1 = Some ownership
      /\ getNftOwnershipByCourseAndOwner
           (io_courseId body) (io_ownerId body) s1 = Some ownership
      /\ o_id ownership = ownershipId s
      /\ o_courseId ownership = io_courseId body
      /\ o_ownerId ownership = io_ownerId body
      /\ o_tokenId ownership = io_tokenId body
      /\ o_mintedAt ownership = t1
      /\ nft_mint t2 body' s1
         = ((400, Message "User already owns this course NFT"), s1)
      /\ (forall t3 body3,
            integer_column (io_courseId body3) = true ->
            integer_column (io_ownerId body3) = true ->
            getCourse (io_courseId body3) s1 = None ->
            nft_mint t3 body3 s1 = ((404, Message "Course not found"), s1)).
Proof.
  intros t1 t2 body body' s course Hc Ho Hcourse Hnone Hc' Ho'.
  eexists. eexists. split.
  { unfold nft_mint. rewrite Hc, Ho, Hcourse, Hnone. reflexivity. }
  simpl.
  assert (Hfound :
    getNftOwnershipByCourseAndOwner (io_courseId body) (io_ownerId body)
      (with_ownerships
         (JsMap.set (ownershipId s)
            {| o_id := ownershipId s; o_courseId := io_courseId body;
               o_ownerId := io_ownerId body; o_tokenId := io_tokenId body;
               o_mintedAt := t1;
               o_transactionHash := or_null (io_transactionHash body) |}
            (ownerships s)) (ownershipId s + 1) s)
    = Some {| o_id := ownershipId s; o_courseId := io_courseId body;
              o_ownerId := io_ownerId body; o_tokenId := io_tokenId body;
              o_mintedAt := t1;
              o_transactionHash := or_null (io_transactionHash body) |}).
  { unfold getNftOwnershipByCourseAndOwner. simpl.
    apply JsMapFacts.find_set_new.
    - now apply find_none.
    - simpl. now rewrite !Z.eqb_refl. }
  split; [apply JsMapFacts.get_set_same|].
  split; [exact Hfound|].
  do 5 (split; [reflexivity|]).
  split.
  - unfold nft_mint. rewrite Hc', Ho', Hc, Ho. simpl.
    unfold getCourse in *. simpl. rewrite Hcourse.
    now rewrite Hfound.
  - intros t3 body3 Hc3 Ho3 Hmissing. unfold nft_mint.
    now rewrite Hc3, Ho3, Hmissing.
Qed.

(** User 2 mints course 1 of [shared_store], then tries again with another
    token. *)
Lemma second_mint_refused_witness :
  fst (fst (nft_mint 50 {| io_courseId := 1; io_ownerId := 2;
                           io_tokenId := "token-2";
                           io_transactionHash := None |} shared_store))
  = 201
  /\ fst (nft_mint 60 {| io_courseId := 1; io_ownerId := 2;
                         io_tokenId := "token-3";
                         io_transactionHash := Some "0xfeed" |}
            (snd (nft_mint 50 {| io_courseId := 1; io_ownerId := 2;
                                 io_tokenId := "token-2";
                                 io_transactionHash := None |} shared_store)))
     = (400, Message "User already owns this course NFT").
Proof.
  destruct (second_mint_refused 50 60
              {| io_courseId := 1; io_ownerId := 2; io_tokenId := "token-2";
                 io_transactionHash := None |}
              {| io_courseId := 1; io_ownerId := 2; io_tokenId := "token-3";
                 io_transactionHash := Some "0xfeed" |}
              shared_store
              {| c_id := 1; c_title := "Rocq"; c_creatorId := 1;
                 c_isPublished := Some true; c_createdAt := 20 |})
    as (o & s1 & Hmint & _ & _ & _ & _ & _ & _ & _ & Hsecond & _);
    try reflexivity.
  rewrite Hmint. simpl. now rewrite Hsecond.
Defined.



(** ** Approval that makes the grant *)

Lemma checkTemporaryAccess_normalized now cid w s :
  checkTemporaryAccess now cid (toLowerCase w) s
  = checkTemporaryAccess now cid w s.
Proof.
  unfold checkTemporaryAccess. now rewrite toLowerCase_idempotent.
Qed.

(** The date that [add_days] computes: days of 24 hours, corrected by the
    change of the zone's offset between the two dates. *)
Lemma add_days_offsets zone now days :
  add_days zone now days
  = TimeClip (now + days * msPerDay
              + (LocalTZA zone now true
                 - LocalTZA zone (LocalTime zone now + days * msPerDay) false)).
Proof.
  unfold add_days, UTC, LocalTime. f_equal. lia.
Qed.

(** X7. Approving a stored request whose owner address resolves to a user
    holding an ownership of the course answers 200 with [accessGranted: true]
    and stores, under the next identifier, an active grant of that ownership
    to the requester, which expires at the date that [setDate] makes of [now]
    and the requested days. While that date lies ahead the requester passes
    the access check of the course; from that date on, and at every time
    when the date is an Invalid Date, the grant is not effectively active.
    The date is [requestDuration] days of 24 hours after [now], corrected by
    the change of the offset of the server's time zone between the two
    dates, and an Invalid Date when that lies more than 8.64e15 milliseconds
    from the epoch. So where the offset is the same at both dates the grant
    runs for exactly [requestDuration * 86400000] milliseconds, a request of
    no days or fewer gives a grant that is born expired, and a request of
    too many days gives a grant that never opens anything, the answer saying
    [accessGranted: true] all the same. *)
Theorem approval_gives_access_for_the_requested_days :
  forall zone now id s request user ownership,
    getAccessRequestById id s = Some request ->
    getUserByWalletAddress (ar_ownerAddress request) s = Some user ->
    getNftOwnershipByCourseAndOwner (ar_courseId request) (u_id user) s
    = Some ownership ->
    let days := ar_requestDuration request in
    let expiresAt := add_days zone now days in
    let grant :=
      {| ta_id := temporaryAccessId s;
         ta_ownershipId := o_id ownership;
         ta_recipientAddress := ar_requesterAddress request;
         ta_expiresAt := expiresAt;
         ta_isActive := true;
         ta_createdAt := now |} in
    let result := access_request_status zone now (Some id) "approved" s in
    fst result
    = (200,
       ApprovalJson (Some (with_status "approved" now request)) true
         (Some expiresAt) None)
    /\ JsMap.get (temporaryAccessId s) (temporaryAccesses (snd result))
       = Some grant
    /\ (forall t now', expiresAt = TimeValue t -> now' < t ->
          checkTemporaryAccess now' (ar_courseId request)
            (ar_requesterAddress request) (snd result) = true)
    /\ (forall t now', expiresAt = TimeValue t -> now' < t ->
          ar_courseId request <> 0 -> ar_requesterAddress request <> "" ->
          exists accessType,
            access_check now' (ar_courseId request)
              (ar_requesterAddress request) (snd result)
            = (200, CheckJson true (Some accessType)))
    /\ (forall t now', expiresAt = TimeValue t -> t <= now' ->
          isEffectivelyActive grant now' = false)
    /\ (expiresAt = InvalidDate ->
        forall now', isEffectivelyActive grant now' = false)
    /\ expiresAt
       = TimeClip (now + days * msPerDay
                   + (LocalTZA zone now true
                      - LocalTZA zone (LocalTime zone now + days * msPerDay)
                          false))
    /\ (LocalTZA zone (LocalTime zone now + days * msPerDay) false
        = LocalTZA zone now true ->
        (Z.abs (now + days * msPerDay) <= 8640000000000000 ->
         expiresAt = TimeValue (now + days * msPerDay))
        /\ (8640000000000000 < Z.abs (now + days * msPerDay) ->
            expiresAt = InvalidDate)
        /\ (days <= 0 ->
            forall now',
              now <= now' -> isEffectivelyActive grant now' = false)).
Proof.
  intros zone now id s request user ownership Hget Huser Hown days expiresAt
    grant result.
  destruct (updateAccessRequestStatus_found now id "approved" s request Hget)
    as (s1 & Hupd & _ & _ & Hu & _ & Ho & Ht & Hn).
  assert (Hresult :
    result
    = ((200,
        ApprovalJson (Some (with_status "approved" now request)) true
          (Some expiresAt) None),
       with_temporaryAccesses
         (JsMap.set (temporaryAccessId s) grant (temporaryAccesses s))
         (temporaryAccessId s + 1) s1)).
  { subst result. unfold access_request_status, access_request_status_with.
    simpl. rewrite Hget, Hupd. simpl.
    rewrite (getUserByWalletAddress_users _ s s1 Hu), Huser.
    rewrite (getNftOwnershipByCourseAndOwner_ownerships _ _ s s1 Ho), Hown.
    unfold createTemporaryAccess. simpl. now rewrite Ht, Hn. }
  rewrite Hresult. cbn [fst snd].
  assert (Hcheck : forall t now', expiresAt = TimeValue t -> now' < t ->
            checkTemporaryAccess now' (ar_courseId request)
              (ar_requesterAddress request)
              (with_temporaryAccesses
                 (JsMap.set (temporaryAccessId s) grant (temporaryAccesses s))
                 (temporaryAccessId s + 1) s1) = true).
  { intros t now' Hdate Hlt. rewrite checkTemporaryAccess_live_for. simpl.
    rewrite Ho.
    destruct (find_some _ _ Hown) as [Hin Htest].
    apply owns_test in Htest. destruct Htest as [Hoc _].
    apply existsb_exists. exists ownership. split.
    - apply filter_In. split; [assumption | now apply Z.eqb_eq].
    - apply existsb_exists. exists grant. split.
      + apply JsMapFacts.In_values. exists (temporaryAccessId s).
        apply JsMapFacts.get_In, JsMapFacts.get_set_same.
      + unfold live_for, isEffectivelyActive. simpl.
        rewrite Z.eqb_refl, String.eqb_refl, Hdate. simpl.
        now apply Z.ltb_lt. }
  assert (Hformula :
    expiresAt
    = TimeClip (now + days * msPerDay
                + (LocalTZA zone now true
                   - LocalTZA zone (LocalTime zone now + days * msPerDay)
                       false))).
  { apply add_days_offsets. }
  split; [reflexivity|].
  split; [simpl; apply JsMapFacts.get_set_same|].
  split; [exact Hcheck|].
  split; [|split; [|split; [|split; [exact Hformula|]]]].
  - intros t now' Hdate Hlt Hc Hw. unfold access_check.
    apply Z.eqb_neq in Hc. rewrite Hc, (truthy_string_true _ Hw). simpl.
    match goal with
    | |- context [match ?d with Some _ => _ | None => _ end] =>
        destruct d; [now exists owner|]
    end.
    exists temporary.
    now rewrite checkTemporaryAccess_normalized, (Hcheck t).
  - intros t now' Hdate Hle. unfold isEffectivelyActive. simpl.
    rewrite Hdate. simpl. now apply Z.ltb_ge.
  - intros Hdate now'. unfold isEffectivelyActive. simpl. now rewrite Hdate.
  - intros Hsame. rewrite Hsame in Hformula.
    replace (now + days * msPerDay
             + (LocalTZA zone now true - LocalTZA zone now true))
      with (now + days * msPerDay) in Hformula by lia.
    unfold TimeClip in Hformula.
    split; [|split].
    + intros Hin. rewrite Hformula.
      now replace (8640000000000000 <? Z.abs (now + days * msPerDay))
        with false by (symmetry; apply Z.ltb_ge; lia).
    + intros Hout. rewrite Hformula.
      now replace (8640000000000000 <? Z.abs (now + days * msPerDay))
        with true by (symmetry; apply Z.ltb_lt; lia).
    + intros Hdays now' Hle. unfold isEffectivelyActive. simpl.
      rewrite Hformula.
      destruct (8640000000000000 <? Z.abs (now + days * msPerDay));
        [reflexivity|].
      simpl. apply Z.ltb_ge. unfold msPerDay. lia.
Qed.

(** A request of [0xB0B] for seven days, approved at time 60 on a server in
    UTC: access on the sixth day. The same request approved at time 60 where
    the clocks go back by one hour at time 1000: the grant runs for seven
    days and one hour. A request for 100000000 days: the answer says
    [accessGranted: true] with a [null] expiry, and the grant is never
    live. *)
Lemma approval_gives_access_for_the_requested_days_witness :
  access_check (60 + 6 * msPerDay) 1 "0xb0b" approved_store
  = (200, CheckJson true (Some temporary))
  /\ add_days (clocks_go_back 1000) 60 7
     = TimeValue (60 + 7 * msPerDay + 3600000)
  /\ (fst (access_request_status utc 60 (Some 1) "approved"
             (requested_store 100000000))
      = (200,
         ApprovalJson
           (Some (with_status "approved" 60
                    (stored_request 100000000)))
           true (Some InvalidDate) None)
      /\ forall now',
           isEffectivelyActive
             {| ta_id := 1; ta_ownershipId := 1;
                ta_recipientAddress := "0xb0b"; ta_expiresAt := InvalidDate;
                ta_isActive := true; ta_createdAt := 60 |} now' = false).
Proof.
  pose proof (approval_gives_access_for_the_requested_days utc 60 1
                (requested_store 7) (stored_request 7)
                {| u_id := 1; u_username := "user_10"; u_password := "pw_10";
                   u_walletAddress := Some "0xa11ce"; u_isCreator := None;
                   u_createdAt := 10 |}
                {| o_id := 1; o_courseId := 1; o_ownerId := 1;
                   o_tokenId := "token-1"; o_mintedAt := 30;
                   o_transactionHash := None |}
                eq_refl eq_refl eq_refl)
    as (_ & _ & _ & Hcheck & _).
  pose proof (approval_gives_access_for_the_requested_days
                (clocks_go_back 1000) 60 1
                (requested_store 7) (stored_request 7)
                {| u_id := 1; u_username := "user_10"; u_password := "pw_10";
                   u_walletAddress := Some "0xa11ce"; u_isCreator := None;
                   u_createdAt := 10 |}
                {| o_id := 1; o_courseId := 1; o_ownerId := 1;
                   o_tokenId := "token-1"; o_mintedAt := 30;
                   o_transactionHash := None |}
                eq_refl eq_refl eq_refl)
    as (_ & _ & _ & _ & _ & _ & Hformula & _).
  pose proof (approval_gives_access_for_the_requested_days utc 60 1
                (requested_store 100000000) (stored_request 100000000)
                {| u_id := 1; u_username := "user_10"; u_password := "pw_10";
                   u_walletAddress := Some "0xa11ce"; u_isCreator := None;
                   u_createdAt := 10 |}
                {| o_id := 1; o_courseId := 1; o_ownerId := 1;
                   o_tokenId := "token-1"; o_mintedAt := 30;
                   o_transactionHash := None |}
                eq_refl eq_refl eq_refl)
    as (Hanswer & _ & _ & _ & _ & Hnever & _ & Hsame).
  split; [|split; [|split]].
  - destruct (Hcheck (60 + 7 * msPerDay) (60 + 6 * msPerDay))
      as [accessType Ha];
      [reflexivity | reflexivity | discriminate | discriminate |].
    change approved_store with
      (snd (access_request_status utc 60 (Some 1) "approved"
              (requested_store 7))).
    simpl ar_courseId in Ha. simpl ar_requesterAddress in Ha.
    rewrite Ha. f_equal. f_equal.
    vm_compute in Ha. now inversion Ha.
  - exact Hformula.
  - destruct (Hsame eq_refl) as (_ & Hinvalid & _).
    pose proof (Hinvalid eq_refl) as Hdate. cbv zeta in Hdate.
    rewrite Hanswer. cbv zeta. now rewrite Hdate.
  - intros now'.
    destruct (Hsame eq_refl) as (_ & Hinvalid & _).
    pose proof (Hnever (Hinvalid eq_refl) now') as Hdead.
    cbv zeta in Hdead. exact Hdead.
Defined.

(** ** Connecting a wallet *)

Lemma toLowerCase_truthy_same w :
  truthy_string (toLowerCase w) = truthy_string w.
Proof.
  now destruct w.
Qed.

(** Writing a matching row over the first match keeps it the first match. *)
Lemma find_set_found {V} (id_of : V -> Z) (p : V -> bool) v v'
    (m : JsMap.t V) :
  keys_are_ids id_of m ->
  find p (JsMap.values m) = Some v ->
  p v' = true ->
  find p (JsMap.values (JsMap.set (id_of v) v' m)) = Some v'.
Proof.
  induction m as [|[k1 v1] rest IH]; simpl; intros Hids Hfind Hp;
    [discriminate|].
  destruct (p v1) eqn:Hp1.
  - inversion Hfind; subst v1. rewrite (Hids k1 v) by now left.
    rewrite Z.eqb_refl. simpl. now rewrite Hp.
  - destruct (id_of v =? k1); simpl; [now rewrite Hp|].
    rewrite Hp1. apply IH; try assumption.
    intros k x Hin. apply Hids. now right.
Qed.

(** X8. Connecting a wallet is idempotent up to the case of the address: in a
    store whose users are well formed, the first connection of a non-empty
    address answers 200 with a user whose stored wallet is the lower-case
    address (a new user, or the registered one, rewritten if its stored
    spelling differed); connecting again with any spelling of the same
    address answers with the same user and changes nothing, so no second
    user is created for the address. *)
Theorem connect_wallet_twice :
  forall t1 t2 a b s,
    a <> "" -> toLowerCase a = toLowerCase b ->
    map_ok u_id (userId s) (users s) ->
    exists u,
      fst (connect_wallet t1 a s) = (200, UserJson (Some u))
      /\ u_walletAddress u = Some (toLowerCase a)
      /\ getUserByWalletAddress b (snd (connect_wallet t1 a s)) = Some u
      /\ connect_wallet t2 b (snd (connect_wallet t1 a s))
         = ((200, UserJson (Some u)), snd (connect_wallet t1 a s)).
Proof.
  intros t1 t2 a b s Ha Hcase Hok.
  assert (Hb : truthy_string b = true).
  { rewrite <- (toLowerCase_truthy a b Hcase). now apply truthy_string_true. }
  assert (Hmatch : forall u,
            u_walletAddress u = Some (toLowerCase a) ->
            wallet_matches (toLowerCase a) u = true).
  { intros u Hu. unfold wallet_matches. rewrite Hu.
    apply String.eqb_refl. }
  assert (Hsecond : forall s1 u,
            getUserByWalletAddress (toLowerCase a) s1 = Some u ->
            u_walletAddress u = Some (toLowerCase a) ->
            getUserByWalletAddress b s1 = Some u
            /\ connect_wallet t2 b s1 = ((200, UserJson (Some u)), s1)).
  { intros s1 u Hfind Hwallet. split.
    - rewrite <- Hfind. unfold getUserByWalletAddress.
      apply find_pointwise. intros x. unfold wallet_matches.
      now rewrite toLowerCase_idempotent, Hcase.
    - unfold connect_wallet. rewrite Hb, <- Hcase. simpl.
      rewrite Hfind, Hwallet. now rewrite String.eqb_refl. }
  assert (Hfirst : exists u s1,
            connect_wallet t1 a s = ((200, UserJson (Some u)), s1)
            /\ u_walletAddress u = Some (toLowerCase a)
            /\ getUserByWalletAddress (toLowerCase a) s1 = Some u).
  { unfold connect_wallet. rewrite (truthy_string_true a Ha). simpl.
    destruct (getUserByWalletAddress (toLowerCase a) s) as [u0|] eqn:Hfind.
    - destruct (u_walletAddress u0) as [w0|] eqn:Hw0.
      + destruct (String.eqb w0 (toLowerCase a)) eqn:Hsame; simpl.
        * apply String.eqb_eq in Hsame. subst w0.
          exists u0, s. now repeat split.
        * unfold updateUser_walletAddress.
          rewrite (getUserByWalletAddress_get u0 _ s Hok Hfind). simpl.
          eexists. eexists. split; [reflexivity|]. split; [reflexivity|].
          unfold getUserByWalletAddress in *. simpl.
          apply (find_set_found u_id); [apply Hok | assumption |].
          now apply Hmatch.
      + exfalso. unfold getUserByWalletAddress in Hfind.
        apply find_some in Hfind. destruct Hfind as [_ Hm].
        unfold wallet_matches in Hm. rewrite Hw0 in Hm. discriminate.
    - unfold createUser. simpl.
      rewrite toLowerCase_truthy_same, (truthy_string_true a Ha).
      eexists. eexists. split; [reflexivity|]. split; [reflexivity|].
      unfold getUserByWalletAddress in *. simpl.
      apply JsMapFacts.find_set_new; [now apply find_none|].
      now apply Hmatch. }
  destruct Hfirst as (u & s1 & -> & Hwallet & Hfound). cbn [fst snd].
  exists u. split; [reflexivity|]. split; [assumption|].
  now apply Hsecond.
Qed.

Lemma connect_wallet_twice_witness :
  connect_wallet 20 "0xa11ce" (snd (connect_wallet 10 "0xA11CE" newMemStorage))
  = (fst (connect_wallet 10 "0xA11CE" newMemStorage),
     snd (connect_wallet 10 "0xA11CE" newMemStorage)).
Proof.
  destruct (connect_wallet_twice 10 20 "0xA11CE" "0xa11ce" newMemStorage)
    as (u & Hfirst & _ & _ & Hsecond);
    [discriminate | reflexivity | apply map_ok_empty |].
  now rewrite Hsecond, Hfirst.
Defined.

(** ** Revoking twice *)

(** X9. Revocation is idempotent: a second revocation of the same identifier
    gives the same answer as the first and leaves the store exactly as the
    first left it, whether or not the identifier holds a grant. *)
Theorem revoke_twice :
  forall id s,
    access_revoke (Some id) (snd (access_revoke (Some id) s))
    = (fst (access_revoke (Some id) s), snd (access_revoke (Some id) s)).
Proof.
  intros id s. unfold access_revoke, deactivateTemporaryAccess.
  destruct (JsMap.get id (temporaryAccesses s)) as [g|] eqn:Hget; simpl.
  - rewrite JsMapFacts.get_set_same. simpl.
    now rewrite JsMapFacts.set_set.
  - now rewrite Hget.
Qed.

(** ** The listing of shared courses *)

Lemma values_get {V} (id_of : V -> Z) next (m : JsMap.t V) v :
  map_ok id_of next m -> In v (JsMap.values m) ->
  JsMap.get (id_of v) m = Some v.
Proof.
  intros (Hwf & Hids & _) Hin.
  apply JsMapFacts.In_values in Hin. destruct Hin as [k Hin].
  rewrite (Hids k v Hin). now apply JsMapFacts.In_get.
Qed.

Lemma get_values {V} k v (m : JsMap.t V) :
  JsMap.get k m = Some v -> In v (JsMap.values m).
Proof.
  intros H. apply JsMapFacts.In_values. exists k.
  now apply JsMapFacts.get_In.
Qed.

(** The test of [getSharedCoursesForWallet] on a grant. *)
Lemma shared_test now normalized a :
  String.eqb (toLowerCase (ta_recipientAddress a)) normalized
  && ta_isActive a && date_gt (ta_expiresAt a) now = true
  <-> toLowerCase (ta_recipientAddress a) = normalized
      /\ isEffectivelyActive a now = true.
Proof.
  unfold isEffectivelyActive.
  rewrite !andb_true_iff, String.eqb_eq. tauto.
Qed.

(** X10. In a well-formed store the listing of shared courses and the access
    check agree: a course of the store is listed for a wallet exactly when
    the wallet passes the temporary-access check of that course; and every
    listed entry names a stored grant to that wallet that is effectively
    active, with the grant's identifier and expiry. *)
Theorem shared_listing_agrees_with_check :
  forall now w s,
    store_ok s ->
    (forall cid course,
       getCourse cid s = Some course ->
       (checkTemporaryAccess now cid w s = true
        <-> exists shared,
              In shared (getSharedCoursesForWallet now w s)
              /\ sc_course shared = course))
    /\ (forall shared,
          In shared (getSharedCoursesForWallet now w s) ->
          exists grant,
            JsMap.get (sc_shareId shared) (temporaryAccesses s) = Some grant
            /\ toLowerCase (ta_recipientAddress grant) = toLowerCase w
            /\ isEffectivelyActive grant now = true
            /\ sc_expiresAt shared = ta_expiresAt grant
            /\ exists expiresAt,
                 sc_expiresAt shared = TimeValue expiresAt
                 /\ now < expiresAt).
Proof.
  intros now w s (_ & Hc & Ho & Ht & _). split.
  - intros cid course Hcourse. split.
    + intros Hcheck. rewrite checkTemporaryAccess_live_for in Hcheck.
      apply existsb_exists in Hcheck. destruct Hcheck as (o & Hino & Hex).
      apply filter_In in Hino. destruct Hino as [Hino Hoc].
      apply Z.eqb_eq in Hoc.
      apply existsb_exists in Hex. destruct Hex as (a & Hina & Hlive).
      unfold live_for in Hlive. rewrite !andb_true_iff in Hlive.
      destruct Hlive as [[Hk Haddr] Heff].
      apply Z.eqb_eq in Hk. apply String.eqb_eq in Haddr.
      exists {| sc_course := course; sc_expiresAt := ta_expiresAt a;
                sc_shareId := ta_id a |}.
      split; [|reflexivity].
      unfold getSharedCoursesForWallet. apply in_flat_map. exists a. split.
      * apply filter_In. split; [assumption|]. now apply shared_test.
      * unfold shared_course_of.
        rewrite Hk, (values_get o_id _ _ o Ho Hino), Hoc.
        unfold getCourse in Hcourse. rewrite Hcourse. now left.
    + intros (shared & Hin & Hsc).
      unfold getSharedCoursesForWallet in Hin. apply in_flat_map in Hin.
      destruct Hin as (a & Hina & Hin).
      apply filter_In in Hina. destruct Hina as [Hina Htest].
      apply shared_test in Htest. destruct Htest as [Haddr Heff].
      unfold shared_course_of in Hin.
      destruct (JsMap.get (ta_ownershipId a) (ownerships s)) as [o|] eqn:Hgo;
        [|destruct Hin].
      destruct (JsMap.get (o_courseId o) (courses s)) as [c|] eqn:Hgc;
        [|destruct Hin].
      destruct Hin as [<-|[]]. simpl in Hsc. subst c.
      assert (Hcid : o_courseId o = cid).
      { rewrite <- (map_ok_get_id c_id _ _ _ _ Hc Hgc).
        now apply (map_ok_get_id c_id _ _ _ _ Hc). }
      rewrite checkTemporaryAccess_live_for.
      apply existsb_exists. exists o. split.
      * apply filter_In. split; [now apply (get_values _ _ _ Hgo)|].
        now apply Z.eqb_eq.
      * apply existsb_exists. exists a. split; [assumption|].
        unfold live_for.
        rewrite (map_ok_get_id o_id _ _ _ _ Ho Hgo), Z.eqb_refl, Haddr, Heff.
        now rewrite String.eqb_refl.
  - intros shared Hin.
    unfold getSharedCoursesForWallet in Hin. apply in_flat_map in Hin.
    destruct Hin as (a & Hina & Hin).
    apply filter_In in Hina. destruct Hina as [Hina Htest].
    apply shared_test in Htest. destruct Htest as [Haddr Heff].
    unfold shared_course_of in Hin.
    destruct (JsMap.get (ta_ownershipId a) (ownerships s)) as [o|];
      [|destruct Hin].
    destruct (JsMap.get (o_courseId o) (courses s)) as [c|]; [|destruct Hin].
    destruct Hin as [<-|[]]. simpl.
    exists a. split; [now apply (values_get ta_id _ _ a Ht)|].
    split; [assumption|]. split; [assumption|]. split; [reflexivity|].
    unfold isEffectivelyActive in Heff. apply andb_true_iff in Heff.
    destruct Heff as [_ Hgt]. now apply date_gt_true.
Qed.

(** The recipient of [shared_store] finds course 1 in its listing. *)
Lemma shared_listing_agrees_with_check_witness :
  exists shared,
    In shared (getSharedCoursesForWallet 50 "0xABCDEF" shared_store)
    /\ c_id (sc_course shared) = 1.
Proof.
  destruct (shared_listing_agrees_with_check 50 "0xABCDEF" shared_store
              shared_store_ok) as [Hagree _].
  destruct (Hagree 1 {| c_id := 1; c_title := "Rocq"; c_creatorId := 1;
                        c_isPublished := Some true; c_createdAt := 20 |})
    as [Hlisted _]; [reflexivity|].
  destruct Hlisted as (shared & Hin & Hcourse); [reflexivity|].
  exists shared. split; [assumption|]. now rewrite Hcourse.
Defined.

(** ** The request listings *)

Lemma insert_newest_first_perm x l :
  Permutation (insert_newest_first x l) (x :: l).
Proof.
  induction l as [|y rest IH]; simpl; [reflexivity|].
  destruct (ar_createdAt x <? ar_createdAt y); [|reflexivity].
  rewrite IH. apply perm_swap.
Qed.

Lemma sort_newest_first_perm l : Permutation (sort_newest_first l) l.
Proof.
  induction l as [|x rest IH]; simpl; [reflexivity|].
  rewrite insert_newest_first_perm. now constructor.
Qed.

Lemma insert_newest_first_sorted x l :
  newest_first l -> newest_first (insert_newest_first x l).
Proof.
  unfold newest_first.
  induction l as [|y rest IH]; simpl; intros Hs.
  - repeat constructor.
  - destruct (ar_createdAt x <? ar_createdAt y) eqn:Hlt.
    + apply Z.ltb_lt in Hlt. inversion Hs as [|? ? Hrest Hhd]; subst.
      constructor; [now apply IH|].
      destruct rest as [|z rest']; simpl.
      * constructor. lia.
      * destruct (ar_createdAt x <? ar_createdAt z); constructor;
          [now inversion Hhd | lia].
    + apply Z.ltb_ge in Hlt. constructor; [assumption|]. now constructor.
Qed.

Lemma sort_newest_first_sorted l : newest_first (sort_newest_first l).
Proof.
  induction l as [|x rest IH]; simpl; [constructor|].
  now apply insert_newest_first_sorted.
Qed.

Lemma insert_newest_first_created_at date x l :
  created_at date (insert_newest_first x l) = created_at date (x :: l).
Proof.
  unfold created_at.
  induction l as [|y rest IH]; simpl; [reflexivity|].
  destruct (ar_createdAt x <? ar_createdAt y) eqn:Hlt; [|reflexivity].
  apply Z.ltb_lt in Hlt. simpl. rewrite IH. simpl.
  destruct (ar_createdAt x =? date) eqn:Hx; [|reflexivity].
  apply Z.eqb_eq in Hx.
  replace (ar_createdAt y =? date) with false; [reflexivity|].
  symmetry. apply Z.eqb_neq. lia.
Qed.

Lemma sort_newest_first_created_at date l :
  created_at date (sort_newest_first l) = created_at date l.
Proof.
  induction l as [|x rest IH]; simpl; [reflexivity|].
  rewrite insert_newest_first_created_at. unfold created_at in *. simpl.
  now rewrite IH.
Qed.

(** X11. The requests listed for a course are exactly the stored requests of
    that course, each as often as it is stored; they come newest first; and
    requests created at the same date keep the order in which they were
    stored. *)
Theorem requests_of_a_course_newest_first :
  forall cid s,
    let listed := getAccessRequestsByCourse cid s in
    let stored :=
      filter (fun request => ar_courseId request =? cid)
             (JsMap.values (accessRequests s)) in
    Permutation listed stored
    /\ (forall request,
          In request listed
          <-> In request (JsMap.values (accessRequests s))
              /\ ar_courseId request = cid)
    /\ newest_first listed
    /\ (forall date, created_at date listed = created_at date stored).
Proof.
  intros cid s listed stored. subst listed stored.
  unfold getAccessRequestsByCourse.
  split; [apply sort_newest_first_perm|].
  split; [|split; [apply sort_newest_first_sorted |
                   intros; apply sort_newest_first_created_at]].
  intros request. split.
  - intros Hin.
    apply (Permutation_in _ (sort_newest_first_perm _)) in Hin.
    apply filter_In in Hin. now rewrite Z.eqb_eq in Hin.
  - intros [Hin Hc].
    apply (Permutation_in _ (Permutation_sym (sort_newest_first_perm _))).
    apply filter_In. split; [assumption | now apply Z.eqb_eq].
Qed.

Lemma join_course_ok s requests :
  Forall (fun r => getCourse (ar_courseId r) s <> None) requests ->
  exists joined,
    join_course s requests = inr joined
    /\ List.map fst joined = requests
    /\ Forall (fun rc => getCourse (ar_courseId (fst rc)) s = Some (snd rc))
              joined.
Proof.
  unfold getCourse.
  induction requests as [|r rest IH]; simpl; intros Hall.
  - exists []. repeat split. constructor.
  - inversion Hall as [|? ? Hr Hrest]; subst.
    destruct (JsMap.get (ar_courseId r) (courses s)) as [c|] eqn:Hc;
      [|congruence].
    destruct (IH Hrest) as (joined & -> & Hmap & Hcourses).
    exists ((r, c) :: joined). simpl. rewrite Hmap.
    split; [reflexivity|]. split; [reflexivity|]. now constructor.
Qed.

Lemma join_course_missing s requests :
  Exists (fun r => getCourse (ar_courseId r) s = None) requests ->
  exists r,
    In r requests /\ getCourse (ar_courseId r) s = None
    /\ join_course s requests
       = inl ("Course not found for request " ++ string_of_Z (ar_id r)).
Proof.
  unfold getCourse.
  induction requests as [|r rest IH]; simpl; intros Hex;
    [inversion Hex|].
  destruct (JsMap.get (ar_courseId r) (courses s)) as [c|] eqn:Hc.
  - inversion Hex as [? ? Hr|? ? Hrest]; subst; [congruence|].
    destruct (IH Hrest) as (r' & Hin & Hnone & ->).
    exists r'. split; [now right|]. now split.
  - exists r. split; [now left|]. now split.
Qed.

(** X12. The listing of a requester's requests needs the course of every one
    of them. If each stored request of the address has its course in the
    store, the answer is 200 with these requests, newest first, each joined
    with its course. If one of them names a course that the store does not
    hold, the whole listing fails: the answer is 400 with "Course not found
    for request" and the identifier of such a request. The listing by owner
    address behaves in the same way. *)
Theorem request_listings_need_every_course :
  forall w s,
    w <> "" ->
    let of_requester :=
      filter (fun request =>
                String.eqb (toLowerCase (ar_requesterAddress request))
                           (toLowerCase w))
             (JsMap.values (accessRequests s)) in
    let of_owner :=
      filter (fun request =>
                String.eqb (toLowerCase (ar_ownerAddress request))
                           (toLowerCase w))
             (JsMap.values (accessRequests s)) in
    let listed (answer : Response) (stored : list AccessRequest) :=
      exists joined,
        answer = (200, JoinedRequestsJson joined)
        /\ List.map fst joined = sort_newest_first stored
        /\ Forall (fun rc => getCourse (ar_courseId (fst rc)) s = Some (snd rc))
                  joined in
    let failed (answer : Response) (stored : list AccessRequest) :=
      exists request,
        In request stored
        /\ getCourse (ar_courseId request) s = None
        /\ answer
           = (400,
              Message ("Course not found for request "
                       ++ string_of_Z (ar_id request))) in
    (Forall (fun r => getCourse (ar_courseId r) s <> None) of_requester ->
     listed (access_requests_by_requester w s) of_requester)
    /\ (Exists (fun r => getCourse (ar_courseId r) s = None) of_requester ->
        failed (access_requests_by_requester w s) of_requester)
    /\ (Forall (fun r => getCourse (ar_courseId r) s <> None) of_owner ->
        listed (access_requests_by_owner w s) of_owner)
    /\ (Exists (fun r => getCourse (ar_courseId r) s = None) of_owner ->
        failed (access_requests_by_owner w s) of_owner).
Proof.
  intros w s Hw of_requester of_owner listed failed.
  assert (Hok : forall stored,
            Forall (fun r => getCourse (ar_courseId r) s <> None) stored ->
            Forall (fun r => getCourse (ar_courseId r) s <> None)
                   (sort_newest_first stored)).
  { intros stored Hall. apply Forall_forall. intros r Hin.
    apply (Permutation_in _ (sort_newest_first_perm _)) in Hin.
    rewrite Forall_forall in Hall. now apply Hall. }
  assert (Hko : forall stored,
            Exists (fun r => getCourse (ar_courseId r) s = None) stored ->
            Exists (fun r => getCourse (ar_courseId r) s = None)
                   (sort_newest_first stored)).
  { intros stored Hex. apply Exists_exists in Hex.
    destruct Hex as (r & Hin & Hnone). apply Exists_exists. exists r.
    split; [|assumption].
    now apply (Permutation_in _ (Permutation_sym (sort_newest_first_perm _))). }
  unfold access_requests_by_requester, access_requests_by_owner,
    getAccessRequestsByRequester, getAccessRequestsByOwner.
  rewrite (truthy_string_true w Hw), toLowerCase_idempotent. simpl.
  fold of_requester. fold of_owner.
  split; [|split; [|split]].
  - intros Hall. destruct (join_course_ok s _ (Hok _ Hall))
      as (joined & -> & Hmap & Hcourses).
    now exists joined.
  - intros Hex. destruct (join_course_missing s _ (Hko _ Hex))
      as (r & Hin & Hnone & ->).
    exists r. split; [|now split].
    now apply (Permutation_in _ (sort_newest_first_perm _)).
  - intros Hall. destruct (join_course_ok s _ (Hok _ Hall))
      as (joined & -> & Hmap & Hcourses).
    now exists joined.
  - intros Hex. destruct (join_course_missing s _ (Hko _ Hex))
      as (r & Hin & Hnone & ->).
    exists r. split; [|now split].
    now apply (Permutation_in _ (sort_newest_first_perm _)).
Qed.

(** A request for course 5, which [shared_store] does not hold, breaks the
    listing of its requester. *)
Lemma request_listings_need_every_course_witness :
  fst (access_requests_by_requester "0xB0B"
         (snd (access_requests_create 100
                 {| iar_courseId := 5; iar_requesterAddress := "0xb0b";
                    iar_ownerAddress := "0xa11ce"; iar_requestMessage := None;
                    iar_requestDuration := 7; iar_status := None |}
                 shared_store)))
  = 400.
Proof.
  destruct (request_listings_need_every_course "0xB0B"
              (snd (access_requests_create 100
                      {| iar_courseId := 5; iar_requesterAddress := "0xb0b";
                         iar_ownerAddress := "0xa11ce";
                         iar_requestMessage := None;
                         iar_requestDuration := 7; iar_status := None |}
                      shared_store)))
    as (_ & Hfail & _); [discriminate|].
  destruct Hfail as (r & _ & _ & ->); [|reflexivity].
  apply Exists_cons_hd. reflexivity.
Defined.

Lemma listing_fails_on s stored r :
  In r stored -> getCourse (ar_courseId r) s = None ->
  exists message, join_course s (sort_newest_first stored) = inl message.
Proof.
  intros Hin Hnone.
  destruct (join_course_missing s (sort_newest_first stored))
    as (r' & _ & _ & ->); [|now eexists].
  apply Exists_exists. exists r. split; [|assumption].
  now apply (Permutation_in _ (Permutation_sym (sort_newest_first_perm _))).
Qed.

(** X13. The submit route does not look for the course. A request that names
    a course absent from the store is accepted (HTTP 201) like any other, and
    from then on the listing of the requester's requests and the listing of
    the owner's requests are both answered 400. *)
Theorem request_for_unknown_course_breaks_listings :
  forall now body s,
    integer_column (iar_courseId body) = true ->
    integer_column (iar_requestDuration body) = true ->
    getCourse (iar_courseId body) s = None ->
    let s' := snd (access_requests_create now body s) in
    fst (fst (access_requests_create now body s)) = 201
    /\ (iar_requesterAddress body <> "" ->
        exists message,
          access_requests_by_requester (iar_requesterAddress body) s'
          = (400, Message message))
    /\ (iar_ownerAddress body <> "" ->
        exists message,
          access_requests_by_owner (iar_ownerAddress body) s'
          = (400, Message message)).
Proof.
  intros now body s Hc Hd Hnone s'. subst s'.
  unfold access_requests_create. rewrite Hc, Hd. simpl.
  split; [reflexivity|].
  set (request :=
         {| ar_id := accessRequestId s; ar_courseId := iar_courseId body;
            ar_requesterAddress := toLowerCase (iar_requesterAddress body);
            ar_ownerAddress := toLowerCase (iar_ownerAddress body);
            ar_requestMessage := or_null (iar_requestMessage body);
            ar_requestDuration := iar_requestDuration body;
            ar_status := "pending"; ar_createdAt := now;
            ar_updatedAt := now |}).
  set (s1 := with_accessRequests _ _ s).
  assert (Hin : In request (JsMap.values (accessRequests s1))).
  { apply (get_values (accessRequestId s)). apply JsMapFacts.get_set_same. }
  assert (Hmissing : getCourse (ar_courseId request) s1 = None)
    by exact Hnone.
  split; intros Hw.
  - unfold access_requests_by_requester, getAccessRequestsByRequester.
    rewrite (truthy_string_true _ Hw). simpl.
    match goal with
    | |- context [join_course s1 (sort_newest_first ?l)] =>
        destruct (listing_fails_on s1 l request) as [message ->];
          [|assumption|now exists message]
    end.
    apply filter_In. split; [assumption|]. simpl.
    rewrite !toLowerCase_idempotent. apply String.eqb_refl.
  - unfold access_requests_by_owner, getAccessRequestsByOwner.
    rewrite (truthy_string_true _ Hw). simpl.
    match goal with
    | |- context [join_course s1 (sort_newest_first ?l)] =>
        destruct (listing_fails_on s1 l request) as [message ->];
          [|assumption|now exists message]
    end.
    apply filter_In. split; [assumption|]. simpl.
    rewrite !toLowerCase_idempotent. apply String.eqb_refl.
Qed.

Lemma request_for_unknown_course_breaks_listings_witness :
  fst (access_requests_by_owner "0xA11CE"
         (snd (access_requests_create 100
                 {| iar_courseId := 5; iar_requesterAddress := "0xB0B";
                    iar_ownerAddress := "0xA11CE"; iar_requestMessage := None;
                    iar_requestDuration := 7; iar_status := None |}
                 shared_store)))
  = 400.
Proof.
  destruct (request_for_unknown_course_breaks_listings 100
              {| iar_courseId := 5; iar_requesterAddress := "0xB0B";
                 iar_ownerAddress := "0xA11CE"; iar_requestMessage := None;
                 iar_requestDuration := 7; iar_status := None |}
              shared_store)
    as (_ & _ & Howner); [reflexivity | reflexivity | reflexivity |].
  destruct Howner as [message Hfail]; [discriminate|].
  simpl iar_ownerAddress in Hfail. now rewrite Hfail.
Defined.

(** ** Addresses are stored in lower case *)

Lemma lower_case_toLowerCase w : lower_case (toLowerCase w).
Proof.
  apply toLowerCase_idempotent.
Qed.

Lemma handle_keeps_addresses_normalized zone now r s :
  addresses_normalized s -> addresses_normalized (snd (handle zone now r s)).
Proof.
  intros Hn. pose proof Hn as [Hg Hr].
  assert (Hgrant : forall k g,
            lower_case (ta_recipientAddress g) ->
            forall x, In x (JsMap.values (JsMap.set k g (temporaryAccesses s)))
                      -> lower_case (ta_recipientAddress x)).
  { intros k g Hl x Hx. apply JsMapFacts.In_values_set in Hx.
    destruct Hx as [->|Hx]; [assumption | now apply Hg]. }
  assert (Hrequest : forall k q,
            lower_case (ar_requesterAddress q) ->
            lower_case (ar_ownerAddress q) ->
            forall x, In x (JsMap.values (JsMap.set k q (accessRequests s)))
                      -> lower_case (ar_requesterAddress x)
                         /\ lower_case (ar_ownerAddress x)).
  { intros k q Hl1 Hl2 x Hx. apply JsMapFacts.In_values_set in Hx.
    destruct Hx as [->|Hx]; [now split | now apply Hr]. }
  destruct r as [w|c|b|oid w e|[rid|]|b|[rid|] status]; simpl.
  - unfold connect_wallet. destruct (negb (truthy_string w)); [exact Hn|].
    destruct (getUserByWalletAddress (toLowerCase w) s) as [u|];
      [|exact Hn].
    destruct (negb _); [|exact Hn].
    unfold updateUser_walletAddress.
    destruct (JsMap.get (u_id u) (users s)); exact Hn.
  - unfold post_courses. destruct (negb _); exact Hn.
  - unfold nft_mint. destruct (negb _); [exact Hn|].
    destruct (getCourse _ s); [|exact Hn].
    destruct (getNftOwnershipByCourseAndOwner _ _ s); exact Hn.
  - unfold access_share. destruct (negb (truthy_string w)); [exact Hn|].
    destruct (negb (integer_column oid)); [exact Hn|].
    cbn [ita_ownershipId].
    destruct (getNftOwnership oid s); [|exact Hn].
    destruct (getActiveTemporaryAccess now oid (toLowerCase w) s);
      [exact Hn|].
    split; [|exact Hr]. simpl. apply Hgrant. simpl.
    apply lower_case_toLowerCase.
  - unfold deactivateTemporaryAccess.
    destruct (JsMap.get rid (temporaryAccesses s)) as [g|] eqn:Hget;
      [|exact Hn].
    split; [|exact Hr]. simpl. apply Hgrant. simpl.
    apply Hg. now apply (get_values rid).
  - exact Hn.
  - unfold access_requests_create. destruct (negb _); [exact Hn|].
    split; [exact Hg|]. simpl.
    apply Hrequest; simpl; apply lower_case_toLowerCase.
  - unfold access_request_status, access_request_status_with.
    destruct (negb (truthy_string status) || negb (status_value status));
      [exact Hn|].
    destruct (getAccessRequestById rid s) as [request|] eqn:Hget; [|exact Hn].
    unfold updateAccessRequestStatus. unfold getAccessRequestById in Hget.
    rewrite Hget.
    destruct (Hr request (get_values _ _ _ Hget)) as [Hl1 Hl2].
    assert (Hr' : forall x,
              In x (JsMap.values
                      (JsMap.set rid (with_status status now request)
                         (accessRequests s))) ->
              lower_case (ar_requesterAddress x)
              /\ lower_case (ar_ownerAddress x)).
    { now apply Hrequest. }
    destruct (String.eqb status "approved"); [|now split].
    destruct (getUserByWalletAddress _ _); [|now split].
    destruct (getNftOwnershipByCourseAndOwner _ _ _); [|now split].
    split; [|exact Hr']. simpl. now apply Hgrant.
  - exact Hn.
Qed.

(** X14. Every request keeps the addresses of the store normalized, so in
    every store reached by a history of requests the recipient of every
    grant and the requester and owner address of every access request are
    in lower case, whatever spelling the requests carried. *)
Theorem reachable_addresses_normalized :
  (forall zone now r s,
     addresses_normalized s -> addresses_normalized (snd (handle zone now r s)))
  /\ (forall s, reachable s -> addresses_normalized s).
Proof.
  split; [apply handle_keeps_addresses_normalized|].
  intros s (zone & start & history & _ & <-).
  assert (Hgen : forall h s0, addresses_normalized s0 ->
                   addresses_normalized (run zone h s0)).
  { induction h as [|[now r] rest IH]; simpl; intros s0 H0; [exact H0|].
    apply IH. now apply handle_keeps_addresses_normalized. }
  apply Hgen. split; intros x [].
Qed.

Lemma reachable_addresses_normalized_witness :
  addresses_normalized (run utc double_grant_history newMemStorage).
Proof.
  destruct reachable_addresses_normalized as [_ Hreach].
  apply Hreach. exists utc, 0, double_grant_history. split; reflexivity.
Defined.

(** ** The listing of a user's ownerships *)

Lemma get_set_not_none {V} k k' v (m : JsMap.t V) :
  JsMap.get k m <> None -> JsMap.get k (JsMap.set k' v m) <> None.
Proof.
  intros H. destruct (Z.eq_dec k k') as [->|Hne].
  - now rewrite JsMapFacts.get_set_same.
  - now rewrite JsMapFacts.get_set_other.
Qed.

(** A request leaves the courses alone, or it adds one. *)
Lemma handle_courses zone now r s :
  courses (snd (handle zone now r s)) = courses s
  \/ exists course,
       courses (snd (handle zone now r s))
       = JsMap.set (courseId s) course (courses s).
Proof.
  destruct r as [w|c|b|oid w e|[rid|]|b|[rid|] status]; simpl.
  - left. unfold connect_wallet. destruct (negb (truthy_string w));
      [reflexivity|].
    destruct (getUserByWalletAddress (toLowerCase w) s) as [u|];
      [|reflexivity].
    destruct (negb _); [|reflexivity].
    unfold updateUser_walletAddress.
    destruct (JsMap.get (u_id u) (users s)); reflexivity.
  - unfold post_courses. destruct (negb _); [now left|].
    right. eexists. reflexivity.
  - left. unfold nft_mint. destruct (negb _); [reflexivity|].
    destruct (getCourse _ s); [|reflexivity].
    destruct (getNftOwnershipByCourseAndOwner _ _ s); reflexivity.
  - left. unfold access_share. destruct (negb (truthy_string w));
      [reflexivity|].
    destruct (negb (integer_column oid)); [reflexivity|].
    cbn [ita_ownershipId].
    destruct (getNftOwnership oid s); [|reflexivity].
    destruct (getActiveTemporaryAccess now oid (toLowerCase w) s);
      reflexivity.
  - left. unfold deactivateTemporaryAccess.
    destruct (JsMap.get rid (temporaryAccesses s)); reflexivity.
  - now left.
  - left. unfold access_requests_create. destruct (negb _); reflexivity.
  - left. unfold access_request_status, access_request_status_with.
    destruct (negb (truthy_string status) || negb (status_value status));
      [reflexivity|].
    destruct (getAccessRequestById rid s) as [request|] eqn:Hreq;
      [|reflexivity].
    unfold updateAccessRequestStatus. unfold getAccessRequestById in Hreq.
    rewrite Hreq.
    destruct (String.eqb status "approved"); [|reflexivity].
    destruct (getUserByWalletAddress _ _); [|reflexivity].
    destruct (getNftOwnershipByCourseAndOwner _ _ _); reflexivity.
  - now left.
Qed.

Lemma handle_keeps_course zone now r s cid :
  getCourse cid s <> None -> getCourse cid (snd (handle zone now r s)) <> None.
Proof.
  unfold getCourse. intros H.
  destruct (handle_courses zone now r s) as [->|[course ->]]; [assumption|].
  now apply get_set_not_none.
Qed.

Lemma handle_keeps_ownerships_have_courses zone now r s :
  ownerships_have_courses s ->
  ownerships_have_courses (snd (handle zone now r s)).
Proof.
  intros Hinv o Hin. apply handle_keeps_course.
  destruct (handle_ownerships zone now r s)
    as [Heq|(body & course & _ & Hcourse & _ & Heq)].
  - rewrite Heq in Hin. now apply Hinv.
  - rewrite Heq in Hin. cbn [snd createNftOwnership ownerships
                              with_ownerships] in Hin.
    apply JsMapFacts.In_values_set in Hin. destruct Hin as [->|Hin].
    + simpl. congruence.
    + now apply Hinv.
Qed.

Lemma join_ownership_course_ok s owned :
  Forall (fun o => getCourse (o_courseId o) s <> None) owned ->
  exists joined,
    join_ownership_course s owned = inr joined
    /\ List.map fst joined = owned
    /\ Forall (fun oc => getCourse (o_courseId (fst oc)) s = Some (snd oc))
              joined.
Proof.
  unfold getCourse.
  induction owned as [|o rest IH]; simpl; intros Hall.
  - exists []. repeat split. constructor.
  - inversion Hall as [|? ? Ho Hrest]; subst.
    destruct (JsMap.get (o_courseId o) (courses s)) as [c|] eqn:Hc;
      [|congruence].
    destruct (IH Hrest) as (joined & -> & Hmap & Hcourses).
    exists ((o, c) :: joined). simpl. rewrite Hmap.
    split; [reflexivity|]. split; [reflexivity|]. now constructor.
Qed.

(** X15. The listing of a user's ownerships never fails on a reached store:
    the mint route records an ownership only for a course of the store and
    no request removes a course, so every ownership names a course of the
    store, and [GET /api/nft/owned/:userId] answers 200 with exactly the
    ownerships of the user, in the order of minting, each joined with its
    course. *)
Theorem owned_listing_never_fails :
  forall s uid,
    reachable s ->
    ownerships_have_courses s
    /\ exists owned,
         nft_owned (Some uid) s = (200, inr owned)
         /\ List.map fst owned
            = filter (fun ownership => o_ownerId ownership =? uid)
                     (JsMap.values (ownerships s))
         /\ Forall (fun oc => getCourse (o_courseId (fst oc)) s = Some (snd oc))
                   owned.
Proof.
  intros s uid (zone & start & history & _ & <-).
  assert (Hgen : forall h s0, ownerships_have_courses s0 ->
                   ownerships_have_courses (run zone h s0)).
  { induction h as [|[now r] rest IH]; simpl; intros s0 H0; [exact H0|].
    apply IH. now apply handle_keeps_ownerships_have_courses. }
  assert (Hinv : ownerships_have_courses (run zone history newMemStorage)).
  { apply Hgen. intros o []. }
  split; [exact Hinv|].
  unfold nft_owned, getOwnershipsByOwner.
  destruct (join_ownership_course_ok (run zone history newMemStorage)
              (filter (fun ownership => o_ownerId ownership =? uid)
                      (JsMap.values
                         (ownerships (run zone history newMemStorage)))))
    as (joined & -> & Hmap & Hcourses).
  - apply Forall_forall. intros o Hin. apply filter_In in Hin.
    apply Hinv, Hin.
  - now exists joined.
Qed.

Lemma owned_listing_never_fails_witness :
  fst (nft_owned (Some 1) shared_store) = 200.
Proof.
  destruct (owned_listing_never_fails shared_store 1)
    as (_ & owned & -> & _); [|reflexivity].
  exists utc, 0.
  exists [ (10, ConnectWallet "0xA11CE");
           (20, PostCourses {| ic_title := "Rocq"; ic_creatorId := 1;
                               ic_isPublished := Some true |});
           (30, NftMint {| io_courseId := 1; io_ownerId := 1;
                           io_tokenId := "token-1";
                           io_transactionHash := None |});
           (40, AccessShare 1 "0xABCdef" 1000) ].
  split; reflexivity.
Defined.

(** ** Registering a user *)

Lemma find_set_fresh {V} (p : V -> bool) k v (m : JsMap.t V) :
  JsMap.get k m = None ->
  find p (JsMap.values (JsMap.set k v m))
  = match find p (JsMap.values m) with
    | Some x => Some x
    | None => if p v then Some v else None
    end.
Proof.
  induction m as [|[k1 v1] rest IH]; simpl; intros Hget; [reflexivity|].
  destruct (k =? k1); [discriminate|]. simpl.
  destruct (p v1); [reflexivity | now apply IH].
Qed.

Lemma next_key_is_fresh {V} (id_of : V -> Z) next (m : JsMap.t V) :
  map_ok id_of next m -> JsMap.get next m = None.
Proof.
  intros (_ & _ & Hbelow).
  destruct (JsMap.get next m) as [x|] eqn:Hget; [|reflexivity].
  apply JsMapFacts.get_In in Hget. specialize (Hbelow next x Hget). lia.
Qed.

(** X16. Registration keeps usernames unique: [POST /api/users] with a
    username that a user already carries is answered 400 "Username already
    exists" and changes nothing; with a new username it answers 201, stores
    the user under the next identifier, where the lookups by identifier and
    by username find it; and if no username was carried by two users before
    the call, none is after it. *)
Theorem post_users_keeps_usernames_unique :
  forall now userData s,
    (forall u,
       getUserByUsername (iu_username userData) s = Some u ->
       post_users now userData s
       = ((400, Message "Username already exists"), s))
    /\ (getUserByUsername (iu_username userData) s = None ->
        exists user,
          fst (post_users now userData s) = (201, UserJson (Some user))
          /\ u_id user = userId s
          /\ u_username user = iu_username userData
          /\ u_walletAddress user = or_null (iu_walletAddress userData)
          /\ getUser (userId s) (snd (post_users now userData s)) = Some user
          /\ getUserByUsername (iu_username userData)
               (snd (post_users now userData s)) = Some user)
    /\ ((forall name, (List.length (users_named name s) <= 1)%nat) ->
        forall name,
          (List.length (users_named name (snd (post_users now userData s)))
           <= 1)%nat).
Proof.
  intros now userData s. unfold post_users. split; [|split].
  - intros u Hu. now rewrite Hu.
  - intros Hnone. rewrite Hnone. simpl. eexists.
    split; [reflexivity|]. do 3 (split; [reflexivity|]).
    split; [apply JsMapFacts.get_set_same|].
    unfold getUserByUsername in *. simpl.
    apply JsMapFacts.find_set_new; [now apply find_none|].
    simpl. apply String.eqb_refl.
  - intros Hinv name.
    destruct (getUserByUsername (iu_username userData) s) eqn:Hfind;
      [apply Hinv|].
    unfold users_named. simpl.
    match goal with
    | |- context [JsMap.set ?k ?v _] =>
        pose proof (filter_set_length
                      (fun user => String.eqb (u_username user) name)
                      k v (users s)) as Hlen;
        cbv beta in Hlen; cbn [u_username] in Hlen
    end.
    destruct (String.eqb (iu_username userData) name) eqn:Hname.
    + apply String.eqb_eq in Hname. subst name.
      unfold getUserByUsername in Hfind.
      apply find_none_filter_nil in Hfind. rewrite Hfind in Hlen.
      exact Hlen.
    + specialize (Hinv name). unfold users_named in Hinv. lia.
Qed.

Lemma post_users_keeps_usernames_unique_witness :
  fst (post_users 20
         {| iu_username := "user_10"; iu_password := "x";
            iu_walletAddress := None; iu_isCreator := None |} shared_store)
  = (400, Message "Username already exists").
Proof.
  destruct (post_users_keeps_usernames_unique 20
              {| iu_username := "user_10"; iu_password := "x";
                 iu_walletAddress := None; iu_isCreator := None |}
              shared_store) as [Hdup _].
  rewrite (Hdup {| u_id := 1; u_username := "user_10"; u_password := "pw_10";
                   u_walletAddress := Some "0xa11ce"; u_isCreator := None;
                   u_createdAt := 10 |}); reflexivity.
Defined.

(** X17. Registration does not look at the wallet. [POST /api/users] stores
    the wallet address as it is given, in whatever case, and also when a user
    already carries it. In a store with well-formed users, a wallet that
    resolved to a user before the call resolves to the same user after it,
    so a second account with a registered address is never found by its
    wallet; a wallet that resolved to nobody resolves to the new user
    exactly when the new user's address equals it up to case. *)
Theorem post_users_wallet_lookup :
  forall now userData s w,
    map_ok u_id (userId s) (users s) ->
    getUserByUsername (iu_username userData) s = None ->
    exists user,
      fst (post_users now userData s) = (201, UserJson (Some user))
      /\ u_walletAddress user = or_null (iu_walletAddress userData)
      /\ getUserByWalletAddress w (snd (post_users now userData s))
         = match getUserByWalletAddress w s with
           | Some registered => Some registered
           | None =>
               match u_walletAddress user with
               | Some address =>
                   if String.eqb (toLowerCase address) (toLowerCase w)
                   then Some user else None
               | None => None
               end
           end.
Proof.
  intros now userData s w Hok Hnone. unfold post_users. rewrite Hnone.
  simpl. eexists. split; [reflexivity|]. split; [reflexivity|].
  unfold getUserByWalletAddress. simpl.
  rewrite find_set_fresh by now apply (next_key_is_fresh u_id).
  destruct (find (wallet_matches w) (JsMap.values (users s)));
    [reflexivity|].
  unfold wallet_matches. simpl.
  destruct (or_null (iu_walletAddress userData)); reflexivity.
Qed.

(** A second account with the wallet of the owner of [shared_store]: the
    wallet still resolves to user 1. *)
Lemma post_users_wallet_lookup_witness :
  option_map u_id
    (getUserByWalletAddress "0xA11CE"
       (snd (post_users 50
               {| iu_username := "mallory"; iu_password := "x";
                  iu_walletAddress := Some "0xA11CE";
                  iu_isCreator := None |} shared_store)))
  = Some 1.
Proof.
  destruct (post_users_wallet_lookup 50
              {| iu_username := "mallory"; iu_password := "x";
                 iu_walletAddress := Some "0xA11CE"; iu_isCreator := None |}
              shared_store "0xA11CE")
    as (user & _ & _ & Hlookup); [apply shared_store_ok | reflexivity |].
  rewrite Hlookup. reflexivity.
Defined.

(** ** Publishing a course *)

Lemma insert_by_id_perm x l : Permutation (insert_by_id x l) (x :: l).
Proof.
  induction l as [|y rest IH]; simpl; [reflexivity|].
  destruct (c_id y <? c_id x); [|reflexivity].
  rewrite IH. apply perm_swap.
Qed.

Lemma sort_by_id_perm l : Permutation (sort_by_id l) l.
Proof.
  induction l as [|x rest IH]; simpl; [reflexivity|].
  rewrite insert_by_id_perm. now constructor.
Qed.

Lemma insert_by_id_sorted x l :
  ~ In (c_id x) (List.map c_id l) ->
  by_ascending_id l -> by_ascending_id (insert_by_id x l).
Proof.
  unfold by_ascending_id.
  induction l as [|y rest IH]; simpl; intros Hnew Hs.
  - repeat constructor.
  - destruct (c_id y <? c_id x) eqn:Hlt.
    + apply Z.ltb_lt in Hlt. inversion Hs as [|? ? Hrest Hhd]; subst.
      constructor; [apply IH; tauto|].
      destruct rest as [|z rest']; simpl.
      * now constructor.
      * destruct (c_id z <? c_id x); constructor;
          [now inversion Hhd | assumption].
    + apply Z.ltb_ge in Hlt. constructor; [assumption|].
      constructor. assert (c_id y <> c_id x) by tauto. lia.
Qed.

Lemma sort_by_id_sorted l :
  NoDup (List.map c_id l) -> by_ascending_id (sort_by_id l).
Proof.
  induction l as [|x rest IH]; simpl; intros Hnd; [constructor|].
  inversion Hnd as [|? ? Hnotin Hrest]; subst.
  apply insert_by_id_sorted; [|now apply IH].
  intros Hin. apply Hnotin.
  apply (Permutation_in _ (Permutation_map c_id (sort_by_id_perm rest))).
  exact Hin.
Qed.

Lemma values_ids_nodup {V} (id_of : V -> Z) next (m : JsMap.t V) :
  map_ok id_of next m -> NoDup (List.map id_of (JsMap.values m)).
Proof.
  intros (Hwf & Hids & _). unfold JsMap.wf, JsMap.keys in Hwf.
  unfold JsMap.values. rewrite List.map_map.
  replace (List.map (fun x => id_of (snd x)) m) with (List.map fst m);
    [assumption|].
  apply map_ext_in. intros [k v] Hin. simpl. symmetry. now apply Hids.
Qed.

Lemma filter_map_nodup {V} (id_of : V -> Z) (p : V -> bool) l :
  NoDup (List.map id_of l) -> NoDup (List.map id_of (filter p l)).
Proof.
  induction l as [|x rest IH]; simpl; intros Hnd; [constructor|].
  inversion Hnd as [|? ? Hnotin Hrest]; subst.
  destruct (p x); simpl; [|now apply IH].
  constructor; [|now apply IH].
  intros Hin. apply Hnotin. apply in_map_iff in Hin.
  destruct Hin as (y & Hy & Hin). apply filter_In in Hin.
  apply in_map_iff. exists y. tauto.
Qed.

(** X18. Publishing decides the public listing and nothing else. For a
    course of a store with well-formed courses, [POST
    /api/courses/:id/publish] answers 200 and sets the course's
    [isPublished] to [true] exactly when the body carries the boolean [true]
    or the string "true", and to [false] for any other value. Afterwards the
    public listing holds that course exactly in the first case, holds the
    other courses as before, and comes by ascending identifier without
    repetition. No access check changes its answer: unpublishing a course
    takes no access away. *)
Theorem publish_decides_the_listing_only :
  forall id value s course,
    map_ok c_id (courseId s) (courses s) ->
    getCourse id s = Some course ->
    let updated :=
      {| c_id := c_id course; c_title := c_title course;
         c_creatorId := c_creatorId course;
         c_isPublished := Some (wants_published value);
         c_createdAt := c_createdAt course |} in
    let s' := snd (courses_publish (Some id) value s) in
    fst (courses_publish (Some id) value s) = (200, inr (Some updated))
    /\ getCourse id s' = Some updated
    /\ (forall c,
          In c (getPublishedCourses s')
          <-> (c = updated /\ wants_published value = true)
              \/ (c_id c <> id /\ In c (getPublishedCourses s)))
    /\ by_ascending_id (getPublishedCourses s')
    /\ (forall now cid w, access_check now cid w s' = access_check now cid w s).
Proof.
  intros id value s course Hok Hget updated s'. subst s'.
  unfold courses_publish, updateCourse_isPublished.
  rewrite Hget. unfold getCourse in Hget. rewrite Hget. cbn [fst snd].
  fold updated.
  assert (Hid : c_id course = id) by now apply (map_ok_get_id c_id _ _ _ _ Hok).
  assert (Hok' : map_ok c_id (courseId s) (JsMap.set id updated (courses s))).
  { now apply (map_ok_set_present c_id _ id _ course). }
  split; [reflexivity|].
  split; [unfold getCourse; simpl; apply JsMapFacts.get_set_same|].
  split; [|split].
  - intros c. unfold getPublishedCourses. simpl.
    split.
    + intros Hin. apply (Permutation_in _ (sort_by_id_perm _)) in Hin.
      apply filter_In in Hin. destruct Hin as [Hin Hpub].
      apply JsMapFacts.In_values in Hin. destruct Hin as [k Hin].
      apply JsMapWf.In_set in Hin; [|apply Hok].
      destruct Hin as [[-> ->]|[Hk Hin]].
      * left. split; [reflexivity|]. unfold is_published in Hpub.
        simpl in Hpub. now destruct (wants_published value).
      * right. destruct Hok as (_ & Hids & _).
        rewrite (Hids k c Hin). split; [assumption|].
        apply (Permutation_in _ (Permutation_sym (sort_by_id_perm _))).
        apply filter_In. split; [|assumption].
        apply JsMapFacts.In_values. now exists k.
    + intros [[-> Hwant]|[Hne Hin]];
        apply (Permutation_in _ (Permutation_sym (sort_by_id_perm _)));
        apply filter_In.
      * split; [apply (get_values id), JsMapFacts.get_set_same|].
        unfold is_published. simpl. now rewrite Hwant.
      * apply (Permutation_in _ (sort_by_id_perm _)) in Hin.
        apply filter_In in Hin. destruct Hin as [Hin Hpub].
        split; [|assumption].
        apply JsMapFacts.In_values in Hin. destruct Hin as [k Hin].
        apply JsMapFacts.In_values. exists k.
        apply JsMapFacts.In_set_other; [|assumption].
        destruct Hok as (_ & Hids & _). now rewrite <- (Hids k c Hin).
  - unfold getPublishedCourses. simpl. apply sort_by_id_sorted.
    apply filter_map_nodup. now apply (values_ids_nodup c_id (courseId s)).
  - reflexivity.
Qed.

(** Unpublishing course 1 of [shared_store] empties the public listing and
    leaves the recipient's access as it is. *)
Lemma publish_decides_the_listing_only_witness :
  getPublishedCourses
    (snd (courses_publish (Some 1) (JsString "false") shared_store))
  = []
  /\ access_check 50 1 "0xabcdef"
       (snd (courses_publish (Some 1) (JsString "false") shared_store))
     = access_check 50 1 "0xabcdef" shared_store.
Proof.
  destruct (publish_decides_the_listing_only 1 (JsString "false")
              shared_store
              {| c_id := 1; c_title := "Rocq"; c_creatorId := 1;
                 c_isPublished := Some true; c_createdAt := 20 |})
    as (_ & _ & _ & _ & Hframe); [apply shared_store_ok | reflexivity |].
  split; [reflexivity | apply Hframe].
Defined.

(** ** Durations of videos *)

Lemma numeral_digits d : digit_string (NilEmpty.string_of_uint d) = true.
Proof.
  induction d; simpl; auto.
Qed.

Lemma decimal_digits_numeral d :
  decimal_digits (NilEmpty.string_of_uint d) = d.
Proof.
  induction d; simpl; congruence.
Qed.

(** The decimal numeral of a natural number: digits, at least one, that
    denote the number. *)
Lemma string_of_Z_numeral z :
  0 <= z ->
  exists d,
    string_of_Z z = NilEmpty.string_of_uint d
    /\ d <> Decimal.Nil /\ Z.of_uint d = z.
Proof.
  intros Hz. unfold string_of_Z. destruct z as [|p|p]; [| |lia].
  - exists (Decimal.D0 Decimal.Nil). repeat split. discriminate.
  - exists (Pos.to_uint p). simpl.
    pose proof (DecimalPos.Unsigned.to_uint_nonnil p) as Hnil.
    split; [now destruct (Pos.to_uint p)|]. split; [assumption|].
    exact (DecimalZ.of_to (Z.pos p)).
Qed.

Lemma digit_string_no_colon text :
  digit_string text = true -> colons text = O.
Proof.
  induction text as [|c rest IH]; simpl; [reflexivity|].
  intros H. apply andb_true_iff in H. destruct H as [Hc Hrest].
  rewrite (IH Hrest).
  destruct c as [[] [] [] [] [] [] [] []]; try discriminate Hc; reflexivity.
Qed.

Lemma number_of_Z_safe z :
  Z.abs z <= MAX_SAFE_INTEGER -> number_of_Z z = Integer z.
Proof.
  intros H. unfold number_of_Z.
  now replace (Z.abs z <=? MAX_SAFE_INTEGER) with true
    by (symmetry; now apply Z.leb_le).
Qed.





Lemma parseInt_digit_string text :
  text <> "" -> digit_string text = true ->
  parseInt text = number_of_Z (Z.of_uint (decimal_digits text)).
Proof.
  destruct text as [|c rest]; [congruence|]. intros _ H.
  simpl in H. apply andb_true_iff in H. destruct H as [Hc Hrest].
  destruct c as [[] [] [] [] [] [] [] []]; try discriminate Hc;
    try reflexivity.
  destruct rest as [|x rest']; [reflexivity|].
  simpl in Hrest. apply andb_true_iff in Hrest. destruct Hrest as [Hx _].
  destruct x as [[] [] [] [] [] [] [] []]; try discriminate Hx; reflexivity.
Qed.

Lemma parseInt_numeral z :
  0 <= z <= MAX_SAFE_INTEGER -> parseInt (string_of_Z z) = Integer z.
Proof.
  intros [Hz Hmax].
  destruct (string_of_Z_numeral z Hz) as (d & -> & Hnil & Hval).
  rewrite parseInt_digit_string.
  - rewrite decimal_digits_numeral, Hval. apply number_of_Z_safe. lia.
  - now destruct d.
  - apply numeral_digits.
Qed.

Lemma padStart2_numeral z :
  0 <= z ->
  digit_string (padStart2 (string_of_Z z)) = true
  /\ (z <= MAX_SAFE_INTEGER ->
      parseInt (padStart2 (string_of_Z z)) = Integer z).
Proof.
  intros Hz. destruct (string_of_Z_numeral z Hz) as (d & Hs & Hnil & Hval).
  pose proof (numeral_digits d) as Hd.
  assert (Hp : z <= MAX_SAFE_INTEGER -> parseInt (string_of_Z z) = Integer z)
    by (intros Hmax; now apply parseInt_numeral).
  rewrite Hs in *. unfold padStart2.
  destruct (NilEmpty.string_of_uint d) as [|c [|c' rest]] eqn:Htext.
  - now destruct d.
  - split; [exact Hd|]. intros Hmax.
    rewrite parseInt_digit_string; [|discriminate | exact Hd].
    rewrite parseInt_digit_string in Hp; [|discriminate | exact Hd].
    now apply Hp.
  - now split.
Qed.

Lemma split_colon_no_colon text : colons text = O -> split_colon text = [text].
Proof.
  induction text as [|c rest IH]; simpl; [reflexivity|].
  destruct (Ascii.eqb c ":"); [discriminate|].
  intros H. now rewrite (IH H).
Qed.

Lemma split_colon_app a b :
  colons a = O -> split_colon (a ++ String ":" b) = a :: split_colon b.
Proof.
  induction a as [|c rest IH]; simpl; [reflexivity|].
  destruct (Ascii.eqb c ":"); [discriminate|].
  intros H. now rewrite (IH H).
Qed.


(** The parts of a rendered duration and what [parseInt] makes of them. *)
Lemma formatDuration_parts n :
  0 <= n <= MAX_SAFE_INTEGER ->
  List.map parseInt (split_colon (formatDuration n))
  = (if n <? 3600
     then [Integer (n / 60); Integer (n mod 60)]
     else [Integer (n / 3600); Integer (n mod 3600 / 60);
           Integer (n mod 60)])
  /\ colons (formatDuration n) = if n <? 3600 then 1%nat else 2%nat.
Proof.
  intros [Hn Hmax].
  assert (Hh : 0 <= n / 3600 <= MAX_SAFE_INTEGER).
  { split; [apply Z.div_pos; lia|].
    apply Z.le_trans with n; [|assumption]. apply Z.div_le_upper_bound; lia. }
  assert (Hrem : Z.rem n 3600 = n mod 3600) by (apply Z.rem_mod_nonneg; lia).
  assert (Hrem60 : Z.rem n 60 = n mod 60) by (apply Z.rem_mod_nonneg; lia).
  assert (Hm : 0 <= n mod 3600 / 60 <= MAX_SAFE_INTEGER).
  { pose proof (Z.mod_pos_bound n 3600 ltac:(lia)).
    split; [apply Z.div_pos; lia|].
    apply Z.le_trans with (n mod 3600); [|unfold MAX_SAFE_INTEGER; lia].
    apply Z.div_le_upper_bound; lia. }
  assert (Hs : 0 <= n mod 60 <= MAX_SAFE_INTEGER).
  { pose proof (Z.mod_pos_bound n 60 ltac:(lia)).
    unfold MAX_SAFE_INTEGER. lia. }
  assert (Hnum : forall z, 0 <= z -> colons (string_of_Z z) = O).
  { intros z Hz. destruct (string_of_Z_numeral z Hz) as (d & -> & _ & _).
    apply digit_string_no_colon, numeral_digits. }
  assert (Hpad : forall z, 0 <= z -> colons (padStart2 (string_of_Z z)) = O).
  { intros z Hz. apply digit_string_no_colon, padStart2_numeral, Hz. }
  assert (Hcolons : forall a b,
            colons (a ++ String ":" b) = S (colons a + colons b)).
  { intros a b. induction a as [|c rest IH]; simpl; [reflexivity|].
    destruct (Ascii.eqb c ":"); simpl in *; rewrite IH; lia. }
  unfold formatDuration. rewrite Hrem, Hrem60.
  cbn [append].
  destruct (0 <? n / 3600) eqn:Hhours.
  - apply Z.ltb_lt in Hhours.
    assert (3600 <= n).
    { destruct (Z.lt_ge_cases n 3600) as [Hlt|]; [|assumption].
      rewrite Z.div_small in Hhours; lia. }
    replace (n <? 3600) with false by (symmetry; apply Z.ltb_ge; lia).
    split.
    + rewrite split_colon_app by (apply Hnum; lia).
      rewrite split_colon_app by (apply Hpad; lia).
      rewrite split_colon_no_colon by (apply Hpad; lia).
      simpl. rewrite (parseInt_numeral _ Hh).
      rewrite (proj2 (padStart2_numeral _ (proj1 Hm)) (proj2 Hm)).
      now rewrite (proj2 (padStart2_numeral _ (proj1 Hs)) (proj2 Hs)).
    + rewrite !Hcolons, (Hnum _ (proj1 Hh)), (Hpad _ (proj1 Hm)),
        (Hpad _ (proj1 Hs)).
      reflexivity.
  - apply Z.ltb_ge in Hhours.
    assert (n < 3600).
    { destruct (Z.lt_ge_cases n 3600) as [|Hge]; [assumption|].
      assert (1 <= n / 3600) by (apply Z.div_le_lower_bound; lia). lia. }
    replace (n <? 3600) with true by (symmetry; apply Z.ltb_lt; lia).
    rewrite (Z.mod_small n 3600) in * by lia.
    split.
    + rewrite split_colon_app by (apply Hnum; lia).
      rewrite split_colon_no_colon by (apply Hpad; lia).
      simpl. rewrite (parseInt_numeral _ Hm).
      now rewrite (proj2 (padStart2_numeral _ (proj1 Hs)) (proj2 Hs)).
    + rewrite Hcolons, (Hnum _ (proj1 Hm)), (Hpad _ (proj1 Hs)).
      reflexivity.
Qed.

(** The seconds that the parts of a rendered duration make. *)
Lemma formatDuration_seconds n :
  0 <= n <= MAX_SAFE_INTEGER ->
  (if n <? 3600
   then number_add (number_times (Integer (n / 60)) 60) (Integer (n mod 60))
   else number_add
          (number_add (number_times (Integer (n / 3600)) 3600)
             (number_times (Integer (n mod 3600 / 60)) 60))
          (Integer (n mod 60)))
  = Integer n.
Proof.
  intros [Hn Hmax].
  pose proof (Z.div_mod n 60 ltac:(lia)) as D60.
  pose proof (Z.mod_pos_bound n 60 ltac:(lia)) as B60.
  pose proof (Z.div_mod n 3600 ltac:(lia)) as D3600.
  pose proof (Z.mod_pos_bound n 3600 ltac:(lia)) as B3600.
  pose proof (Z.div_mod (n mod 3600) 60 ltac:(lia)) as Dm.
  pose proof (Z.mod_pos_bound (n mod 3600) 60 ltac:(lia)) as Bm.
  assert (Hmm : (n mod 3600) mod 60 = n mod 60).
  { apply Z.mod_mod_divide. exists 60. reflexivity. }
  assert (H60 : 0 <= n / 60) by (apply Z.div_pos; lia).
  assert (H3600 : 0 <= n / 3600) by (apply Z.div_pos; lia).
  assert (Hm : 0 <= n mod 3600 / 60) by (apply Z.div_pos; lia).
  destruct (n <? 3600); simpl.
  - rewrite number_of_Z_safe by lia. simpl.
    rewrite number_of_Z_safe by lia. f_equal. lia.
  - rewrite !number_of_Z_safe by lia. simpl.
    rewrite number_of_Z_safe by lia. simpl.
    rewrite number_of_Z_safe by lia. f_equal. lia.
Qed.

Lemma formatDuration_read_back n :
  0 <= n <= MAX_SAFE_INTEGER ->
  durationToSeconds (formatDuration n) = Integer n.
Proof.
  intros Hn. unfold durationToSeconds.
  rewrite (proj1 (formatDuration_parts n Hn)).
  rewrite <- (formatDuration_seconds n Hn).
  now destruct (n <? 3600).
Qed.

(** X19. Rendering and reading a duration are inverse on whole seconds: for
    every whole number [n >= 0] of seconds that a JavaScript number holds
    exactly, [durationToSeconds(formatDuration(n))] is [n], in the form
    [m:ss] under one hour and in the form [h:mm:ss] from one hour on. *)
Theorem duration_round_trip :
  forall n,
    0 <= n <= 9007199254740991 ->
    durationToSeconds (formatDuration n) = Integer n
    /\ colons (formatDuration n) = if n <? 3600 then 1%nat else 2%nat.
Proof.
  intros n Hn. split.
  - now apply formatDuration_read_back.
  - now apply formatDuration_parts.
Qed.

Lemma duration_round_trip_witness :
  durationToSeconds (formatDuration 6320) = Integer 6320.
Proof.
  apply (duration_round_trip 6320). lia.
Defined.



(** ** Formats of videos *)

Lemma lastIndexOf_dot_none text : no_dot text = true -> lastIndexOf_dot text = -1.
Proof.
  induction text as [|c rest IH]; simpl; [reflexivity|].
  intros H. apply andb_true_iff in H. destruct H as [Hc Hrest].
  rewrite (IH Hrest). simpl.
  now destruct (Ascii.eqb c ".").
Qed.

Lemma lastIndexOf_dot_last base ext :
  no_dot ext = true ->
  lastIndexOf_dot (base ++ String "." ext) = Z.of_nat (String.length base).
Proof.
  intros Hext. induction base as [|c rest IH].
  - simpl. now rewrite (lastIndexOf_dot_none ext Hext).
  - cbn [append lastIndexOf_dot String.length]. rewrite IH.
    replace (0 <=? Z.of_nat (String.length rest)) with true
      by (symmetry; apply Z.leb_le; lia).
    lia.
Qed.

Lemma drop_length base rest : drop (String.length base) (base ++ rest) = rest.
Proof.
  induction base as [|c base' IH]; simpl; [now destruct rest | exact IH].
Qed.

Lemma toLowerCase_no_dot_differs text tail :
  no_dot text = true ->
  String.eqb (toLowerCase text) (String "." tail) = false.
Proof.
  destruct text as [|c rest]; simpl; [reflexivity|].
  intros H. apply andb_true_iff in H. destruct H as [Hc _].
  replace (Ascii.eqb (lower_ascii c) ".") with false; [reflexivity|].
  destruct c as [[] [] [] [] [] [] [] []]; try reflexivity; discriminate Hc.
Qed.

(** X21. Only the last extension of a file name counts, in any case of its
    letters: a name [base.ext] whose [ext] holds no dot is a supported video
    exactly when [.ext] in lower case is one of [.mp4], [.webm], [.ogg] and
    [.mov], whatever [base] is; and a name without any dot is never
    supported, since [lastIndexOf] then gives [-1] and the whole name is
    taken for the extension. *)
Theorem supported_format_by_last_extension :
  (forall base ext,
     no_dot ext = true ->
     isSupportedVideoFormat (base ++ "." ++ ext)
     = existsb (String.eqb (toLowerCase ("." ++ ext))) supportedFormats)
  /\ (forall filename,
        no_dot filename = true -> isSupportedVideoFormat filename = false).
Proof.
  split.
  - intros base ext Hext. unfold isSupportedVideoFormat, substring_from.
    cbn [append]. rewrite (lastIndexOf_dot_last base ext Hext).
    rewrite Z.max_r by lia. rewrite Nat2Z.id.
    now rewrite drop_length.
  - intros filename Hno. unfold isSupportedVideoFormat, substring_from.
    rewrite (lastIndexOf_dot_none filename Hno). simpl.
    now rewrite !toLowerCase_no_dot_differs.
Qed.

Lemma supported_format_by_last_extension_witness :
  isSupportedVideoFormat "lecture.v2.MP4" = true
  /\ isSupportedVideoFormat "mp4" = false.
Proof.
  destruct supported_format_by_last_extension as [Hext Hnone].
  split.
  - change "lecture.v2.MP4" with ("lecture.v2" ++ "." ++ "MP4").
    rewrite (Hext "lecture.v2" "MP4"); reflexivity.
  - apply Hnone. reflexivity.
Defined.

(** ** Sections and lectures *)

Lemma get_map_delete_other {V} k k' (m : JsMap.t V) :
  k' <> k -> JsMap.get k' (map_delete k m) = JsMap.get k' m.
Proof.
  intros Hne. induction m as [|[k1 v1] rest IH]; simpl; [reflexivity|].
  destruct (k =? k1) eqn:E; simpl.
  - apply Z.eqb_eq in E. subst k1.
    destruct (k' =? k) eqn:E'; [apply Z.eqb_eq in E'; contradiction|].
    reflexivity.
  - now rewrite IH.
Qed.

Lemma get_absent {V} k (m : JsMap.t V) :
  ~ In k (JsMap.keys m) -> JsMap.get k m = None.
Proof.
  unfold JsMap.keys.
  induction m as [|[k1 v1] rest IH]; simpl; [reflexivity|].
  intros Hnot. destruct (k =? k1) eqn:E.
  - apply Z.eqb_eq in E. subst k1. tauto.
  - apply IH. tauto.
Qed.

Lemma get_map_delete_same {V} k (m : JsMap.t V) :
  JsMap.wf m -> JsMap.get k (map_delete k m) = None.
Proof.
  unfold JsMap.wf, JsMap.keys.
  induction m as [|[k1 v1] rest IH]; simpl; intros Hnd; [reflexivity|].
  inversion Hnd as [|? ? Hnotin Hrest]; subst.
  destruct (k =? k1) eqn:E; simpl.
  - apply Z.eqb_eq in E. subst k1. now apply get_absent.
  - rewrite E. now apply IH.
Qed.

Lemma filter_all {A} (p : A -> bool) l :
  (forall x, In x l -> p x = true) -> filter p l = l.
Proof.
  induction l as [|a l IH]; simpl; intros H; [reflexivity|].
  rewrite (H a) by now left. f_equal. apply IH. intros x Hx. apply H.
  now right.
Qed.

Lemma map_delete_filter {V} k (m : JsMap.t V) :
  JsMap.wf m -> map_delete k m = filter (fun e => negb (fst e =? k)) m.
Proof.
  unfold JsMap.wf, JsMap.keys.
  induction m as [|[k1 v1] rest IH]; simpl; intros Hnd; [reflexivity|].
  inversion Hnd as [|? ? Hnotin Hrest]; subst.
  rewrite (Z.eqb_sym k1 k).
  destruct (k =? k1) eqn:E; simpl.
  - apply Z.eqb_eq in E. subst k1. symmetry. apply filter_all.
    intros [k2 v2] Hin. simpl. apply negb_true_iff, Z.eqb_neq.
    intros ->. apply Hnotin. change k with (fst (k, v2)). now apply in_map.
  - f_equal. now apply IH.
Qed.

Lemma wf_filter {V} (p : Z * V -> bool) (m : JsMap.t V) :
  JsMap.wf m -> JsMap.wf (filter p m).
Proof.
  unfold JsMap.wf, JsMap.keys.
  induction m as [|e rest IH]; simpl; intros Hnd; [constructor|].
  inversion Hnd as [|? ? Hnotin Hrest]; subst.
  destruct (p e); simpl; [|now apply IH].
  constructor; [|now apply IH].
  intros Hin. apply Hnotin. apply in_map_iff in Hin.
  destruct Hin as (y & Hy & Hin). apply filter_In in Hin.
  apply in_map_iff. exists y. tauto.
Qed.

Lemma filter_filter {A} (p q : A -> bool) l :
  filter p (filter q l) = filter (fun x => q x && p x) l.
Proof.
  induction l as [|a l IH]; simpl; [reflexivity|].
  destruct (q a); simpl; [|exact IH].
  destruct (p a); simpl; now rewrite IH.
Qed.

(** Deleting the rows of a list one by one, each under its identifier. *)
Lemma fold_delete_filter {V} (id_of : V -> Z) (doomed : list V)
    (m : JsMap.t V) :
  JsMap.wf m ->
  fold_left (fun m x => map_delete (id_of x) m) doomed m
  = filter (fun e => negb (existsb (Z.eqb (fst e)) (List.map id_of doomed))) m.
Proof.
  revert m. induction doomed as [|x rest IH]; simpl; intros m Hwf.
  - symmetry. now apply filter_all.
  - rewrite map_delete_filter by assumption.
    rewrite IH by now apply wf_filter.
    rewrite filter_filter. apply filter_ext. intros [k v]. simpl.
    now rewrite negb_orb.
Qed.

Lemma values_filter {V} (p : V -> bool) (m : JsMap.t V) :
  JsMap.values (filter (fun e => p (snd e)) m) = filter p (JsMap.values m).
Proof.
  unfold JsMap.values.
  induction m as [|[k v] rest IH]; simpl; [reflexivity|].
  destruct (p v); simpl; now rewrite IH.
Qed.

(** The lectures that [deleteSection] leaves: those of the other sections. *)
Lemma deleteSection_lectures id st :
  map_ok cl_id (lectureId st) (lectures st) ->
  fold_left (fun m lecture => map_delete (cl_id lecture) m)
    (filter (fun lecture => cl_sectionId lecture =? id)
            (JsMap.values (lectures st)))
    (lectures st)
  = filter (fun e => negb (cl_sectionId (snd e) =? id)) (lectures st).
Proof.
  intros (Hwf & Hids & _). rewrite fold_delete_filter by assumption.
  apply filter_ext_in. intros [k v] Hin. simpl. f_equal.
  destruct (cl_sectionId v =? id) eqn:Hsec.
  - apply existsb_exists. exists k. split; [|apply Z.eqb_refl].
    apply in_map_iff. exists v. split; [now apply Hids|].
    apply filter_In. split; [|assumption].
    apply JsMapFacts.In_values. now exists k.
  - apply not_true_is_false. intros Hex. apply existsb_exists in Hex.
    destruct Hex as (k' & Hin' & Hk). apply Z.eqb_eq in Hk. subst k'.
    apply in_map_iff in Hin'. destruct Hin' as (v' & Hid & Hin').
    apply filter_In in Hin'. destruct Hin' as [Hin' Hsec'].
    apply JsMapFacts.In_values in Hin'. destruct Hin' as [k' Hin'].
    assert (k' = k) by (rewrite <- (Hids k' v' Hin'); exact Hid). subst k'.
    assert (v' = v).
    { apply (JsMapFacts.In_get _ _ _ Hwf) in Hin.
      apply (JsMapFacts.In_get _ _ _ Hwf) in Hin'. congruence. }
    subst v'. congruence.
Qed.

(** X22. Deleting a section takes its lectures with it and nothing else. In
    a content store whose sections and lectures are well formed, deleting a
    stored section answers [true] (HTTP 200); afterwards the section is gone,
    the other sections are as before, the lectures that remain are exactly
    the lectures of the other sections, so the deleted section lists no
    lecture and every other section lists the lectures it listed. Deleting
    an identifier that holds no section answers [false] (HTTP 404) and
    changes nothing. *)
Theorem deleteSection_cascades :
  forall id st,
    map_ok cs_id (sectionId st) (sections st) ->
    map_ok cl_id (lectureId st) (lectures st) ->
    (JsMap.get id (sections st) = None ->
     deleteSection id st = (false, st)
     /\ sections_delete (Some id) st = ((404, inl "Section not found"), st))
    /\ (forall section,
          JsMap.get id (sections st) = Some section ->
          let st' := snd (deleteSection id st) in
          fst (deleteSection id st) = true
          /\ sections_delete (Some id) st
             = ((200, inl "Section deleted successfully"), st')
          /\ JsMap.get id (sections st') = None
          /\ (forall id', id' <> id ->
                JsMap.get id' (sections st') = JsMap.get id' (sections st))
          /\ (forall k lecture,
                JsMap.get k (lectures st') = Some lecture
                <-> JsMap.get k (lectures st) = Some lecture
                    /\ cl_sectionId lecture <> id)
          /\ getLecturesBySection id st' = []
          /\ (forall sid, sid <> id ->
                getLecturesBySection sid st' = getLecturesBySection sid st)).
Proof.
  intros id st Hs Hl. split.
  - intros Hnone. unfold sections_delete, deleteSection, map_has.
    rewrite Hnone. now split.
  - intros section Hget st'. subst st'.
    unfold sections_delete, deleteSection, map_has. rewrite Hget.
    cbn [negb fst snd sections lectures].
    rewrite (deleteSection_lectures id st Hl).
    split; [reflexivity|]. split; [reflexivity|].
    split; [apply get_map_delete_same, Hs|].
    split; [intros id' Hne; now apply get_map_delete_other|].
    assert (Hwf' : JsMap.wf
                     (filter (fun e => negb (cl_sectionId (snd e) =? id))
                             (lectures st)))
      by apply wf_filter, Hl.
    split; [|split].
    + intros k lecture. split.
      * intros H. apply JsMapFacts.get_In in H. apply filter_In in H.
        destruct H as [Hin Hsec]. simpl in Hsec.
        apply negb_true_iff, Z.eqb_neq in Hsec.
        split; [|assumption]. apply JsMapFacts.In_get; [apply Hl | assumption].
      * intros [H Hsec]. apply JsMapFacts.In_get; [assumption|].
        apply filter_In. split; [now apply JsMapFacts.get_In|].
        simpl. now apply negb_true_iff, Z.eqb_neq.
    + unfold getLecturesBySection. cbn [lectures].
      rewrite (values_filter (fun l => negb (cl_sectionId l =? id))).
      rewrite filter_filter.
      replace (filter _ (JsMap.values (lectures st))) with (@nil CourseLecture);
        [reflexivity|].
      symmetry. induction (JsMap.values (lectures st)) as [|l ls IH];
        simpl; [reflexivity|].
      destruct (cl_sectionId l =? id); simpl; exact IH.
    + intros sid Hne. unfold getLecturesBySection. cbn [lectures].
      rewrite (values_filter (fun l => negb (cl_sectionId l =? id))).
      rewrite filter_filter. f_equal. apply filter_ext. intros l.
      destruct (cl_sectionId l =? sid) eqn:Hsid; [|apply andb_false_r].
      apply Z.eqb_eq in Hsid. rewrite andb_true_r.
      apply negb_true_iff, Z.eqb_neq. congruence.
Qed.

Lemma example_content_ok :
  map_ok cs_id (sectionId example_content) (sections example_content)
  /\ map_ok cl_id (lectureId example_content) (lectures example_content).
Proof.
  split.
  - apply (map_ok_set_next cs_id 2); [|reflexivity].
    apply (map_ok_set_next cs_id 1); [|reflexivity].
    apply map_ok_empty.
  - apply (map_ok_set_next cl_id 3); [|reflexivity].
    apply (map_ok_set_next cl_id 2); [|reflexivity].
    apply (map_ok_set_next cl_id 1); [|reflexivity].
    apply map_ok_empty.
Qed.

(** Deleting section 1 of [example_content] leaves the lecture of section 2
    alone. *)
Lemma deleteSection_cascades_witness :
  fst (deleteSection 1 example_content) = true
  /\ getLecturesBySection 1 (snd (deleteSection 1 example_content)) = []
  /\ List.map cl_title
       (getLecturesBySection 2 (snd (deleteSection 1 example_content)))
     = ["Tactics"].
Proof.
  destruct (deleteSection_cascades 1 example_content)
    as [_ Hdel]; [apply example_content_ok | apply example_content_ok |].
  destruct (Hdel {| cs_id := 1; cs_courseId := 1; cs_title := "Basics";
                    cs_order := 1 |})
    as (Htrue & _ & _ & _ & _ & Hnone & Hother); [reflexivity|].
  split; [exact Htrue|]. split; [exact Hnone|].
  rewrite Hother by discriminate. reflexivity.
Defined.

Lemma insert_section_perm x l : Permutation (insert_section x l) (x :: l).
Proof.
  induction l as [|y rest IH]; simpl; [reflexivity|].
  destruct (cs_order y <? cs_order x); [|reflexivity].
  rewrite IH. apply perm_swap.
Qed.

Lemma getSectionsByCourse_In cid st section :
  In section (getSectionsByCourse cid st)
  <-> In section (JsMap.values (sections st)) /\ cs_courseId section = cid.
Proof.
  unfold getSectionsByCourse.
  assert (Hperm : forall l, Permutation (fold_right insert_section [] l) l).
  { induction l as [|x rest IH]; simpl; [reflexivity|].
    rewrite insert_section_perm. now constructor. }
  split.
  - intros Hin. apply (Permutation_in _ (Hperm _)) in Hin.
    apply filter_In in Hin. now rewrite Z.eqb_eq in Hin.
  - intros [Hin Hc].
    apply (Permutation_in _ (Permutation_sym (Hperm _))).
    apply filter_In. split; [assumption | now apply Z.eqb_eq].
Qed.

(** X23. A section is patched only under the name of its own course. For a
    stored section of a store with well-formed sections and a body that
    passes the schema, [PATCH /api/sections/:id] answers 200 exactly when
    the body carries the section's current [courseId]; the title and the
    order are then taken from the body where it carries them, and the
    section stays in its course. With another [courseId], or with none, the
    answer is 404 "Section not found" although the section exists, and
    nothing changes: the route never moves a section to another course. *)
Theorem section_patch_needs_its_course :
  forall id body st section,
    map_ok cs_id (sectionId st) (sections st) ->
    JsMap.get id (sections st) = Some section ->
    optional_integer_column (ps_courseId body) = true ->
    optional_integer_column (ps_order body) = true ->
    (ps_courseId body = Some (cs_courseId section) ->
     exists updated,
       fst (sections_patch (Some id) body st) = (200, inr (Some updated))
       /\ JsMap.get id (sections (snd (sections_patch (Some id) body st)))
          = Some updated
       /\ cs_id updated = id
       /\ cs_courseId updated = cs_courseId section
       /\ cs_title updated
          = match ps_title body with
            | Some t => t
            | None => cs_title section
            end
       /\ cs_order updated
          = match ps_order body with
            | Some o => o
            | None => cs_order section
            end
       /\ lectures (snd (sections_patch (Some id) body st)) = lectures st)
    /\ (ps_courseId body <> Some (cs_courseId section) ->
        sections_patch (Some id) body st
        = ((404, inl "Section not found"), st)).
Proof.
  intros id body st section Hok Hget Hc Ho.
  assert (Hid : cs_id section = id)
    by now apply (map_ok_get_id cs_id _ _ _ _ Hok).
  unfold sections_patch. rewrite Hc, Ho. simpl. split.
  - intros Hbody. rewrite Hbody.
    destruct (find_finds (fun s => cs_id s =? id)
                (getSectionsByCourse (cs_courseId section) st) section)
      as [found ->].
    + apply getSectionsByCourse_In. split; [|reflexivity].
      now apply (get_values id).
    + now apply Z.eqb_eq.
    + unfold updateSection. rewrite Hget, Hbody. simpl.
      eexists. split; [reflexivity|].
      split; [apply JsMapFacts.get_set_same|]. now repeat split.
  - intros Hbody.
    destruct (ps_courseId body) as [cid|]; [|reflexivity].
    destruct (find (fun s => cs_id s =? id) (getSectionsByCourse cid st))
      as [found|] eqn:Hfind; [|reflexivity].
    exfalso. apply find_some in Hfind. destruct Hfind as [Hin Hfid].
    apply Z.eqb_eq in Hfid. apply getSectionsByCourse_In in Hin.
    destruct Hin as [Hin Hcid].
    pose proof (values_get cs_id _ _ found Hok Hin) as Hg.
    rewrite Hfid in Hg. assert (found = section) by congruence.
    subst found. congruence.
Qed.

Lemma section_patch_needs_its_course_witness :
  sections_patch (Some 1)
    {| ps_courseId := Some 7; ps_title := Some "Moved"; ps_order := None |}
    example_content
  = ((404, inl "Section not found"), example_content).
Proof.
  apply (section_patch_needs_its_course 1
           {| ps_courseId := Some 7; ps_title := Some "Moved";
              ps_order := None |}
           example_content
           {| cs_id := 1; cs_courseId := 1; cs_title := "Basics";
              cs_order := 1 |});
    [apply example_content_ok | reflexivity | reflexivity | reflexivity |].
  discriminate.
Defined.

(** ** Ratings *)

Lemma filter_set_same_test {V} (p : V -> bool) k v v0 (m : JsMap.t V) :
  JsMap.get k m = Some v0 -> p v = p v0 ->
  List.length (filter p (JsMap.values (JsMap.set k v m)))
  = List.length (filter p (JsMap.values m)).
Proof.
  induction m as [|[k1 v1] rest IH]; simpl; [discriminate|].
  destruct (k =? k1); simpl.
  - intros H Hp. inversion H; subst. rewrite Hp.
    now destruct (p v0).
  - intros H Hp. fold (JsMap.values (JsMap.set k v rest)).
    fold (JsMap.values rest).
    destruct (p v1); simpl; now rewrite (IH H Hp).
Qed.

(** X24. Rating a course is an upsert that keeps one rating per user and
    course. For a course and a user of the store, a user id and a rating
    other than 0, and a well-formed rating store, [POST
    /api/courses/:id/ratings] rewrites the user's rating of the course when
    there is one (HTTP 200: same identifier and creation date, the new
    rating, and the review of the body even when the body has none) and
    otherwise, for a body that passes the schema, records a new rating under
    the next identifier (HTTP 201). Either way the lookup then finds a rating
    with the posted value, and if no user had two ratings of a course before,
    none has after. A rating of 0 counts as missing: the answer is 400 and
    nothing changes. *)
Theorem rating_is_an_upsert :
  forall now cid uid rating review s rs course user,
    map_ok cr_id (ratingId rs) (ratings rs) ->
    getCourse cid s = Some course ->
    getUser uid s = Some user ->
    uid <> 0 ->
    (rating = 0 ->
     courses_ratings_post now (Some cid) uid rating review s rs
     = ((400, inl "User ID and rating are required"), rs))
    /\ (rating <> 0 ->
        getCourseRatingByUserAndCourse uid cid rs <> None
        \/ integer_column cid && integer_column uid && integer_column rating
           = true ->
        let result :=
          courses_ratings_post now (Some cid) uid rating review s rs in
        exists stored,
          getCourseRatingByUserAndCourse uid cid (snd result) = Some stored
          /\ cr_rating stored = rating
          /\ cr_userId stored = uid /\ cr_courseId stored = cid
          /\ cr_updatedAt stored = now
          /\ match getCourseRatingByUserAndCourse uid cid rs with
             | Some old =>
                 fst result = (200, inr (Some stored))
                 /\ cr_id stored = cr_id old
                 /\ cr_createdAt stored = cr_createdAt old
                 /\ cr_review stored = review
             | None =>
                 fst result = (201, inr (Some stored))
                 /\ cr_id stored = ratingId rs
                 /\ cr_createdAt stored = now
                 /\ cr_review stored = or_null review
             end
          /\ (one_rating_per_user rs -> one_rating_per_user (snd result))).
Proof.
  intros now cid uid rating review s rs course user Hok Hcourse Huser Huid.
  apply Z.eqb_neq in Huid.
  split.
  - intros ->. unfold courses_ratings_post.
    now rewrite Hcourse, Huid.
  - intros Hrating Hvalid result. subst result.
    apply Z.eqb_neq in Hrating.
    unfold courses_ratings_post. rewrite Hcourse, Huid, Hrating, Huser.
    simpl.
    destruct (getCourseRatingByUserAndCourse uid cid rs) as [old|] eqn:Hold.
    + unfold getCourseRatingByUserAndCourse in Hold.
      destruct (find_some _ _ Hold) as [Hin Htest].
      pose proof (values_get cr_id _ _ old Hok Hin) as Hget.
      unfold updateCourseRating. rewrite Hget. cbn [fst snd].
      apply andb_true_iff in Htest. destruct Htest as [Hu Hc].
      pose proof Hu as Hu'. pose proof Hc as Hc'.
      apply Z.eqb_eq in Hu'. apply Z.eqb_eq in Hc'.
      eexists. split.
      * unfold getCourseRatingByUserAndCourse. cbn [ratings].
        apply (find_set_found cr_id); [apply Hok | exact Hold |].
        simpl. now rewrite Hu, Hc.
      * simpl. repeat (split; [congruence|]).
        split; [now repeat split|].
        intros Hinv uid' cid'. unfold ratings_of. cbn [ratings].
        rewrite (filter_set_same_test _ _ _ old); [apply Hinv | exact Hget |].
        reflexivity.
    + destruct Hvalid as [Hsome|Hvalid]; [congruence|].
      rewrite Hvalid. cbn [negb fst snd createCourseRating].
      eexists. split.
      * unfold getCourseRatingByUserAndCourse in *. cbn [ratings].
        apply JsMapFacts.find_set_new; [now apply find_none|].
        simpl. now rewrite !Z.eqb_refl.
      * simpl. repeat (split; [reflexivity|]).
        split; [now repeat split|].
        intros Hinv uid' cid'. unfold ratings_of. cbn [ratings].
        match goal with
        | |- context [JsMap.set ?k ?v _] =>
            pose proof (filter_set_length
                          (fun r => (cr_userId r =? uid')
                                    && (cr_courseId r =? cid'))
                          k v (ratings rs)) as Hlen;
            cbv beta in Hlen; cbn [cr_userId cr_courseId] in Hlen
        end.
        destruct ((uid =? uid') && (cid =? cid')) eqn:Hnew.
        -- apply andb_true_iff in Hnew. destruct Hnew as [Hu Hc].
           apply Z.eqb_eq in Hu. apply Z.eqb_eq in Hc. subst uid' cid'.
           unfold getCourseRatingByUserAndCourse in Hold.
           apply find_none_filter_nil in Hold. rewrite Hold in Hlen.
           exact Hlen.
        -- specialize (Hinv uid' cid'). unfold ratings_of in Hinv. lia.
Qed.

(** The owner of [shared_store] rates course 1 again, this time with two
    stars and no review. *)
Lemma rating_is_an_upsert_witness :
  option_map (fun r => (cr_id r, cr_rating r, cr_review r))
    (getCourseRatingByUserAndCourse 1 1
       (snd (courses_ratings_post 80 (Some 1) 1 2 None shared_store
               example_ratings)))
  = Some (1, 2, None).
Proof.
  destruct (rating_is_an_upsert 80 1 1 2 None shared_store example_ratings
              {| c_id := 1; c_title := "Rocq"; c_creatorId := 1;
                 c_isPublished := Some true; c_createdAt := 20 |}
              {| u_id := 1; u_username := "user_10"; u_password := "pw_10";
                 u_walletAddress := Some "0xa11ce"; u_isCreator := None;
                 u_createdAt := 10 |})
    as [_ Hupsert].
  - apply (map_ok_set_next cr_id 1); [apply map_ok_empty | reflexivity].
  - reflexivity.
  - reflexivity.
  - discriminate.
  - destruct Hupsert as (stored & Hfind & Hrating & _ & _ & _ & Hold & _);
      [discriminate | left; discriminate |].
    rewrite Hfind. simpl in Hold. destruct Hold as (_ & Hid & _ & Hreview).
    simpl. now rewrite Hid, Hrating, Hreview.
Defined.

(** ** The total duration of a section *)

(** X25. The total of a section is the sum of its lectures' seconds when the
    durations were written by [formatDuration]: if every lecture's duration
    is the rendering of a whole number of seconds that is not negative, and
    the sum of these numbers is a safe integer (at most [2^53 - 1], so that
    no addition is rounded), the total is that sum. A duration without
    colon, such as "5 min", adds nothing to the total. *)
Theorem section_total_is_the_sum_of_seconds :
  forall (seconds : CourseLecture -> Z) lectures,
    (forall lecture,
       In lecture lectures ->
       0 <= seconds lecture
       /\ cl_duration lecture = formatDuration (seconds lecture)) ->
    fold_right Z.add 0 (List.map seconds lectures) <= MAX_SAFE_INTEGER ->
    getTotalSectionDuration lectures
    = Integer (fold_right Z.add 0 (List.map seconds lectures))
    /\ (forall lecture,
          colons (cl_duration lecture) = O ->
          getTotalSectionDuration (lectures ++ [lecture])
          = getTotalSectionDuration lectures).
Proof.
  intros seconds lectures Hall Hmax. unfold getTotalSectionDuration. split.
  - assert (Hsum : forall start,
              0 <= start ->
              start + fold_right Z.add 0 (List.map seconds lectures)
              <= MAX_SAFE_INTEGER ->
              fold_left
                (fun total lecture =>
                   let parts :=
                     List.map parseInt (split_colon (cl_duration lecture)) in
                   match parts with
                   | [h; m; sec] =>
                       number_add total
                         (number_add
                            (number_add (number_times h 3600)
                               (number_times m 60)) sec)
                   | [m; sec] =>
                       number_add total (number_add (number_times m 60) sec)
                   | _ => total
                   end)
                lectures (Integer start)
              = Integer
                  (start + fold_right Z.add 0 (List.map seconds lectures))).
    { clear Hmax. induction lectures as [|l rest IH]; intros start Hstart Hmax.
      - simpl. f_equal. lia.
      - assert (Hrest : 0 <= fold_right Z.add 0 (List.map seconds rest)).
        { clear IH Hmax. induction rest as [|x rest' IH']; simpl; [lia|].
          destruct (Hall x (or_intror (or_introl eq_refl))) as [Hx _].
          assert (0 <= fold_right Z.add 0 (List.map seconds rest')).
          { apply IH'. intros y [<-|Hy]; apply Hall; [now left|].
            now right; right. }
          lia. }
        destruct (Hall l (or_introl eq_refl)) as [Hpos Hdur].
        simpl in Hmax.
        assert (Hn : 0 <= seconds l <= MAX_SAFE_INTEGER) by lia.
        cbn [fold_left List.map fold_right].
        rewrite Hdur, (proj1 (formatDuration_parts _ Hn)).
        pose proof (formatDuration_seconds _ Hn) as Hsec.
        destruct (seconds l <? 3600); cbv zeta iota; rewrite Hsec;
          cbn [number_add]; rewrite number_of_Z_safe by lia;
          (rewrite IH;
           [f_equal; lia
           | intros x Hx; apply Hall; now right
           | lia
           | lia]). }
    exact (Hsum 0 ltac:(lia) ltac:(lia)).
  - intros lecture Hcolons. rewrite fold_left_app. simpl.
    now rewrite (split_colon_no_colon _ Hcolons).
Qed.

Lemma section_total_is_the_sum_of_seconds_witness :
  getTotalSectionDuration
    [ {| cl_id := 1; cl_sectionId := 1; cl_title := "Terms";
         cl_videoUrl := None; cl_duration := formatDuration 630;
         cl_order := 1 |};
      {| cl_id := 2; cl_sectionId := 1; cl_title := "Types";
         cl_videoUrl := None; cl_duration := formatDuration 3725;
         cl_order := 2 |} ]
  = Integer 4355.
Proof.
  destruct (section_total_is_the_sum_of_seconds
              (fun lecture => if cl_id lecture =? 1 then 630 else 3725)
              [ {| cl_id := 1; cl_sectionId := 1; cl_title := "Terms";
                   cl_videoUrl := None; cl_duration := formatDuration 630;
                   cl_order := 1 |};
                {| cl_id := 2; cl_sectionId := 1; cl_title := "Types";
                   cl_videoUrl := None; cl_duration := formatDuration 3725;
                   cl_order := 2 |} ]) as [Htotal _].
  - intros lecture [<-|[<-|[]]]; simpl; split; (lia || reflexivity).
  - unfold MAX_SAFE_INTEGER. simpl. lia.
  - exact Htotal.
Defined.

(** ** Sharing gives access, rejecting gives nothing *)

(** X26. Sharing gives temporary access. In a store with well-formed
    ownerships, when [POST /api/access/share] of an ownership to a recipient
    is answered 201, the recipient, in any spelling of its letters' case,
    passes the temporary-access check of the ownership's course at every
    time before [expiresAt], and the access check of that course (identifier
    not 0) answers [hasAccess: true]. At [expiresAt] and later the new grant
    is no longer effectively active. *)
Theorem share_gives_access_until_expiry :
  forall now oid r r' expiresAt s ownership,
    map_ok o_id (ownershipId s) (ownerships s) ->
    getNftOwnership oid s = Some ownership ->
    toLowerCase r' = toLowerCase r ->
    fst (fst (access_share now oid r expiresAt s)) = 201 ->
    let s' := snd (access_share now oid r expiresAt s) in
    (forall now', now' < expiresAt ->
       checkTemporaryAccess now' (o_courseId ownership) r' s' = true
       /\ (o_courseId ownership <> 0 ->
           exists accessType,
             access_check now' (o_courseId ownership) r' s'
             = (200, CheckJson true (Some accessType))))
    /\ (forall now', expiresAt <= now' ->
          isEffectivelyActive (shared_grant now oid r expiresAt s) now'
          = false).
Proof.
  intros now oid r r' expiresAt s ownership Hok Hown Hcase Hcreated s'.
  subst s'. unfold access_share in *.
  destruct (truthy_string r) eqn:Hr; [|discriminate]. simpl in *.
  destruct (negb (integer_column oid)); [discriminate|].
  unfold getNftOwnership in Hown. unfold getNftOwnership in *.
  rewrite Hown in *.
  destruct (getActiveTemporaryAccess now oid (toLowerCase r) s);
    [discriminate|].
  cbn [snd createTemporaryAccess].
  assert (Hr' : truthy_string r' = true)
    by now rewrite (toLowerCase_truthy r' r Hcase).
  split.
  - intros now' Hlt.
    assert (Hcheck :
      checkTemporaryAccess now' (o_courseId ownership) r'
        (with_temporaryAccesses
           (JsMap.set (temporaryAccessId s)
              {| ta_id := temporaryAccessId s; ta_ownershipId := oid;
                 ta_recipientAddress := toLowerCase r;
                 ta_expiresAt := TimeValue expiresAt; ta_isActive := true;
                 ta_createdAt := now |} (temporaryAccesses s))
           (temporaryAccessId s + 1) s) = true).
    { rewrite checkTemporaryAccess_live_for. simpl.
      apply existsb_exists. exists ownership. split.
      - apply filter_In. split; [now apply (get_values oid)|].
        apply Z.eqb_refl.
      - apply existsb_exists. eexists. split.
        + apply (get_values (temporaryAccessId s)).
          apply JsMapFacts.get_set_same.
        + unfold live_for, isEffectivelyActive. simpl.
          rewrite (map_ok_get_id o_id _ _ _ _ Hok Hown), Z.eqb_refl.
          rewrite toLowerCase_idempotent, Hcase, String.eqb_refl. simpl.
          now apply Z.ltb_lt. }
    split; [exact Hcheck|].
    intros Hc. unfold access_check.
    apply Z.eqb_neq in Hc. rewrite Hc, Hr'. simpl.
    match goal with
    | |- context [match ?d with Some _ => _ | None => _ end] =>
        destruct d; [now exists owner|]
    end.
    exists temporary.
    now rewrite checkTemporaryAccess_normalized, Hcheck.
  - intros now' Hge. unfold isEffectivelyActive, shared_grant. simpl.
    now apply Z.ltb_ge.
Qed.

Lemma share_gives_access_until_expiry_witness :
  checkTemporaryAccess 999 1 "0xBEEF"
    (snd (access_share 100 1 "0xbeef" 1000 shared_store))
  = true.
Proof.
  destruct (share_gives_access_until_expiry 100 1 "0xbeef" "0xBEEF" 1000
              shared_store
              {| o_id := 1; o_courseId := 1; o_ownerId := 1;
                 o_tokenId := "token-1"; o_mintedAt := 30;
                 o_transactionHash := None |})
    as [Hbefore _];
    [apply shared_store_ok | reflexivity | reflexivity | reflexivity |].
  apply (Hbefore 999). lia.
Defined.

(** X27. Only approval touches the grants. Setting the status of a stored
    request to [rejected] or to [pending] changes that request alone: the
    users, courses, ownerships, grants and every counter of the store are as
    before, so every access check answers as before. *)
Theorem rejection_grants_nothing :
  forall zone now id status s request,
    getAccessRequestById id s = Some request ->
    status = "rejected" \/ status = "pending" ->
    let s' := snd (access_request_status zone now (Some id) status s) in
    users s' = users s /\ courses s' = courses s
    /\ ownerships s' = ownerships s
    /\ temporaryAccesses s' = temporaryAccesses s
    /\ userId s' = userId s /\ courseId s' = courseId s
    /\ ownershipId s' = ownershipId s
    /\ temporaryAccessId s' = temporaryAccessId s
    /\ accessRequestId s' = accessRequestId s
    /\ (forall now' cid w, access_check now' cid w s' = access_check now' cid w s)
    /\ (forall now' w,
          getSharedCoursesForWallet now' w s'
          = getSharedCoursesForWallet now' w s).
Proof.
  intros zone now id status s request Hget Hstatus s'. subst s'.
  unfold access_request_status, access_request_status_with.
  rewrite Hget. unfold updateAccessRequestStatus.
  unfold getAccessRequestById in Hget. rewrite Hget.
  destruct Hstatus as [-> | ->]; simpl; now repeat split.
Qed.

Lemma rejection_grants_nothing_witness :
  temporaryAccesses
    (snd (access_request_status utc 70 (Some 1) "rejected" approved_store))
  = temporaryAccesses approved_store.
Proof.
  apply (rejection_grants_nothing utc 70 1 "rejected" approved_store
           (with_status "approved" 60
              {| ar_id := 1; ar_courseId := 1;
                 ar_requesterAddress := "0xb0b";
                 ar_ownerAddress := "0xa11ce";
                 ar_requestMessage := None; ar_requestDuration := 7;
                 ar_status := "pending"; ar_createdAt := 50;
                 ar_updatedAt := 50 |}));
    [reflexivity | now left].
Defined.

(** ** Deleting a rating *)

Lemma map_delete_absent {V} k (m : JsMap.t V) :
  JsMap.get k m = None -> map_delete k m = m.
Proof.
  induction m as [|[k1 v1] rest IH]; simpl; [reflexivity|].
  destruct (k =? k1); [discriminate|]. intros H. now rewrite IH.
Qed.

Lemma at_most_one_equal {A} (l : list A) a b :
  (List.length l <= 1)%nat -> In a l -> In b l -> a = b.
Proof.
  destruct l as [|x [|y rest]]; simpl; intros Hlen Ha Hb.
  - destruct Ha.
  - destruct Ha as [<-|[]], Hb as [<-|[]]. reflexivity.
  - lia.
Qed.

(** X28. Deleting the rating that the lookup finds makes the lookup find
    nothing. In a well-formed rating store with at most one rating per user
    and course, [DELETE /api/ratings/:id] of the rating of a user for a
    course answers 200, after which the user has no rating of the course
    and the ratings of every other user or course are found as before.
    Deleting an identifier that holds no rating answers 404 and changes
    nothing. *)
Theorem deleting_a_rating_forgets_it :
  forall uid cid rs rating,
    map_ok cr_id (ratingId rs) (ratings rs) ->
    one_rating_per_user rs ->
    getCourseRatingByUserAndCourse uid cid rs = Some rating ->
    let rs' := snd (ratings_delete (Some (cr_id rating)) rs) in
    fst (ratings_delete (Some (cr_id rating)) rs)
    = (200, inl "Rating deleted successfully")
    /\ getCourseRatingByUserAndCourse uid cid rs' = None
    /\ (forall uid' cid',
          uid' <> uid \/ cid' <> cid ->
          getCourseRatingByUserAndCourse uid' cid' rs'
          = getCourseRatingByUserAndCourse uid' cid' rs)
    /\ (forall id,
          JsMap.get id (ratings rs) = None ->
          ratings_delete (Some id) rs = ((404, inl "Rating not found"), rs)).
Proof.
  intros uid cid rs rating Hok Hone Hfind rs'. subst rs'.
  pose proof Hok as (Hwf & Hids & _).
  unfold getCourseRatingByUserAndCourse in Hfind.
  destruct (find_some _ _ Hfind) as [Hin Htest].
  pose proof (values_get cr_id _ _ rating Hok Hin) as Hget.
  apply andb_true_iff in Htest. destruct Htest as [Hu Hc].
  apply Z.eqb_eq in Hu. apply Z.eqb_eq in Hc.
  unfold ratings_delete, deleteCourseRating, map_has. rewrite Hget.
  cbn [negb fst snd].
  split; [reflexivity|].
  unfold getCourseRatingByUserAndCourse. cbn [ratings].
  rewrite (map_delete_filter _ _ Hwf).
  split; [|split].
  - apply JsMapFacts.find_none_values. intros x Hx.
    apply not_true_is_false. intros Hp.
    apply JsMapFacts.In_values in Hx. destruct Hx as [k Hx].
    apply filter_In in Hx. destruct Hx as [Hx Hk]. simpl in Hk.
    apply negb_true_iff, Z.eqb_neq in Hk.
    assert (x = rating).
    { apply (at_most_one_equal (ratings_of uid cid rs)); [apply Hone| |].
      - apply filter_In. split; [|exact Hp].
        apply JsMapFacts.In_values. now exists k.
      - apply filter_In. split; [assumption|].
        subst uid cid. now rewrite !Z.eqb_refl. }
    subst x. apply Hk. symmetry. now apply Hids.
  - intros uid' cid' Hother.
    assert (Hnot : (cr_userId rating =? uid') && (cr_courseId rating =? cid')
                   = false).
    { apply andb_false_iff.
      destruct Hother as [H|H]; [left | right]; apply Z.eqb_neq; congruence. }
    unfold JsMap.values.
    assert (Hgen : forall m : JsMap.t CourseRating,
              (forall k v, In (k, v) m -> k = cr_id rating -> v = rating) ->
              find (fun r => (cr_userId r =? uid') && (cr_courseId r =? cid'))
                   (List.map snd
                      (filter (fun e => negb (fst e =? cr_id rating)) m))
              = find (fun r => (cr_userId r =? uid') && (cr_courseId r =? cid'))
                     (List.map snd m)).
    { induction m as [|[k v] rest IH]; simpl; intros Hm; [reflexivity|].
      destruct (k =? cr_id rating) eqn:Hk; simpl.
      - apply Z.eqb_eq in Hk.
        rewrite (Hm k v (or_introl eq_refl) Hk), Hnot.
        apply IH. intros k' v' Hin'. apply Hm. now right.
      - destruct ((cr_userId v =? uid') && (cr_courseId v =? cid'));
          [reflexivity|].
        apply IH. intros k' v' Hin'. apply Hm. now right. }
    apply Hgen. intros k v Hinkv ->.
    apply (JsMapFacts.In_get _ _ _ Hwf) in Hinkv. congruence.
  - intros id Hnone. rewrite Hnone. cbn [negb].
    rewrite (map_delete_absent _ _ Hnone). now destruct rs.
Qed.

Lemma deleting_a_rating_forgets_it_witness :
  getCourseRatingByUserAndCourse 1 1
    (snd (ratings_delete (Some 1) example_ratings))
  = None.
Proof.
  destruct (deleting_a_rating_forgets_it 1 1 example_ratings
              {| cr_id := 1; cr_courseId := 1; cr_userId := 1;
                 cr_rating := 4; cr_review := Some "clear";
                 cr_createdAt := 70; cr_updatedAt := 70 |})
    as (_ & Hgone & _).
  - apply (map_ok_set_next cr_id 1); [apply map_ok_empty | reflexivity].
  - intros uid cid. unfold ratings_of. simpl.
    match goal with
    | |- context [if ?b then _ else _] => destruct b
    end; simpl; lia.
  - reflexivity.
  - exact Hgone.
Defined.
